(** * rtp-mini: the AppleMIDI control codec, the stream state machine and
      the session demultiplexer, embedded from the JavaScript sources

    Sources embedded here:
    - [src/ControlMessage.js]  (parseBuffer, generateBuffer)
    - [src/MidiMessage.js]     (generateBuffer, the command section)
    - [src/Stream.js]          (the handlers and senders of a stream)
    - [src/Session.js]         (handleMessage, sendUdpMessage)

    Conventions.  A JavaScript number that the code only ever uses as an
    integer is a [Z].  A field that is a number or absent is an
    [option Z]; the keys [ssrc] and [token], which the session compares
    with [===], keep [null] and [undefined] apart ([JS.value]).  A thrown
    exception is [None] in the result of a fallible function: an
    exception raised inside a datagram handler or a timer is caught
    nowhere in the library.  A byte is a [Z] in [0, 255].  A JavaScript
    string is identified with the sequence of bytes of its UTF-8 encoding,
    so that [Buffer.byteLength], [buffer.write] and [buffer.toString] are
    the length, the copy and the identity on those bytes.  [Math.round] is
    applied to integers only and is left out. *)

From Stdlib Require Import ZArith Lia String Ascii.
From stdpp Require Import base tactics option list numbers.

Local Open Scope Z_scope.
#[local] Set Warnings "-clear-no-such-hyp".

(** ** Node's [Buffer], as far as the library uses it *)

Module Buffer.

(** [Buffer.alloc(n)]: [n] zero bytes. *)
Definition alloc (n : nat) : list Z := replicate n 0.

Definition readUInt8 (b : list Z) (off : nat) : option Z := b !! off.

Definition readUInt16BE (b : list Z) (off : nat) : option Z :=
  b0 ← b !! off;
  b1 ← b !! (off + 1)%nat;
  Some (b0 * 256 + b1).

Definition readUInt32BE (b : list Z) (off : nat) : option Z :=
  b0 ← b !! off;
  b1 ← b !! (off + 1)%nat;
  b2 ← b !! (off + 2)%nat;
  b3 ← b !! (off + 3)%nat;
  Some (((b0 * 256 + b1) * 256 + b2) * 256 + b3).

(** The writers throw a RangeError when the value does not fit or the
    offset is out of bounds. *)
Definition writeUInt8 (b : list Z) (v : Z) (off : nat) : option (list Z) :=
  if bool_decide (0 ≤ v ≤ 255) && bool_decide (off < length b)%nat
  then Some (<[off := v]> b)
  else None.

Definition writeUInt16BE (b : list Z) (v : Z) (off : nat) : option (list Z) :=
  if bool_decide (0 ≤ v ≤ 65535) && bool_decide (off + 1 < length b)%nat
  then Some (<[(off + 1)%nat := v mod 256]> (<[off := v / 256]> b))
  else None.

Definition writeUInt32BE (b : list Z) (v : Z) (off : nat) : option (list Z) :=
  if bool_decide (0 ≤ v ≤ 4294967295) && bool_decide (off + 3 < length b)%nat
  then Some (<[(off + 3)%nat := v mod 256]>
            (<[(off + 2)%nat := (v / 256) mod 256]>
            (<[(off + 1)%nat := (v / 65536) mod 256]>
            (<[off := v / 16777216]> b))))
  else None.

(** [source.copy(target, targetStart)]: as many bytes of [source] as fit
    are written over [target] from [targetStart] on. *)
Definition copy (source target : list Z) (targetStart : nat) : list Z :=
  list_inserts targetStart (take (length target - targetStart) source) target.

(** A string as the bytes of its UTF-8 encoding, and back. *)
Definition bytes_of_string (s : string) : list Z :=
  (λ c, Z.of_N (N_of_ascii c)) <$> list_ascii_of_string s.

Definition string_of_bytes (bs : list Z) : string :=
  string_of_list_ascii ((λ z, ascii_of_N (Z.to_N z)) <$> bs).

Definition byteLength (s : string) : nat := String.length s.

(** [buffer.write(string, offset)] *)
Definition write (b : list Z) (s : string) (off : nat) : list Z :=
  copy (bytes_of_string s) b off.

(** [buffer.toString('utf-8', start)] *)
Definition toString (b : list Z) (start : nat) : string :=
  string_of_bytes (drop start b).

(** An optional numeric field handed to a writer: [+undefined] is NaN and
    [+null] is 0; NaN passes the range check and is stored as zero
    bytes. *)
Definition number (o : option Z) : Z := default 0 o.

End Buffer.

(** ** Buffers as windows on shared memory

    A Node [Buffer] object is a window on a block of memory, and
    [buffer.slice] returns a window on the same block.  The three
    timestamps of a parsed synchronization message are windows on the
    received datagram, and [Stream.sendSynchronization] hands the very same
    windows to its answer before writing through them. *)

Record Buf := mkBuf { base : nat; off : nat; len : nat }.

Abbreviation Heap := (list (list Z)).

(** The bytes seen through a window. *)
Definition contents (h : Heap) (b : Buf) : option (list Z) :=
  blk ← h !! base b;
  Some (take (len b) (drop (off b) blk)).

(** Write [bs] back through a window. *)
Definition store (h : Heap) (b : Buf) (bs : list Z) : Heap :=
  match h !! base b with
  | Some blk => <[base b := list_inserts (off b) bs blk]> h
  | None => h
  end.

(** [Buffer.alloc(n)] as an object: a fresh block. *)
Definition halloc (h : Heap) (n : nat) : Heap * Buf :=
  (h ++ [Buffer.alloc n], mkBuf (length h) 0 n).

(** A received datagram, placed in a fresh block. *)
Definition hreceive (h : Heap) (bytes : list Z) : Heap * Buf :=
  (h ++ [bytes], mkBuf (length h) 0 (length bytes)).

(** [buffer.slice(start, end)], both indices clamped to the length. *)
Definition slice (b : Buf) (start stop : nat) : Buf :=
  let s := Nat.min start (len b) in
  let e := Nat.min stop (len b) in
  mkBuf (base b) (off b + s) (e - s).

(** ** The 64-bit helpers of [Stream.js] *)

Definition hex_char (d : Z) : ascii :=
  nth (Z.to_nat d)
      ["0"; "1"; "2"; "3"; "4"; "5"; "6"; "7"; "8"; "9";
       "a"; "b"; "c"; "d"; "e"; "f"]%char "0"%char.

Definition hex_val (c : ascii) : option Z :=
  let n := Z.of_N (N_of_ascii c) in
  if bool_decide (48 ≤ n ≤ 57) then Some (n - 48)
  else if bool_decide (97 ≤ n ≤ 102) then Some (n - 87)
  else if bool_decide (65 ≤ n ≤ 70) then Some (n - 55)
  else None.

(** The hexadecimal digits of a positive number, most significant first,
    put in front of [acc]. *)
Fixpoint hex_digits (fuel : nat) (n : Z) (acc : string) : string :=
  match fuel with
  | O => acc
  | S fuel' =>
      if n <? 16 then String (hex_char n) acc
      else hex_digits fuel' (n / 16) (String (hex_char (n mod 16)) acc)
  end.

(** [value.toString(16)] of an integer. *)
Definition toString16 (v : Z) : string :=
  if v <? 0
  then String "-"%char (hex_digits (S (Z.to_nat (Z.log2 (- v)))) (- v) EmptyString)
  else hex_digits (S (Z.to_nat (Z.log2 v))) v EmptyString.

Fixpoint zeros (n : nat) : string :=
  match n with
  | O => EmptyString
  | S n' => String "0"%char (zeros n')
  end.

(** [pad(number, length)] on a string argument: zeros are put in front
    until the length is reached. *)
Definition pad (num : string) (length : nat) : string :=
  String.append (zeros (length - String.length num)) num.

(** [str.slice(8)] *)
Definition slice8 (s : string) : string :=
  String.substring 8 (String.length s - 8) s.

(** The digits [parseInt] consumes: the longest prefix of hexadecimal
    digits; [None] when there is none. *)
Fixpoint parse_digits (s : string) (acc : option Z) : option Z :=
  match s with
  | EmptyString => acc
  | String c s' =>
      match hex_val c with
      | Some d => parse_digits s' (Some (16 * default 0 acc + d))
      | None => acc
      end
  end.

(** [parseInt(s, 16)]; [None] is NaN.  The strings reaching it are made of
    lower-case hexadecimal digits and at most one minus sign, so that
    leading white space and a [0x] prefix do not occur. *)
Definition parseInt16 (s : string) : option Z :=
  match s with
  | String "-"%char s' => Z.opp <$> parse_digits s' None
  | String "+"%char s' => parse_digits s' None
  | _ => parse_digits s None
  end.

(** [writeUInt64BE(buffer, value)]: the high word is zero, the low word is
    parsed back from the last characters of the padded hexadecimal text. *)
Definition writeUInt64BE (b : list Z) (value : Z) : option (list Z) :=
  let str := pad (toString16 value) 16 in
  b ← Buffer.writeUInt32BE b 0 0;
  Buffer.writeUInt32BE b (Buffer.number (parseInt16 (slice8 str))) 4.

(** [readUInt64BE(buffer)]: the low word only. *)
Definition readUInt64BE (b : list Z) : option Z :=
  Buffer.readUInt32BE b 4.

(** The same two helpers on a [Buffer] object. *)
Definition hwriteUInt64BE (h : Heap) (b : Buf) (value : Z) : option Heap :=
  bs ← contents h b;
  bs' ← writeUInt64BE bs value;
  Some (store h b bs').

Definition hreadUInt64BE (h : Heap) (b : Buf) : option Z :=
  bs ← contents h b;
  readUInt64BE bs.

(** ** JavaScript values of the fields that may be [null] or [undefined] *)

Module JS.

Inductive value := undefined | null | number (z : Z).

#[global] Instance value_eq_dec : EqDecision value.
Proof. solve_decision. Defined.

(** [a === b] *)
Definition strict_eq (a b : value) : bool := bool_decide (a = b).

(** The truth value of a field in a condition: [null], [undefined] and
    [0] are falsy. *)
Definition truthy (v : value) : bool :=
  match v with
  | number z => negb (z =? 0)
  | _ => false
  end.

(** The number a buffer writer stores for the value (NaN is stored as
    zero bytes, [null] converts to 0). *)
Definition to_number (v : value) : Z :=
  match v with
  | number z => z
  | _ => 0
  end.

(** [ToInt32] and [ToUint32], applied by the bitwise operators. *)
Definition toUint32 (z : Z) : Z := z mod 4294967296.
Definition toInt32 (z : Z) : Z := (z + 2147483648) mod 4294967296 - 2147483648.

End JS.

(** ** [src/ControlMessage.js] *)

Module ControlMessage.

Inductive Command :=
| invitation
| invitation_rejected
| invitation_accepted
| end_
| synchronization
| receiver_feedback
| bitrate_receive_limit.

#[global] Instance Command_eq_dec : EqDecision Command.
Proof. solve_decision. Defined.

Definition byteToCommand (code : Z) : option Command :=
  if code =? 0x494E then Some invitation
  else if code =? 0x4E4F then Some invitation_rejected
  else if code =? 0x4F4B then Some invitation_accepted
  else if code =? 0x4259 then Some end_
  else if code =? 0x434B then Some synchronization
  else if code =? 0x5253 then Some receiver_feedback
  else if code =? 0x524C then Some bitrate_receive_limit
  else None.

Definition commandToByte (c : Command) : Z :=
  match c with
  | invitation => 0x494E
  | invitation_rejected => 0x4E4F
  | invitation_accepted => 0x4F4B
  | end_ => 0x4259
  | synchronization => 0x434B
  | receiver_feedback => 0x5253
  | bitrate_receive_limit => 0x524C
  end.

Definition flags_start : Z := 0xFFFF.

(** The fields of a control message object; a field that was never
    assigned is [undefined] ([None] for the numeric and buffer fields). *)
Record t := mk {
  isValid : bool;
  start : Z;
  version : Z;
  command : option Command;
  token : JS.value;
  ssrc : JS.value;
  name : string;
  count : option Z;
  padding : option Z;
  timestamp1 : option Buf;
  timestamp2 : option Buf;
  timestamp3 : option Buf;
  sequenceNumber : option Z
}.

(** [new ControlMessage()] *)
Definition new : t :=
  mk true flags_start 2 None JS.undefined JS.undefined EmptyString
     None None None None None None.

(** [parseBuffer(buffer)]; [None] when a read is out of range. *)
Definition parseBuffer (h : Heap) (buffer : Buf) : option t :=
  bs ← contents h buffer;
  start ← Buffer.readUInt16BE bs 0;
  if negb (start =? flags_start)
  then Some (mk false start 2 None JS.undefined JS.undefined EmptyString
                None None None None None None)
  else
    code ← Buffer.readUInt16BE bs 2;
    let command := byteToCommand code in
    match command with
    | Some invitation | Some invitation_accepted
    | Some invitation_rejected | Some end_ =>
        version ← Buffer.readUInt32BE bs 4;
        token ← Buffer.readUInt32BE bs 8;
        ssrc ← Buffer.readUInt32BE bs 12;
        let name := Buffer.toString bs 16 in
        Some (mk true start version command (JS.number token) (JS.number ssrc)
                 name None None None None None None)
    | Some synchronization =>
        ssrc ← Buffer.readUInt32BE bs 4;
        count ← Buffer.readUInt8 bs 8;
        b9 ← Buffer.readUInt8 bs 9;
        lo ← Buffer.readUInt16BE bs 10;
        (* the shift count 0xF0 is taken modulo 32 *)
        let padding := Z.shiftl b9 (0xF0 mod 32) + lo in
        Some (mk true start 2 command JS.undefined (JS.number ssrc) EmptyString
                 (Some count) (Some padding)
                 (Some (slice buffer 12 20))
                 (Some (slice buffer 20 28))
                 (Some (slice buffer 28 36))
                 None)
    | Some receiver_feedback =>
        ssrc ← Buffer.readUInt32BE bs 4;
        sequenceNumber ← Buffer.readUInt16BE bs 8;
        Some (mk true start 2 command JS.undefined (JS.number ssrc) EmptyString
                 None None None None None (Some sequenceNumber))
    | _ =>
        Some (mk true start 2 command JS.undefined JS.undefined EmptyString
                 None None None None None None)
    end.

(** [generateBuffer()]: the bytes it leaves in [this.buffer]; [None]
    when a writer throws or a timestamp buffer is missing. *)
Definition generateBuffer (h : Heap) (m : t) : option (list Z) :=
  match command m with
  | Some ((invitation | invitation_accepted | invitation_rejected | end_) as c) =>
      let b := Buffer.alloc (17 + Buffer.byteLength (name m)) in
      b ← Buffer.writeUInt16BE b (start m) 0;
      b ← Buffer.writeUInt16BE b (commandToByte c) 2;
      b ← Buffer.writeUInt32BE b (version m) 4;
      b ← Buffer.writeUInt32BE b (JS.to_number (token m)) 8;
      b ← Buffer.writeUInt32BE b (JS.to_number (ssrc m)) 12;
      let b := Buffer.write b (name m) 16 in
      if bool_decide (c ≠ end_)
      then Buffer.writeUInt8 b 0 (length b - 1)
      else Some b
  | Some synchronization =>
      let b := Buffer.alloc 36 in
      b ← Buffer.writeUInt16BE b (start m) 0;
      b ← Buffer.writeUInt16BE b (commandToByte synchronization) 2;
      b ← Buffer.writeUInt32BE b (JS.to_number (ssrc m)) 4;
      b ← Buffer.writeUInt8 b (Buffer.number (count m)) 8;
      b ← Buffer.writeUInt8 b
            (Z.shiftr (JS.toUint32 (Buffer.number (padding m))) (0xF0 mod 32)) 9;
      b ← Buffer.writeUInt16BE b
            (Z.land (JS.toInt32 (Buffer.number (padding m))) 0x00FFFF) 10;
      ts1 ← timestamp1 m; bs1 ← contents h ts1;
      let b := Buffer.copy bs1 b 12 in
      ts2 ← timestamp2 m; bs2 ← contents h ts2;
      let b := Buffer.copy bs2 b 20 in
      ts3 ← timestamp3 m; bs3 ← contents h ts3;
      let b := Buffer.copy bs3 b 28 in
      Some b
  | Some receiver_feedback =>
      let b := Buffer.alloc 12 in
      b ← Buffer.writeUInt16BE b (start m) 0;
      b ← Buffer.writeUInt16BE b (commandToByte receiver_feedback) 2;
      b ← Buffer.writeUInt32BE b (JS.to_number (ssrc m)) 4;
      Buffer.writeUInt16BE b (Buffer.number (sequenceNumber m)) 8
  | _ => Some (Buffer.alloc 0)
  end.

End ControlMessage.

Import ControlMessage(invitation, invitation_rejected, invitation_accepted, end_,
                      synchronization, receiver_feedback, bitrate_receive_limit).

(** ** [src/RTPMessage.js] and [src/MidiMessage.js]: the encoder *)

Module MidiMessage.

Record Command := mkCommand { deltaTime : Z; data : list Z }.

(** The fields the encoder reads; the first group is inherited from
    [RTPMessage].  [bigLength] and [firstHasDeltaTime] are recomputed by
    [generateBuffer] before it uses them, and are locals below. *)
Record t := mk {
  version : Z;
  padding : bool;
  hasExtension : bool;
  csrcs : list Z;
  marker : bool;
  payloadType : Z;
  sequenceNumber : Z;
  timestamp : Z;
  ssrc : Z;
  extensionHeaderId : option Z;
  extension : option (list Z);
  hasJournal : bool;
  p : bool;
  commands : list Command;
  isValid : bool
}.

(** [new MidiMessage()] *)
Definition new : t :=
  mk 2 false false [] false 0x61 0 0 0 None None false false [] true.

Definition FLAG_BIG_LENGTH : Z := 0x80.
Definition FLAG_HAS_JOURNAL : Z := 0x40.
Definition FLAG_FIRST_HAS_DELTA_TIME : Z := 0x20.
Definition FLAG_P : Z := 0x10.

(** The number of delta-time bytes the first loop reserves. *)
Definition deltaTimeLength (commandDeltaTime : Z) : nat :=
  let len := O in
  let len := if 0x7f7f7f <=? commandDeltaTime then S len else len in
  let len := if 0x7f7f <=? commandDeltaTime then S len else len in
  let len := if 0x7f <=? commandDeltaTime then S len else len in
  S len.

(** The delta-time bytes the second loop writes, in order. *)
Definition deltaTimeBytes (commandDeltaTime : Z) : list Z :=
  (if 0x7f7f7f <=? commandDeltaTime
   then [Z.lor 0x80 (Z.land 0x7f (Z.shiftr (JS.toInt32 commandDeltaTime) 21))]
   else [])
  ++ (if 0x7f7f <=? commandDeltaTime
      then [Z.lor 0x80 (Z.land 0x7f (Z.shiftr (JS.toInt32 commandDeltaTime) 14))]
      else [])
  ++ (if 0x7f <=? commandDeltaTime
      then [Z.lor 0x80 (Z.land 0x7f (Z.shiftr (JS.toInt32 commandDeltaTime) 7))]
      else [])
  ++ [Z.land 0x7f (JS.toInt32 commandDeltaTime)].

(** The scan of a SysEx command in the first loop:
    [while (e + 1 < length && data[e] !== 0xf7) e += 1]. *)
Fixpoint sysexScan (fuel : nat) (data : list Z) (e : nat) : nat :=
  match fuel with
  | O => e
  | S fuel' =>
      if bool_decide (e + 1 < length data)%nat
         && negb (bool_decide (data !! e = Some 0xf7))
      then sysexScan fuel' data (S e)
      else e
  end.

(** [payloadOffset += 1; payload.writeUInt8(v, payloadOffset)], for each
    byte in turn. *)
Fixpoint writeBytes (payload : list Z) (payloadOffset : nat) (vs : list Z)
  : option (list Z * nat) :=
  match vs with
  | [] => Some (payload, payloadOffset)
  | v :: vs' =>
      payload ← Buffer.writeUInt8 payload v (S payloadOffset);
      writeBytes payload (S payloadOffset) vs'
  end.

(** [payload[++payloadOffset] = v], for each byte in turn: an indexed
    store outside the buffer is dropped silently. *)
Fixpoint storeBytes (payload : list Z) (payloadOffset : nat) (vs : list Z)
  : list Z * nat :=
  match vs with
  | [] => (payload, payloadOffset)
  | v :: vs' => storeBytes (<[S payloadOffset := v]> payload) (S payloadOffset) vs'
  end.

Section Encoder.

(** The table of data lengths of the package [midi-common], which is
    not part of the repository: [getDataLength(status)]. *)
Variable getDataLength : Z → nat.

(** A command with the [_length] and [_hasOwnStatusByte] the first
    loop attaches to it. *)
Record Sized := mkSized { cmd : Command; _length : nat; _hasOwnStatusByte : bool }.

(** The first loop, from command number [i] on.  It returns the sized
    commands, the payload length and [this.firstHasDeltaTime]. *)
Fixpoint measure (i : nat) (cs : list Command) (payloadLength : nat)
    (lastStatusByte : option Z) (firstHasDeltaTime : bool)
  : list Sized * nat * bool :=
  match cs with
  | [] => ([], payloadLength, firstHasDeltaTime)
  | command :: cs' =>
      let commandDataLength := length (data command) in
      let skip := bool_decide (i = O) && (deltaTime command =? 0) in
      let firstHasDeltaTime := if skip then false else firstHasDeltaTime in
      let len0 := if skip then O else deltaTimeLength (deltaTime command) in
      match data command !! O with
      | None =>
          (* no status byte: the length check fails *)
          let '(r, pl, f) := measure (S i) cs' payloadLength lastStatusByte firstHasDeltaTime in
          (mkSized command 0 false :: r, pl, f)
      | Some commandStatusByte =>
          let expectedDataLength :=
            if commandStatusByte =? 0xf0
            then sysexScan commandDataLength (data command) 0
            else getDataLength commandStatusByte in
          if negb (bool_decide (expectedDataLength + 1 = commandDataLength)%nat)
          then
            let '(r, pl, f) := measure (S i) cs' payloadLength lastStatusByte firstHasDeltaTime in
            (mkSized command 0 false :: r, pl, f)
          else
            let own := negb (bool_decide (Some commandStatusByte = lastStatusByte)) in
            let len := (len0 + expectedDataLength + (if own then 1 else 0))%nat in
            let '(r, pl, f) :=
              measure (S i) cs' (payloadLength + len)%nat
                      (if own then Some commandStatusByte else lastStatusByte)
                      firstHasDeltaTime in
            (mkSized command len own :: r, pl, f)
      end
  end.

(** The second loop, from command number [i] on. *)
Fixpoint emit (i : nat) (cs : list Sized) (firstHasDeltaTime : bool)
    (payload : list Z) (payloadOffset : nat) : option (list Z) :=
  match cs with
  | [] => Some payload
  | c :: cs' =>
      if bool_decide (0 < _length c)%nat
      then
        '(payload, payloadOffset) ←
          (if bool_decide (0 < i)%nat || firstHasDeltaTime
           then writeBytes payload payloadOffset (deltaTimeBytes (deltaTime (cmd c)))
           else Some (payload, payloadOffset));
        let startIndex := if _hasOwnStatusByte c then O else 1%nat in
        let '(payload, payloadOffset) :=
          storeBytes payload payloadOffset (drop startIndex (data (cmd c))) in
        emit (S i) cs' firstHasDeltaTime payload payloadOffset
      else emit (S i) cs' firstHasDeltaTime payload payloadOffset
  end.

(** The payload [generateBuffer] builds: header, then the commands. *)
Definition generatePayload (m : t) : option (list Z) :=
  let '(sized, payloadLength, firstHasDeltaTime) :=
    measure 0 (commands m) 1 None true in
  let length := (payloadLength - 1)%nat in
  let bigLength := bool_decide (15 < length)%nat in
  let payloadLength := if bigLength then S payloadLength else payloadLength in
  let payload := Buffer.alloc payloadLength in
  let bitmask := 0 in
  let bitmask := Z.lor bitmask (if hasJournal m then FLAG_HAS_JOURNAL else 0) in
  let bitmask := Z.lor bitmask (if firstHasDeltaTime then FLAG_FIRST_HAS_DELTA_TIME else 0) in
  let bitmask := Z.lor bitmask (if p m then FLAG_P else 0) in
  let '(bitmask, payload, payloadOffset) :=
    if bigLength
    then (Z.lor (Z.lor bitmask FLAG_BIG_LENGTH)
                (Z.land 0x0f (Z.shiftr (Z.of_nat length) 8)),
          <[1%nat := Z.land 0xff (Z.of_nat length)]> payload,
          1%nat)
    else (Z.lor bitmask (Z.land 0x0f (Z.of_nat length)), payload, O) in
  let payload := <[O := bitmask]> payload in
  let payloadOffset := S payloadOffset in
  emit 0 sized firstHasDeltaTime payload payloadOffset.

(** [for (i = 0; i < csrcs.length && i < 15; i++) writeUInt32BE(...)] *)
Fixpoint writeCsrcs (buffer : list Z) (offset : nat) (cs : list Z)
  : option (list Z * nat) :=
  match cs with
  | [] => Some (buffer, offset)
  | c :: cs' =>
      buffer ← Buffer.writeUInt32BE buffer c offset;
      writeCsrcs buffer (offset + 4)%nat cs'
  end.

(** [RTPMessage.generateBuffer], on a given payload. *)
Definition generateRTP (m : t) (payload : list Z) : option (list Z) :=
  let csrcCount := Nat.min (length (csrcs m)) 15 in
  let bufferLength := (12 + csrcCount * 4)%nat in
  let bufferLength :=
    if hasExtension m
    then (bufferLength + 4 + from_option length O (extension m))%nat
    else bufferLength in
  let payLoadOffset := bufferLength in
  let bufferLength := (bufferLength + length payload)%nat in
  let buffer := Buffer.alloc bufferLength in
  let firstByte := 0 in
  let firstByte := Z.lor firstByte (Z.shiftl (version m) 6) in
  let firstByte := Z.lor firstByte (if padding m then 0x20 else 0) in
  let firstByte := Z.lor firstByte (if hasExtension m then 0x10 else 0) in
  let firstByte := Z.lor firstByte (Z.of_nat csrcCount) in
  let secondByte := Z.lor (payloadType m) (if marker m then 0x80 else 0) in
  buffer ← Buffer.writeUInt8 buffer firstByte 0;
  buffer ← Buffer.writeUInt8 buffer secondByte 1;
  buffer ← Buffer.writeUInt16BE buffer (sequenceNumber m) 2;
  buffer ← Buffer.writeUInt32BE buffer (timestamp m) 4;
  buffer ← Buffer.writeUInt32BE buffer (ssrc m) 8;
  '(buffer, offset) ← writeCsrcs buffer 12 (take 15 (csrcs m));
  buffer ←
    (match hasExtension m, extension m with
     | true, Some ext =>
         let length := Z.of_nat ((length ext + 31) / 32) in
         buffer ← Buffer.writeUInt16BE buffer (Buffer.number (extensionHeaderId m)) offset;
         buffer ← Buffer.writeUInt16BE buffer length (offset + 2);
         Some (Buffer.copy ext buffer (offset + 4))
     | _, _ => Some buffer
     end);
  Some (Buffer.copy payload buffer payLoadOffset).

(** [MidiMessage.generateBuffer]: the bytes left in [this.buffer]. *)
Definition generateBuffer (m : t) : option (list Z) :=
  payload ← generatePayload m;
  generateRTP m payload.

End Encoder.

(** *** The decoder *)

Record ChannelJournal := mkChannelJournal {
  cj_channel : Z;
  cj_s : bool;
  cj_h : bool;
  cj_length : Z;
  cj_presentChapters : Z
}.

Record SystemJournal := mkSystemJournal {
  sj_presentChapters : Z;
  sj_length : Z
}.

(** The journal object of [parseJournal].  The eight (or six) flags of
    [presentChapters] are kept as the bits they are read from. *)
Record Journal := mkJournal {
  singlePacketLoss : bool;
  hasSystemJournal : bool;
  hasChannelJournal : bool;
  enhancedEncoding : bool;
  checkPointPacketSequenceNumber : Z;
  systemJournal : option SystemJournal;
  totalChannels : option Z;
  channelJournals : list ChannelJournal
}.

(** A message after [parseBuffer]: the fields the encoder reads too, and
    the ones only the decoder sets. *)
Record Parsed := mkParsed {
  message : t;
  csrcCount : Z;
  extensionHeaderLength : option Z;
  payload : list Z;
  bigLength : bool;
  firstHasDeltaTime : bool;
  length_ : option Z;
  journalOffset : option nat;
  journal : option Journal
}.

(** [!!(x & mask)] *)
Definition flag (x mask : Z) : bool := negb (Z.land x mask =? 0).

(** [for (i = 0; i < csrcCount; i++) csrcs.push(readUInt32BE(currentOffset))] *)
Fixpoint readCsrcs (buffer : list Z) (n : nat) (currentOffset : nat)
  : option (list Z * nat) :=
  match n with
  | O => Some ([], currentOffset)
  | S n' =>
      c ← Buffer.readUInt32BE buffer currentOffset;
      '(cs, currentOffset) ← readCsrcs buffer n' (currentOffset + 4)%nat;
      Some (c :: cs, currentOffset)
  end.

(** [RTPMessage.parseBuffer].  The offset after the extension is
    [currentOffset + extensionHeaderLength / 32], a fraction in general;
    [slice] truncates its arguments, and the offset is used by [slice]
    only. *)
Definition parseRTP (buffer : list Z) : option Parsed :=
  firstByte ← Buffer.readUInt8 buffer 0;
  let version := Z.shiftr firstByte 6 in
  let padding := flag (Z.shiftr firstByte 5) 1 in
  let hasExtension := flag (Z.shiftr firstByte 4) 1 in
  let csrcCount := Z.land firstByte 0xF in
  secondByte ← Buffer.readUInt8 buffer 1;
  let marker := Z.land secondByte 0x80 =? 0x80 in
  let payloadType := Z.land secondByte 0x7f in
  sequenceNumber ← Buffer.readUInt16BE buffer 2;
  timestamp ← Buffer.readUInt32BE buffer 4;
  ssrc ← Buffer.readUInt32BE buffer 8;
  '(csrcs, currentOffset) ← readCsrcs buffer (Z.to_nat csrcCount) 12;
  '(extensionHeaderId, extensionHeaderLength, extension, currentOffset) ←
    (if hasExtension
     then
       extensionHeaderId ← Buffer.readUInt16BE buffer currentOffset;
       extensionHeaderLength ← Buffer.readUInt16BE buffer (currentOffset + 2);
       let start := (currentOffset + 4)%nat in
       let stop := (start + Z.to_nat (extensionHeaderLength / 32))%nat in
       Some (Some extensionHeaderId, Some extensionHeaderLength,
             Some (take (stop - start) (drop start buffer)), stop)
     else Some (None, None, None, currentOffset));
  let payload := drop currentOffset buffer in
  Some (mkParsed
          (mk version padding hasExtension csrcs marker payloadType sequenceNumber
              timestamp ssrc extensionHeaderId extension false false [] true)
          csrcCount extensionHeaderLength payload false false None None None).

(** The delta-time loop of the decoder, with [k] octets still allowed. *)
Fixpoint readDeltaTime (k : nat) (payload : list Z) (offset : nat) (deltaTime : Z)
  : option (Z * nat) :=
  match k with
  | O => Some (deltaTime, offset)
  | S k' =>
      currentOctet ← Buffer.readUInt8 payload offset;
      let deltaTime := Z.shiftl deltaTime 7 in
      let deltaTime := Z.lor deltaTime (Z.land currentOctet 0x7f) in
      let offset := S offset in
      if negb (flag currentOctet 0x80)
      then Some (deltaTime, offset)
      else readDeltaTime k' payload offset deltaTime
  end.

(** The scan of a SysEx command in the decoder:
    [while (payload.length > offset + dataLength
            && !(payload.readUInt8(offset + dataLength) & 0x80)) dataLength += 1]. *)
Fixpoint sysexLength (fuel : nat) (payload : list Z) (offset dataLength : nat) : nat :=
  match fuel with
  | O => dataLength
  | S fuel' =>
      if bool_decide (offset + dataLength < length payload)%nat
         && negb (flag (default 0 (payload !! (offset + dataLength)%nat)) 0x80)
      then sysexLength fuel' payload offset (S dataLength)
      else dataLength
  end.

(** How the command loop ended: the commands pushed, the offset, the
    [isValid] flag, and whether the loop ran to its end (it returns from
    [parseBuffer] otherwise). *)
Record Scan := mkScan {
  scanned : list Command;
  scanOffset : nat;
  scanValid : bool;
  scanComplete : bool
}.

(** The channel journals: [n] is [totalChannels - channel].  An index
    outside the payload reads [undefined], which the bit operators take
    for 0. *)
Fixpoint parseChannelJournals (n : nat) (payload : list Z) (offset : nat)
  : list ChannelJournal :=
  match n with
  | O => []
  | S n' =>
      if bool_decide (offset < length payload)%nat
      then
        let b0 := default 0 (payload !! offset) in
        let b1 := default 0 (payload !! (offset + 1)%nat) in
        let b2 := default 0 (payload !! (offset + 2)%nat) in
        let cj :=
          mkChannelJournal (Z.land (Z.shiftr b0 3) 0x0f) (flag b0 0x80) (flag b0 0x01)
            (Z.lor (Z.shiftl (Z.land b0 0x3) 8) b1) b2 in
        cj :: parseChannelJournals n' payload (offset + Z.to_nat (cj_length cj))%nat
      else []
  end.

(** [parseJournal()] *)
Definition parseJournal (payload : list Z) (journalOffset : nat) : option Journal :=
  let offset := journalOffset in
  let journalHeader := default 0 (payload !! offset) in
  checkPoint ← Buffer.readUInt16BE payload (offset + 1);
  let offset := (offset + 3)%nat in
  let '(systemJournal, offset) :=
    if flag journalHeader 0x40
    then
      let b0 := default 0 (payload !! offset) in
      let b1 := default 0 (payload !! (offset + 1)%nat) in
      let sj := mkSystemJournal (Z.land b0 0xfc) (Z.lor (Z.shiftl (Z.land b0 0x3) 8) b1) in
      (Some sj, (offset + Z.to_nat (sj_length sj))%nat)
    else (None, offset) in
  let '(totalChannels, channelJournals) :=
    if flag journalHeader 0x20
    then
      let totalChannels := Z.land journalHeader 0x0f + 1 in
      (Some totalChannels, parseChannelJournals (Z.to_nat totalChannels) payload offset)
    else (None, []) in
  Some (mkJournal (flag journalHeader 0x80) (flag journalHeader 0x40)
          (flag journalHeader 0x20) (flag journalHeader 0x10) checkPoint
          systemJournal totalChannels channelJournals).

Section Decoder.

Variable getDataLength : Z → nat.

(** The command loop, [while (offset < this.length + commandStartOffset - 1)],
    with [bound] for the right-hand side.  Every round but the first
    moves the offset forward, and none passes the end of the payload, so
    that [length payload + 2] rounds of [fuel] are never used up. *)
Fixpoint parseCommands (fuel : nat) (payload : list Z) (firstHasDeltaTime : bool)
    (bound : Z) (offset : nat) (lastStatusByte : option Z) (commands : list Command)
  : option Scan :=
  match fuel with
  | O => None
  | S fuel' =>
      if bool_decide (Z.of_nat offset < bound)
      then
        '(deltaTime, offset) ←
          (if negb (bool_decide (commands = [])) || firstHasDeltaTime
           then readDeltaTime 4 payload offset 0
           else Some (0, offset));
        statusByte ← Buffer.readUInt8 payload offset;
        let hasOwnStatusByte := Z.land statusByte 0x80 =? 0x80 in
        let '(statusByte, lastStatusByte, offset) :=
          if hasOwnStatusByte
          then (statusByte, Some statusByte, S offset)
          else match lastStatusByte with
               | Some l => (l, lastStatusByte, offset)
               | None => (statusByte, lastStatusByte, offset)
               end in
        dataLength ←
          (if statusByte =? 0xf0
           then
             let dataLength := sysexLength (length payload) payload offset 0 in
             next ← Buffer.readUInt8 payload (offset + dataLength);
             (* [dataLength -= 1] unless the terminator follows, then
                [dataLength += 1] *)
             Some (if next =? 0xf7 then S dataLength else dataLength)
           else Some (getDataLength statusByte));
        if bool_decide (length payload < offset + dataLength)%nat
        then Some (mkScan commands offset false false)
        else
          let data := statusByte :: take dataLength (drop offset payload) in
          let offset := (offset + dataLength)%nat in
          if (statusByte =? 0xf0) && negb (bool_decide (data !! dataLength = Some 0xf7))
          then Some (mkScan commands offset true false)
          else parseCommands fuel' payload firstHasDeltaTime bound offset lastStatusByte
                 (commands ++ [mkCommand deltaTime data])
      else Some (mkScan commands offset true true)
  end.

(** [MidiMessage.parseBuffer(buffer)]; [None] when a read is out of
    range. *)
Definition parseBuffer (buffer : list Z) : option Parsed :=
  r ← parseRTP buffer;
  let m := message r in
  let payload := payload r in
  if bool_decide (payload = [])
  then
    Some (mkParsed
            (mk (version m) (padding m) (hasExtension m) (csrcs m) (marker m)
                (payloadType m) (sequenceNumber m) (timestamp m) (ssrc m)
                (extensionHeaderId m) (extension m) false false [] false)
            (csrcCount r) (extensionHeaderLength r) payload false false None None None)
  else
    firstByte ← Buffer.readUInt8 payload 0;
    let bigLength := flag firstByte FLAG_BIG_LENGTH in
    let hasJournal := flag firstByte FLAG_HAS_JOURNAL in
    let firstHasDeltaTime := flag firstByte FLAG_FIRST_HAS_DELTA_TIME in
    let p := flag firstByte FLAG_P in
    let len := Z.land firstByte 0x0f in
    len ← (if bigLength
           then b ← Buffer.readUInt8 payload 1; Some (Z.shiftl len 8 + b)
           else Some len);
    let commandStartOffset := if bigLength then 2%nat else 1%nat in
    scan ← parseCommands (length payload + 2) payload firstHasDeltaTime
              (len + Z.of_nat commandStartOffset - 1) commandStartOffset None [];
    let parsed journalOffset journal :=
      mkParsed
        (mk (version m) (padding m) (hasExtension m) (csrcs m) (marker m)
            (payloadType m) (sequenceNumber m) (timestamp m) (ssrc m)
            (extensionHeaderId m) (extension m) hasJournal p (scanned scan)
            (scanValid scan))
        (csrcCount r) (extensionHeaderLength r) payload bigLength firstHasDeltaTime
        (Some len) journalOffset journal in
    if scanComplete scan && hasJournal
    then
      journal ← parseJournal payload (scanOffset scan);
      Some (parsed (Some (scanOffset scan)) (Some journal))
    else Some (parsed None None).

End Decoder.

End MidiMessage.

(** ** What a stream asks of its session and of the outside *)

Record RInfo := mkRInfo { address : string; port : Z }.

Inductive Channel := controlChannel | messageChannel.

(** A datagram handed to [channel.send]. *)
Record Datagram := mkDatagram {
  dg_channel : Channel;
  dg_buffer : list Z;
  dg_port : Z;
  dg_address : string
}.

(** What [Session.sendUdpMessage] uses of a message object: its
    [generateBuffer()] (the bytes it leaves in [buffer], or an exception)
    and its [isValid] flag. *)
Record Sendable := mkSendable {
  generateBuffer : option (list Z);
  isValid : bool
}.

Definition ControlMessage_sendable (h : Heap) (m : ControlMessage.t) : Sendable :=
  mkSendable (ControlMessage.generateBuffer h m) (ControlMessage.isValid m).

Definition MidiMessage_sendable (getDataLength : Z → nat) (m : MidiMessage.t) : Sendable :=
  mkSendable (MidiMessage.generateBuffer getDataLength m) (MidiMessage.isValid m).

(** [Session.sendUdpMessage(rinfo, message)]: the datagrams it sends.  An
    exception of [generateBuffer] escapes; the [TypeError] of reading
    [rinfo.port] when [rinfo] is [null] is caught and logged. *)
Definition sendUdpMessage (rinfo : option RInfo) (message : Sendable)
  : option (list Datagram) :=
  buffer ← generateBuffer message;
  if isValid message
  then
    match rinfo with
    | Some r =>
        let channel :=
          if Z.rem (port r) 2 =? 0 then controlChannel else messageChannel in
        Some [mkDatagram channel buffer (port r) (address r)]
    | None => Some []
    end
  else Some [].

(** The parts of the session and of the environment a stream reads while
    it handles one datagram or one timer: the session's SSRC and name, two
    successive readings of [session.now()], and the two random numbers
    drawn by [generateRandomInteger(4)] and by the constructor. *)
Record Env := mkEnv {
  session_ssrc : Z;
  session_bonjourName : string;
  now : Z;
  now_again : Z;
  randomToken : Z;
  randomSequenceNr : Z
}.

(** ** [src/Stream.js] *)

Module Stream.

(** The state of the clock-sync interval: the fast cadence with its
    counter, or the steady one. *)
Inductive SyncInterval := fast (count : Z) | slow.

(** The fields of a stream.  The three timer handles are kept as the
    state of their timers: the retry interval with its counter and the
    address it invites, the clock-sync interval, and whether the
    receiver-feedback timeout is armed. *)
Record t := mk {
  token : JS.value;
  ssrc : JS.value;
  rinfo1 : option RInfo;
  rinfo2 : option RInfo;
  name : string;
  lastSentSequenceNr : Z;
  firstReceivedSequenceNumber : Z;
  lastReceivedSequenceNumber : Z;
  lostSequenceNumbers : list Z;
  latency : option Z;
  isConnected : bool;
  receiverFeedbackTimeout : bool;
  timeDifference : option Z;
  isInitiator : bool;
  connectionInterval : option (Z * RInfo);
  syncInterval : option SyncInterval
}.

Definition set_token (v : JS.value) (s : t) : t :=
  mk v (ssrc s) (rinfo1 s) (rinfo2 s) (name s) (lastSentSequenceNr s) (firstReceivedSequenceNumber s) (lastReceivedSequenceNumber s) (lostSequenceNumbers s) (latency s) (isConnected s) (receiverFeedbackTimeout s) (timeDifference s) (isInitiator s) (connectionInterval s) (syncInterval s).
Definition set_ssrc (v : JS.value) (s : t) : t :=
  mk (token s) v (rinfo1 s) (rinfo2 s) (name s) (lastSentSequenceNr s) (firstReceivedSequenceNumber s) (lastReceivedSequenceNumber s) (lostSequenceNumbers s) (latency s) (isConnected s) (receiverFeedbackTimeout s) (timeDifference s) (isInitiator s) (connectionInterval s) (syncInterval s).
Definition set_rinfo1 (v : option RInfo) (s : t) : t :=
  mk (token s) (ssrc s) v (rinfo2 s) (name s) (lastSentSequenceNr s) (firstReceivedSequenceNumber s) (lastReceivedSequenceNumber s) (lostSequenceNumbers s) (latency s) (isConnected s) (receiverFeedbackTimeout s) (timeDifference s) (isInitiator s) (connectionInterval s) (syncInterval s).
Definition set_rinfo2 (v : option RInfo) (s : t) : t :=
  mk (token s) (ssrc s) (rinfo1 s) v (name s) (lastSentSequenceNr s) (firstReceivedSequenceNumber s) (lastReceivedSequenceNumber s) (lostSequenceNumbers s) (latency s) (isConnected s) (receiverFeedbackTimeout s) (timeDifference s) (isInitiator s) (connectionInterval s) (syncInterval s).
Definition set_name (v : string) (s : t) : t :=
  mk (token s) (ssrc s) (rinfo1 s) (rinfo2 s) v (lastSentSequenceNr s) (firstReceivedSequenceNumber s) (lastReceivedSequenceNumber s) (lostSequenceNumbers s) (latency s) (isConnected s) (receiverFeedbackTimeout s) (timeDifference s) (isInitiator s) (connectionInterval s) (syncInterval s).
Definition set_lastSentSequenceNr (v : Z) (s : t) : t :=
  mk (token s) (ssrc s) (rinfo1 s) (rinfo2 s) (name s) v (firstReceivedSequenceNumber s) (lastReceivedSequenceNumber s) (lostSequenceNumbers s) (latency s) (isConnected s) (receiverFeedbackTimeout s) (timeDifference s) (isInitiator s) (connectionInterval s) (syncInterval s).
Definition set_firstReceivedSequenceNumber (v : Z) (s : t) : t :=
  mk (token s) (ssrc s) (rinfo1 s) (rinfo2 s) (name s) (lastSentSequenceNr s) v (lastReceivedSequenceNumber s) (lostSequenceNumbers s) (latency s) (isConnected s) (receiverFeedbackTimeout s) (timeDifference s) (isInitiator s) (connectionInterval s) (syncInterval s).
Definition set_lastReceivedSequenceNumber (v : Z) (s : t) : t :=
  mk (token s) (ssrc s) (rinfo1 s) (rinfo2 s) (name s) (lastSentSequenceNr s) (firstReceivedSequenceNumber s) v (lostSequenceNumbers s) (latency s) (isConnected s) (receiverFeedbackTimeout s) (timeDifference s) (isInitiator s) (connectionInterval s) (syncInterval s).
Definition set_lostSequenceNumbers (v : list Z) (s : t) : t :=
  mk (token s) (ssrc s) (rinfo1 s) (rinfo2 s) (name s) (lastSentSequenceNr s) (firstReceivedSequenceNumber s) (lastReceivedSequenceNumber s) v (latency s) (isConnected s) (receiverFeedbackTimeout s) (timeDifference s) (isInitiator s) (connectionInterval s) (syncInterval s).
Definition set_latency (v : option Z) (s : t) : t :=
  mk (token s) (ssrc s) (rinfo1 s) (rinfo2 s) (name s) (lastSentSequenceNr s) (firstReceivedSequenceNumber s) (lastReceivedSequenceNumber s) (lostSequenceNumbers s) v (isConnected s) (receiverFeedbackTimeout s) (timeDifference s) (isInitiator s) (connectionInterval s) (syncInterval s).
Definition set_isConnected (v : bool) (s : t) : t :=
  mk (token s) (ssrc s) (rinfo1 s) (rinfo2 s) (name s) (lastSentSequenceNr s) (firstReceivedSequenceNumber s) (lastReceivedSequenceNumber s) (lostSequenceNumbers s) (latency s) v (receiverFeedbackTimeout s) (timeDifference s) (isInitiator s) (connectionInterval s) (syncInterval s).
Definition set_receiverFeedbackTimeout (v : bool) (s : t) : t :=
  mk (token s) (ssrc s) (rinfo1 s) (rinfo2 s) (name s) (lastSentSequenceNr s) (firstReceivedSequenceNumber s) (lastReceivedSequenceNumber s) (lostSequenceNumbers s) (latency s) (isConnected s) v (timeDifference s) (isInitiator s) (connectionInterval s) (syncInterval s).
Definition set_timeDifference (v : option Z) (s : t) : t :=
  mk (token s) (ssrc s) (rinfo1 s) (rinfo2 s) (name s) (lastSentSequenceNr s) (firstReceivedSequenceNumber s) (lastReceivedSequenceNumber s) (lostSequenceNumbers s) (latency s) (isConnected s) (receiverFeedbackTimeout s) v (isInitiator s) (connectionInterval s) (syncInterval s).
Definition set_isInitiator (v : bool) (s : t) : t :=
  mk (token s) (ssrc s) (rinfo1 s) (rinfo2 s) (name s) (lastSentSequenceNr s) (firstReceivedSequenceNumber s) (lastReceivedSequenceNumber s) (lostSequenceNumbers s) (latency s) (isConnected s) (receiverFeedbackTimeout s) (timeDifference s) v (connectionInterval s) (syncInterval s).
Definition set_connectionInterval (v : option (Z * RInfo)) (s : t) : t :=
  mk (token s) (ssrc s) (rinfo1 s) (rinfo2 s) (name s) (lastSentSequenceNr s) (firstReceivedSequenceNumber s) (lastReceivedSequenceNumber s) (lostSequenceNumbers s) (latency s) (isConnected s) (receiverFeedbackTimeout s) (timeDifference s) (isInitiator s) v (syncInterval s).
Definition set_syncInterval (v : option SyncInterval) (s : t) : t :=
  mk (token s) (ssrc s) (rinfo1 s) (rinfo2 s) (name s) (lastSentSequenceNr s) (firstReceivedSequenceNumber s) (lastReceivedSequenceNumber s) (lostSequenceNumbers s) (latency s) (isConnected s) (receiverFeedbackTimeout s) (timeDifference s) (isInitiator s) (connectionInterval s) v.

Inductive Event :=
| connected
| established
| disconnected
| message_ (messageTime : Z) (data : list Z)
| control_message (m : ControlMessage.t).

(** What a method does besides changing the stream: events it emits,
    datagrams the session sends for it, and asking the session to
    remove it. *)
Inductive Action :=
| Emit (e : Event)
| Send (d : Datagram)
| RemoveStream.

Definition sends (ds : list Datagram) : list Action := Send <$> ds.

(** [new Stream(session)] *)
Definition new (env : Env) : t :=
  mk JS.null JS.null None None EmptyString (randomSequenceNr env) (-1) (-1) []
     None false false None false None None.

Section Methods.

Variable getDataLength : Z → nat.
Variable env : Env.

(** [mixin] on a fresh control message, for the three kinds of
    message built that way. *)
Definition invitationLike (c : ControlMessage.Command) (token : JS.value)
    (name : string) : ControlMessage.t :=
  ControlMessage.mk true ControlMessage.flags_start 2 (Some c) token
    (JS.number (session_ssrc env)) name None None None None None None.

Definition receiverFeedback (sequenceNumber : Z) : ControlMessage.t :=
  ControlMessage.mk true ControlMessage.flags_start 2 (Some receiver_feedback)
    JS.undefined (JS.number (session_ssrc env)) EmptyString
    None None None None None (Some sequenceNumber).

Definition handleMidiMessage (s : t) (message : MidiMessage.t) : t * list Action :=
  let s :=
    if negb (firstReceivedSequenceNumber s =? -1)
    then
      (* for (i = last + 1; i < sequenceNumber; i++) push(i) *)
      set_lostSequenceNumbers
        (lostSequenceNumbers s ++
         seqZ (lastReceivedSequenceNumber s + 1)
              (MidiMessage.sequenceNumber message
               - (lastReceivedSequenceNumber s + 1))) s
    else set_firstReceivedSequenceNumber (MidiMessage.sequenceNumber message) s in
  let s := set_lastReceivedSequenceNumber (MidiMessage.sequenceNumber message) s in
  let messageTime :=
    Buffer.number (timeDifference s) - Buffer.number (latency s)
    + MidiMessage.timestamp message in
  let emits :=
    (fix go (messageTime : Z) (cs : list MidiMessage.Command) : list Action :=
       match cs with
       | [] => []
       | command :: cs' =>
           let messageTime := messageTime + MidiMessage.deltaTime command in
           Emit (message_ messageTime (MidiMessage.data command)) :: go messageTime cs'
       end) messageTime (MidiMessage.commands message) in
  (set_receiverFeedbackTimeout true s, emits).

Definition sendInvitation (h : Heap) (s : t) (rinfo : RInfo) : option (t * list Action) :=
  let s :=
    if negb (JS.truthy (token s))
    then set_token (JS.number (randomToken env)) s
    else s in
  ds ← sendUdpMessage (Some rinfo)
         (ControlMessage_sendable h
            (invitationLike invitation (token s) (session_bonjourName env)));
  Some (s, sends ds).

(** [connect(rinfo)] starts the retry interval. *)
Definition connect (s : t) (rinfo : RInfo) : t :=
  set_connectionInterval (Some (0, rinfo)) (set_isInitiator true s).

(** The retry interval fires. *)
Definition connectionIntervalFires (h : Heap) (s : t) : option (t * list Action) :=
  match connectionInterval s with
  | Some (counter, rinfo) =>
      if (counter <? 40) && JS.strict_eq (ssrc s) JS.null
      then
        '(s, sent) ← sendInvitation h s rinfo;
        Some (set_connectionInterval (Some (counter + 1, rinfo)) s, sent)
      else Some (set_connectionInterval None s, [])
  | None => Some (s, [])
  end.

Definition sendInvitationAccepted (h : Heap) (s : t) (rinfo : RInfo)
  : option (t * list Action) :=
  ds ← sendUdpMessage (Some rinfo)
         (ControlMessage_sendable h
            (invitationLike invitation_accepted (token s) (session_bonjourName env)));
  Some (s, sends ds).

Definition handleInvitationAccepted (h : Heap) (s : t)
    (message : ControlMessage.t) (rinfo : RInfo) : option (t * list Action) :=
  match rinfo1 s with
  | None =>
      let s := set_name (ControlMessage.name message) s in
      let s := set_ssrc (ControlMessage.ssrc message) s in
      let s := set_rinfo1 (Some rinfo) s in
      '(s, sent) ← sendInvitation h s (mkRInfo (address rinfo) (port rinfo + 1));
      let s := set_isConnected true s in
      Some (s, sent ++ [Emit connected])
  | Some _ =>
      match rinfo2 s with
      | None =>
          let s := set_rinfo2 (Some rinfo) s in
          let s := set_syncInterval (Some (fast 0)) s in
          Some (s, [Emit established])
      | Some _ => Some (s, [])
      end
  end.

Definition handleInvitationRejected (s : t) : t * list Action :=
  (set_connectionInterval None s, [RemoveStream]).

Definition handleInvitation (h : Heap) (s : t)
    (message : ControlMessage.t) (rinfo : RInfo) : option (t * list Action) :=
  let '(s, acts) :=
    match rinfo1 s with
    | None =>
        let s := set_rinfo1 (Some rinfo) s in
        let s := set_token (ControlMessage.token message) s in
        let s := set_name (ControlMessage.name message) s in
        let s := set_ssrc (ControlMessage.ssrc message) s in
        (s, [])
    | Some _ =>
        match rinfo2 s with
        | None =>
            let s := set_rinfo2 (Some rinfo) s in
            let s := set_isConnected true s in
            (s, [Emit connected])
        | Some _ => (s, [])
        end
    end in
  '(s, sent) ← sendInvitationAccepted h s rinfo;
  Some (s, acts ++ sent).

Definition handleEnd (s : t) : t * list Action :=
  let s := set_syncInterval None s in
  let s := set_isConnected false s in
  (s, [Emit disconnected]).

Definition handleReceiverFeedback (s : t) : t * list Action := (s, []).

Definition sendReceiverFeedback (h : Heap) (s : t) : option (t * list Action) :=
  ds ← sendUdpMessage (rinfo1 s)
         (ControlMessage_sendable h (receiverFeedback (lastReceivedSequenceNumber s)));
  Some (s, sends ds).

(** The one-shot timer armed by [handleMidiMessage] fires. *)
Definition receiverFeedbackTimeoutFires (h : Heap) (s : t) : option (t * list Action) :=
  if receiverFeedbackTimeout s
  then sendReceiverFeedback h (set_receiverFeedbackTimeout false s)
  else Some (s, []).

(** [sendMessage(message)] with [message = {timestamp, commands}]. *)
Definition sendMessage (s : t) (timestamp : Z) (commands : list MidiMessage.Command)
  : option (t * list Action) :=
  if bool_decide (latency s = None) || bool_decide (timeDifference s = None)
  then Some (s, [])
  else
    let s := set_lastSentSequenceNr (Z.rem (lastSentSequenceNr s + 1) 0x10000) s in
    let midiMessage :=
      MidiMessage.mk 2 false false [] false 0x61 (lastSentSequenceNr s) timestamp
        (session_ssrc env) None None false false commands true in
    ds ← sendUdpMessage (rinfo2 s) (MidiMessage_sendable getDataLength midiMessage);
    Some (s, sends ds).

(** [writeUInt64BE(answer.timestampN, value)]; a missing buffer is a
    [TypeError]. *)
Definition writeTimestamp (h : Heap) (b : option Buf) (value : Z) : option Heap :=
  b ← b; hwriteUInt64BE h b value.

Definition readTimestamp (h : Heap) (b : option Buf) : option Z :=
  b ← b; hreadUInt64BE h b.

(** The condition [if (this.timeDifference)]: [null] and 0 are falsy. *)
Definition truthy (v : option Z) : bool :=
  match v with
  | Some z => negb (z =? 0)
  | None => false
  end.

(** [answer.count < 3], false when the count is NaN. *)
Definition countBelow3 (count : option Z) : bool :=
  match count with
  | Some c => c <? 3
  | None => false
  end.

(** [logSynchronization]: the logger drops the text, but its arguments
    are evaluated, and the reads they make can throw. *)
Definition logSynchronization (h : Heap)
    (incomingSyncMessage : option ControlMessage.t) (answer : ControlMessage.t)
  : option unit :=
  _ ← match incomingSyncMessage with
      | Some m =>
          _ ← readTimestamp h (ControlMessage.timestamp1 m);
          _ ← readTimestamp h (ControlMessage.timestamp2 m);
          _ ← readTimestamp h (ControlMessage.timestamp3 m);
          Some ()
      | None => Some ()
      end;
  if countBelow3 (ControlMessage.count answer)
  then
    _ ← readTimestamp h (ControlMessage.timestamp1 answer);
    _ ← readTimestamp h (ControlMessage.timestamp2 answer);
    _ ← readTimestamp h (ControlMessage.timestamp3 answer);
    Some ()
  else Some ().

(** The body of [sendSynchronization(incomingSyncMessage)], with the
    call [this.sendSynchronization()] of its last line as [again]. *)
Definition sendSynchronizationBody
    (again : Heap → t → option (Heap * t * list Action))
    (now : Z) (h : Heap) (s : t) (incomingSyncMessage : option ControlMessage.t)
  : option (Heap * t * list Action) :=
  let count : option Z :=
    match incomingSyncMessage with
    | Some m => ControlMessage.count m
    | None => Some (-1)
    end in
  (* count !== -1 ? incomingSyncMessage.timestampN : Buffer.alloc(8) *)
  let answerTimestamp (h : Heap) (field : ControlMessage.t → option Buf)
    : Heap * option Buf :=
    if bool_decide (count = Some (-1))
    then let '(h, b) := halloc h 8 in (h, Some b)
    else (h, incomingSyncMessage ≫= field) in
  let '(h, timestamp1) := answerTimestamp h ControlMessage.timestamp1 in
  let '(h, timestamp2) := answerTimestamp h ControlMessage.timestamp2 in
  let '(h, timestamp3) := answerTimestamp h ControlMessage.timestamp3 in
  let answer :=
    ControlMessage.mk true ControlMessage.flags_start 2 (Some synchronization)
      (token s) (JS.number (session_ssrc env)) EmptyString
      ((λ c, c + 1) <$> count) None timestamp1 timestamp2 timestamp3 None in
  '(h, s) ←
    (if bool_decide (count = Some (-1)) then
       h ← writeTimestamp h timestamp1 now;
       h ← writeTimestamp h timestamp2
             (if truthy (timeDifference s)
              then now - Buffer.number (timeDifference s) else 0);
       h ← writeTimestamp h timestamp3
             (if truthy (latency s)
              then now + Buffer.number (latency s) else 0);
       Some (h, s)
     else if bool_decide (count = Some 0) then
       h ← writeTimestamp h timestamp2 now;
       h ← writeTimestamp h timestamp3 (now - Buffer.number (timeDifference s));
       Some (h, s)
     else if bool_decide (count = Some 1) then
       h ← writeTimestamp h timestamp3 now;
       ts3 ← readTimestamp h (incomingSyncMessage ≫= ControlMessage.timestamp3);
       ts1 ← readTimestamp h (incomingSyncMessage ≫= ControlMessage.timestamp1);
       let s := set_latency (Some (ts3 - ts1)) s in
       ts3 ← readTimestamp h (incomingSyncMessage ≫= ControlMessage.timestamp3);
       ts2 ← readTimestamp h (incomingSyncMessage ≫= ControlMessage.timestamp2);
       let s := set_timeDifference (Some ((ts3 - ts2) - Buffer.number (latency s))) s in
       Some (h, s)
     else Some (h, s));
  _ ← logSynchronization h incomingSyncMessage answer;
  if countBelow3 (ControlMessage.count answer)
  then
    ds ← sendUdpMessage (rinfo2 s) (ControlMessage_sendable h answer);
    Some (h, s, sends ds)
  else again h s.

(** [sendSynchronization(incomingSyncMessage)].  The inner call has no
    argument, builds an answer with count 0 and so never calls
    again. *)
Definition sendSynchronization (h : Heap) (s : t)
    (incomingSyncMessage : option ControlMessage.t)
  : option (Heap * t * list Action) :=
  sendSynchronizationBody
    (λ h s, sendSynchronizationBody (λ _ _, None) (now_again env) h s None)
    (now env) h s incomingSyncMessage.

Definition handleSynchronization (h : Heap) (s : t) (message : ControlMessage.t)
  : option (Heap * t * list Action) :=
  sendSynchronization h s (Some message).

(** The clock-sync interval fires. *)
Definition syncIntervalFires (h : Heap) (s : t) : option (Heap * t * list Action) :=
  match syncInterval s with
  | Some (fast count) =>
      '(h, s, acts) ← sendSynchronization h s None;
      let count := count + 1 in
      let s :=
        if (10 <? count) || truthy (timeDifference s)
        then set_syncInterval (Some slow) s
        else set_syncInterval (Some (fast count)) s in
      Some (h, s, acts)
  | Some slow => sendSynchronization h s None
  | None => Some (h, s, [])
  end.

(** [handleControlMessage(message, rinfo)]: the handler is looked up
    by the name of the command ([command.charAt] is a [TypeError] on a
    message without command; [bitrate_receive_limit] has no
    handler). *)
Definition handleControlMessage (h : Heap) (s : t)
    (message : ControlMessage.t) (rinfo : RInfo)
  : option (Heap * t * list Action) :=
  commandName ← ControlMessage.command message;
  '(h, s, acts) ←
    match commandName with
    | invitation =>
        '(s, acts) ← handleInvitation h s message rinfo; Some (h, s, acts)
    | invitation_accepted =>
        '(s, acts) ← handleInvitationAccepted h s message rinfo; Some (h, s, acts)
    | invitation_rejected =>
        let '(s, acts) := handleInvitationRejected s in Some (h, s, acts)
    | end_ =>
        let '(s, acts) := handleEnd s in Some (h, s, acts)
    | synchronization => handleSynchronization h s message
    | receiver_feedback =>
        let '(s, acts) := handleReceiverFeedback s in Some (h, s, acts)
    | bitrate_receive_limit => Some (h, s, [])
    end;
  Some (h, s, acts ++ [Emit (control_message message)]).

(** [sendEndstream(callback)]: the packet carries the name of the
    stream, not the one of the session. *)
Definition sendEndstream (h : Heap) (s : t) : option (t * list Action) :=
  ds ← sendUdpMessage (rinfo1 s)
         (ControlMessage_sendable h (invitationLike end_ (token s) (name s)));
  Some (s, sends ds).

(** [end(callback)], the call itself: both intervals are cleared, and a
    connected stream sends its [end] packet. *)
Definition end' (h : Heap) (s : t) : option (t * list Action) :=
  let s := set_syncInterval None s in
  let s := set_connectionInterval None s in
  if isConnected s then sendEndstream h s else Some (s, []).

(** The callback [end] hands to [sendEndstream], run once the packet has
    been sent: [disconnected] is emitted before the flag is reset. *)
Definition endSent (s : t) : list Action * t :=
  ([Emit disconnected], set_isConnected false s).

End Methods.

End Stream.

(** ** [src/Session.js]: the demultiplexer *)

Module Session.

Record t := mk {
  streams : list Stream.t;
  ssrc : Z;
  bonjourName : string;
  lastMessageTime : Z
}.

(** The events of the session.  [message_] carries the tick values;
    the listener receives the delta divided by the rate and the time
    shifted by the start time. *)
Inductive Event :=
| controlMessage (m : ControlMessage.t)
| streamAdded (stream : Stream.t)
| streamRemoved (stream : Stream.t)
| message_ (deltaTime : Z) (data : list Z) (comexTime : Z)
| midi (m : MidiMessage.t).

(** What the outside sees of the handling of a datagram. *)
Inductive Output :=
| Sent (d : Datagram)
| Emitted (e : Event)
| StreamEmitted (stream : nat) (e : Stream.Event).

(** The state while the actions of the stream at [index] are carried
    out: the stream is [attached] as long as the session still listens
    to it. *)
Record Performing := mkPerforming {
  session : t;
  attached : bool;
  outputs : list Output
}.

(** [removeStream(stream)] for the stream at [index]. *)
Definition removeStream (index : nat) (p : Performing) : Performing :=
  if attached p
  then mkPerforming
         (mk (delete index (streams (session p))) (ssrc (session p))
             (bonjourName (session p)) (lastMessageTime (session p)))
         false (outputs p)
  else p.

(** [deliverMessage(comexTime, message)] *)
Definition deliverMessage (comexTime : Z) (data : list Z) (p : Performing) : Performing :=
  let last :=
    if lastMessageTime (session p) =? 0 then comexTime
    else lastMessageTime (session p) in
  let deltaTime := comexTime - last in
  mkPerforming
    (mk (streams (session p)) (ssrc (session p)) (bonjourName (session p)) comexTime)
    (attached p)
    (outputs p ++ [Emitted (message_ deltaTime data comexTime)]).

Definition output (o : Output) (p : Performing) : Performing :=
  mkPerforming (session p) (attached p) (outputs p ++ [o]).

(** One action of the stream at [index], whose state after the handler
    is [stream]: the listeners the session has put on the stream run at
    once. *)
Definition perform (index : nat) (stream : Stream.t) (p : Performing)
    (a : Stream.Action) : Performing :=
  match a with
  | Stream.Send d => output (Sent d) p
  | Stream.RemoveStream => removeStream index p
  | Stream.Emit e =>
      let p := output (StreamEmitted index e) p in
      if attached p then
        match e with
        | Stream.connected => output (Emitted (streamAdded stream)) p
        | Stream.disconnected =>
            output (Emitted (streamRemoved stream)) (removeStream index p)
        | Stream.message_ messageTime data => deliverMessage messageTime data p
        | _ => p
        end
      else p
  end.

(** The stream at [index] has been changed in place. *)
Definition updateStream (index : nat) (stream : Stream.t) (s : t) : t :=
  mk (<[index := stream]> (streams s)) (ssrc s) (bonjourName s) (lastMessageTime s).

Definition addStream (stream : Stream.t) (s : t) : t :=
  mk (streams s ++ [stream]) (ssrc s) (bonjourName s) (lastMessageTime s).

(** [streams.find(pred)], as the position of the stream found. *)
Fixpoint find (pred : Stream.t → bool) (l : list Stream.t) (i : nat) : option nat :=
  match l with
  | [] => None
  | x :: l' => if pred x then Some i else find pred l' (S i)
  end.

Section HandleMessage.

(** [new MidiMessage().parseBuffer(buffer)], the RTP-MIDI decoder, is
    not embedded: the demultiplexer is stated for any decoder. *)
Variable MidiMessage_parseBuffer : list Z → option MidiMessage.t.

(** The readings of the environment during the call; the SSRC and the
    name are those of the session. *)
Variable now now_again randomToken randomSequenceNr : Z.

Definition envOf (s : t) : Env :=
  mkEnv (ssrc s) (bonjourName s) now now_again randomToken randomSequenceNr.

(** [handleMessage(message, rinfo)]: the session afterwards and what
    went out, or [None] for an exception. *)
Definition handleMessage (s : t) (message : list Z) (rinfo : RInfo)
  : option (t * list Output) :=
  let '(h, buffer) := hreceive [] message in
  appleMidiMessage ← ControlMessage.parseBuffer h buffer;
  if ControlMessage.isValid appleMidiMessage
  then
    let stream :=
      find (λ streamItem,
              JS.strict_eq (Stream.ssrc streamItem) (ControlMessage.ssrc appleMidiMessage)
              || JS.strict_eq (Stream.token streamItem) (ControlMessage.token appleMidiMessage))
           (streams s) 0 in
    let emitted := [Emitted (controlMessage appleMidiMessage)] in
    match stream with
    | None =>
        if bool_decide (ControlMessage.command appleMidiMessage = Some invitation)
        then
          let stream := Stream.new (envOf s) in
          '(_, stream, acts) ←
            Stream.handleControlMessage (envOf s) h stream appleMidiMessage rinfo;
          (* the session does not listen to the new stream yet *)
          let p :=
            foldl (perform (length (streams s)) stream)
                  (mkPerforming s false emitted) acts in
          Some (addStream stream (session p), outputs p)
        else Some (s, emitted)
    | Some index =>
        old ← streams s !! index;
        '(_, stream, acts) ←
          Stream.handleControlMessage (envOf s) h old appleMidiMessage rinfo;
        let p :=
          foldl (perform index stream)
                (mkPerforming (updateStream index stream s) true emitted) acts in
        Some (session p, outputs p)
    end
  else
    rtpMidiMessage ← MidiMessage_parseBuffer message;
    let stream :=
      find (λ streamItem,
              JS.strict_eq (Stream.ssrc streamItem)
                           (JS.number (MidiMessage.ssrc rtpMidiMessage)))
           (streams s) 0 in
    match stream with
    | Some index =>
        old ← streams s !! index;
        let '(stream, acts) := Stream.handleMidiMessage old rtpMidiMessage in
        let p :=
          foldl (perform index stream)
                (mkPerforming (updateStream index stream s) true []) acts in
        Some (session p, outputs p ++ [Emitted (midi rtpMidiMessage)])
    | None => Some (s, [Emitted (midi rtpMidiMessage)])
    end.

End HandleMessage.

(** [handleMessage] with the decoder of [MidiMessage.js] in its place. *)
Definition handleDatagram (getDataLength : Z → nat) (now now_again : Z)
    (randomToken randomSequenceNr : Z) (s : t) (message : list Z) (rinfo : RInfo)
  : option (t * list Output) :=
  handleMessage
    (λ buffer, MidiMessage.message <$> MidiMessage.parseBuffer getDataLength buffer)
    now now_again randomToken randomSequenceNr s message rinfo.

(** [getStreams()] *)
Definition getStreams (s : t) : list Stream.t :=
  List.filter Stream.isConnected (streams s).

(** An entry of the queue: [{comexTime, data}]. *)
Record Queued := mkQueued { comexTime : Z; data : list Z }.

(** The session with the fields of its send queue. *)
Record Sending := mkSending {
  sender : t;
  queue : list Queued;
  flushQueued : bool;
  bundle : bool;
  startTime : Z
}.

(** [queue.sort((a, b) => a.comexTime - b.comexTime)].  The sort of the
    language is stable, which fixes its result; it is written here as an
    insertion sort. *)
Fixpoint insertByTime (x : Queued) (l : list Queued) : list Queued :=
  match l with
  | [] => [x]
  | y :: l' =>
      if comexTime x <=? comexTime y then x :: l else y :: insertByTime x l'
  end.

Definition sortByTime (l : list Queued) : list Queued := foldr insertByTime [] l.

(** The commands of the message [flushQueue] builds from a sorted
    queue: each entry with [deltaTime = comexTime - messageTime]. *)
Definition flushCommands (now : Z) (sorted : list Queued) : list MidiMessage.Command :=
  match sorted with
  | [] => []
  | first :: _ =>
      let messageTime := comexTime first in
      let messageTime := if now <? messageTime then now else messageTime in
      (λ message, MidiMessage.mkCommand (comexTime message - messageTime) (data message))
        <$> sorted
  end.

Section Calls.

Variable getDataLength : Z → nat.
Variable now now_again randomToken randomSequenceNr : Z.

(** [for (const stream of streams) stream.sendMessage(message)], over the
    connected streams; the streams are changed in place. *)
Fixpoint sendToStreams (s : t) (l : list Stream.t) (timestamp : Z)
    (commands : list MidiMessage.Command) : option (list Stream.t * list Output) :=
  match l with
  | [] => Some ([], [])
  | stream :: l' =>
      if Stream.isConnected stream
      then
        '(stream, acts) ←
          Stream.sendMessage getDataLength
            (envOf now now_again randomToken randomSequenceNr s) stream timestamp commands;
        '(l', out) ← sendToStreams s l' timestamp commands;
        Some (stream :: l',
              omap (λ a, match a with Stream.Send d => Some (Sent d) | _ => None end) acts
              ++ out)
      else
        '(l', out) ← sendToStreams s l' timestamp commands;
        Some (stream :: l', out)
  end.

(** [flushQueue()] *)
Definition flushQueue (q : Sending) : option (Sending * list Output) :=
  let s := sender q in
  let queue := queue q in
  if bool_decide (queue = [])
  then Some (mkSending s [] false (bundle q) (startTime q), [])
  else
    let commands := flushCommands now (sortByTime queue) in
    '(streams, out) ← sendToStreams s (streams s) now commands;
    Some (mkSending (mk streams (ssrc s) (bonjourName s) (lastMessageTime s))
            [] false (bundle q) (startTime q),
          out).

(** [queueFlush()]: with [bundle] the flush is left to [setImmediate],
    and [flushQueued] says that it is pending. *)
Definition queueFlush (q : Sending) : option (Sending * list Output) :=
  if bundle q
  then Some (mkSending (sender q) (queue q) true (bundle q) (startTime q), [])
  else flushQueue q.

(** [sendMessage(command)] and [sendMessage(comexTime, command)] *)
Definition sendMessage (comexTime : option Z) (command : list Z) (q : Sending)
  : option (Sending * list Output) :=
  let cTime :=
    match comexTime with
    | None => now
    | Some comexTime => comexTime - startTime q
    end in
  queueFlush (mkSending (sender q) (queue q ++ [mkQueued cTime command])
                (flushQueued q) (bundle q) (startTime q)).

(** The function [next] in the body of [end(callback)], which runs when
    [readyState] is 2; [i] is the index it looks at, after its
    [i += 1].  It is called again by every stream that has ended.  The
    result says whether the sockets were closed.  A stream that is
    connected sends its packet; [disconnected] makes the session drop it
    from [streams]; when nothing was sent the callback never runs. *)
Fixpoint next (fuel : nat) (i : nat) (s : t) (out : list Output)
  : option (t * list Output * bool) :=
  match fuel with
  | O => None
  | S fuel' =>
      match streams s !! i with
      | Some stream =>
          '(stream, acts) ←
            Stream.end' (envOf now now_again randomToken randomSequenceNr s) [] stream;
          let p :=
            foldl (perform i stream) (mkPerforming (updateStream i stream s) true out)
                  acts in
          if Stream.isConnected stream
          then
            if bool_decide (acts = [])
            then Some (session p, outputs p, false)
            else
              let '(acts, _) := Stream.endSent stream in
              let p := foldl (perform i stream) p acts in
              next fuel' (S i) (session p) (outputs p)
          else next fuel' (S i) (session p) (outputs p)
      | None => Some (s, out, true)
      end
  end.

(** [end(callback)] with [readyState = 2].  The index goes up by one in
    each round, so that [length streams + 1] rounds are enough. *)
Definition end' (s : t) : option (t * list Output * bool) :=
  next (S (length (streams s))) 0 s [].

End Calls.

End Session.

(** ** [src/MTC.js] *)

Module MTC.

Record t := mk {
  hours : Z;
  minutes : Z;
  seconds : Z;
  frames : Z;
  type : Z;
  songPosition : Z
}.

(** [new MTC()] *)
Definition new : t := mk 0 0 0 0 0 0.

(** [message[i]] where a bit operator is applied to it: an index outside
    the buffer reads [undefined], which the operator takes for 0. *)
Definition byte (message : list Z) (i : nat) : Z := default 0 (message !! i).

(** [applySongPosition(message)]; the flag says whether [change] was
    emitted. *)
Definition applySongPosition (m : t) (message : list Z) : t * bool :=
  let before := songPosition m in
  let songPosition := byte message 2 in
  let songPosition := Z.shiftl songPosition 7 in
  let songPosition := Z.lor songPosition (byte message 1) in
  (mk (hours m) (minutes m) (seconds m) (frames m) (type m) songPosition,
   negb (songPosition =? before)).

(** [applyQuarterTime(message)] *)
Definition applyQuarterTime (m : t) (message : list Z) : t * bool :=
  let quarterTime := byte message 1 in
  let type_ := Z.land (Z.shiftr quarterTime 4) 0x7 in
  let nibble := Z.land quarterTime 0x0f in
  let '(nibble, operator) :=
    if type_ mod 2 =? 0 then (nibble, 0xf0) else (Z.shiftl nibble 4, 0x0f) in
  if (type_ =? 0) || (type_ =? 1) then
    (mk (hours m) (minutes m) (seconds m) (Z.lor (Z.land (frames m) operator) nibble)
        (type m) (songPosition m), false)
  else if (type_ =? 2) || (type_ =? 3) then
    (mk (hours m) (minutes m) (Z.lor (Z.land (seconds m) operator) nibble) (frames m)
        (type m) (songPosition m), false)
  else if (type_ =? 4) || (type_ =? 5) then
    (mk (hours m) (Z.lor (Z.land (minutes m) operator) nibble) (seconds m) (frames m)
        (type m) (songPosition m), false)
  else if type_ =? 6 then
    (mk (Z.lor (Z.land (hours m) operator) nibble) (minutes m) (seconds m) (frames m)
        (type m) (songPosition m), false)
  else if type_ =? 7 then
    let type' := Z.land (Z.shiftr nibble 5) 0x3 in
    let nibble := Z.land nibble 0x10 in
    (mk (Z.lor (Z.land (hours m) operator) nibble) (minutes m) (seconds m) (frames m)
        type' (songPosition m), true)
  else (m, false).

End MTC.

(** ** Vocabulary of the statements *)

(** A window lies inside its block. *)
Definition valid (h : Heap) (b : Buf) : Prop :=
  ∃ blk, h !! base b = Some blk ∧ (off b + len b ≤ length blk)%nat.

(** Two windows share no byte. *)
Definition disjoint (b b' : Buf) : Prop :=
  base b ≠ base b' ∨ (off b' + len b' ≤ off b)%nat ∨ (off b + len b ≤ off b')%nat.

(** A value that fits an unsigned 32-bit field. *)
Definition fits32 (v : Z) : Prop := 0 ≤ v < 4294967296.

(** The states a stream goes through: created by its session, then
    driven by control messages, MIDI messages, its timers, and the calls
    [connect] and [sendMessage] of its session. *)
Inductive reachable : Stream.t → Prop :=
| reach_new env : reachable (Stream.new env)
| reach_connect s rinfo :
    reachable s → reachable (Stream.connect s rinfo)
| reach_retry env h s s' acts :
    reachable s →
    Stream.connectionIntervalFires env h s = Some (s', acts) → reachable s'
| reach_control env h s m rinfo h' s' acts :
    reachable s →
    Stream.handleControlMessage env h s m rinfo = Some (h', s', acts) → reachable s'
| reach_midi s m :
    reachable s → reachable (Stream.handleMidiMessage s m).1
| reach_sync env h s h' s' acts :
    reachable s →
    Stream.syncIntervalFires env h s = Some (h', s', acts) → reachable s'
| reach_feedback env h s s' acts :
    reachable s →
    Stream.receiverFeedbackTimeoutFires env h s = Some (s', acts) → reachable s'
| reach_send getDataLength env s timestamp commands s' acts :
    reachable s →
    Stream.sendMessage getDataLength env s timestamp commands = Some (s', acts) →
    reachable s'.

(** The fields of a stream that clock synchronization leaves alone. *)
Definition sameConnection (s s' : Stream.t) : Prop :=
  Stream.token s' = Stream.token s ∧ Stream.ssrc s' = Stream.ssrc s
  ∧ Stream.rinfo1 s' = Stream.rinfo1 s ∧ Stream.rinfo2 s' = Stream.rinfo2 s
  ∧ Stream.isConnected s' = Stream.isConnected s
  ∧ Stream.lostSequenceNumbers s' = Stream.lostSequenceNumbers s
  ∧ Stream.lastReceivedSequenceNumber s' = Stream.lastReceivedSequenceNumber s.

(** The commands whose packet carries the version, the token, the SSRC
    and the name. *)
Definition namedCommand (c : ControlMessage.Command) : Prop :=
  c = invitation ∨ c = invitation_accepted ∨ c = invitation_rejected ∨ c = end_.

(** A timestamp field holds a buffer of eight bytes. *)
Definition timestampField (h : Heap) (field : option Buf) : Prop :=
  ∃ b bs, field = Some b ∧ contents h b = Some bs ∧ length bs = 8%nat.

(** A control message of a command that has an encoder, whose magic is
    0xFFFF and whose command-specific fields are set and fit their place
    in the packet. *)
Definition wellFormed (h : Heap) (c : ControlMessage.t) : Prop :=
  ControlMessage.start c = 0xFFFF
  ∧ match ControlMessage.command c with
    | Some invitation | Some invitation_accepted
    | Some invitation_rejected | Some end_ =>
        fits32 (ControlMessage.version c)
        ∧ (∃ t, ControlMessage.token c = JS.number t ∧ fits32 t)
        ∧ (∃ x, ControlMessage.ssrc c = JS.number x ∧ fits32 x)
    | Some synchronization =>
        (∃ x, ControlMessage.ssrc c = JS.number x ∧ fits32 x)
        ∧ (∃ n, ControlMessage.count c = Some n ∧ 0 ≤ n ≤ 255)
        ∧ (∃ p, ControlMessage.padding c = Some p ∧ 0 ≤ p < 16777216)
        ∧ timestampField h (ControlMessage.timestamp1 c)
        ∧ timestampField h (ControlMessage.timestamp2 c)
        ∧ timestampField h (ControlMessage.timestamp3 c)
    | Some receiver_feedback =>
        (∃ x, ControlMessage.ssrc c = JS.number x ∧ fits32 x)
        ∧ (∃ q, ControlMessage.sequenceNumber c = Some q ∧ 0 ≤ q ≤ 65535)
    | _ => False
    end.

(** The message [c'] (with its buffers in [h']) has the command and the
    numeric command-specific fields of [c] (with its buffers in [h]); the
    timestamps are compared by their bytes. *)
Definition restored (h : Heap) (c : ControlMessage.t)
    (h' : Heap) (c' : ControlMessage.t) : Prop :=
  ControlMessage.isValid c' = true
  ∧ ControlMessage.command c' = ControlMessage.command c
  ∧ match ControlMessage.command c with
    | Some invitation | Some invitation_accepted
    | Some invitation_rejected | Some end_ =>
        ControlMessage.version c' = ControlMessage.version c
        ∧ ControlMessage.token c' = ControlMessage.token c
        ∧ ControlMessage.ssrc c' = ControlMessage.ssrc c
    | Some synchronization =>
        ControlMessage.ssrc c' = ControlMessage.ssrc c
        ∧ ControlMessage.count c' = ControlMessage.count c
        ∧ ControlMessage.padding c' = ControlMessage.padding c
        ∧ ControlMessage.timestamp1 c' ≫= contents h'
          = ControlMessage.timestamp1 c ≫= contents h
        ∧ ControlMessage.timestamp2 c' ≫= contents h'
          = ControlMessage.timestamp2 c ≫= contents h
        ∧ ControlMessage.timestamp3 c' ≫= contents h'
          = ControlMessage.timestamp3 c ≫= contents h
    | Some receiver_feedback =>
        ControlMessage.ssrc c' = ControlMessage.ssrc c
        ∧ ControlMessage.sequenceNumber c' = ControlMessage.sequenceNumber c
    | _ => True
    end.

(** The fields by which the session finds the stream of a control
    message are [null] or numbers in every stream. *)
Definition definedKeys (st : Stream.t) : Prop :=
  Stream.ssrc st ≠ JS.undefined ∧ Stream.token st ≠ JS.undefined.

(** The value of a delta-time as the decoder of [MidiMessage.parseBuffer]
    reads it: [deltaTime <<= 7; deltaTime |= octet & 0x7f] for each
    byte. *)
Definition varintValue (bytes : list Z) : Z :=
  foldl (λ acc b, Z.lor (Z.shiftl acc 7) (Z.land b 0x7f)) 0 bytes.

(** One step of a stream: a control or MIDI message handled, a timer
    fired, or a call of [connect], [sendMessage] or [end] with its
    callback. *)
Inductive transition : Stream.t → Stream.t → Prop :=
| step_connect s rinfo : transition s (Stream.connect s rinfo)
| step_retry env h s s' acts :
    Stream.connectionIntervalFires env h s = Some (s', acts) → transition s s'
| step_control env h s m rinfo h' s' acts :
    Stream.handleControlMessage env h s m rinfo = Some (h', s', acts) → transition s s'
| step_midi s m : transition s (Stream.handleMidiMessage s m).1
| step_sync env h s h' s' acts :
    Stream.syncIntervalFires env h s = Some (h', s', acts) → transition s s'
| step_feedback env h s s' acts :
    Stream.receiverFeedbackTimeoutFires env h s = Some (s', acts) → transition s s'
| step_send getDataLength env s timestamp commands s' acts :
    Stream.sendMessage getDataLength env s timestamp commands = Some (s', acts) →
    transition s s'
| step_end env h s s' acts :
    Stream.end' env h s = Some (s', acts) → transition s s'
| step_endSent s : transition s (Stream.endSent s).2.

(** A run of a stream: any number of steps. *)
Inductive run : Stream.t → Stream.t → Prop :=
| run_done s : run s s
| run_step s1 s2 s3 : transition s1 s2 → run s2 s3 → run s1 s3.

(** The datagrams of a list of actions that only sends, all to [r]. *)
Definition sentTo (r : option RInfo) (acts : list Stream.Action) : Prop :=
  acts = []
  ∨ ∃ d r', acts = [Stream.Send d] ∧ r = Some r'
            ∧ dg_port d = port r' ∧ dg_address d = address r'.

(** The octets of a datagram. *)
Definition octets (bs : list Z) : Prop := Forall (λ b, 0 ≤ b ≤ 255) bs.

(** The stream a control message is for: the first one with its SSRC
    or its token. *)
Definition streamOf (m : ControlMessage.t) (l : list Stream.t) : option nat :=
  Session.find
    (λ streamItem,
       JS.strict_eq (Stream.ssrc streamItem) (ControlMessage.ssrc m)
       || JS.strict_eq (Stream.token streamItem) (ControlMessage.token m)) l 0.

(** The message [Stream.sendMessage] builds from [{timestamp, commands}]. *)
Definition outgoing (sequenceNumber timestamp ssrc : Z)
    (commands : list MidiMessage.Command) : MidiMessage.t :=
  MidiMessage.mk 2 false false [] false 0x61 sequenceNumber timestamp ssrc
    None None false false commands true.

(** The four octets of a 32-bit field, and the two of a 16-bit one. *)
Definition be32 (v : Z) : list Z :=
  [v / 16777216; (v / 65536) mod 256; (v / 256) mod 256; v mod 256].

Definition be16 (v : Z) : list Z := [v / 256; v mod 256].

(** The retry interval of [connect] fires [n] times in a row. *)
Fixpoint connectionIntervalRuns (env : Env) (h : Heap) (n : nat) (s : Stream.t)
  : option (Stream.t * list Stream.Action) :=
  match n with
  | O => Some (s, [])
  | S n' =>
      '(s, sent) ← connectionIntervalRuns env h n' s;
      '(s, sent') ← Stream.connectionIntervalFires env h s;
      Some (s, sent ++ sent')
  end.

(** The sum of the delta-times of the commands. *)
Definition totalDelta (cs : list MidiMessage.Command) : Z :=
  foldr Z.add 0 (MidiMessage.deltaTime <$> cs).

(** A message [RTPMessage.generateBuffer] can write: without CSRC and
    extension, every field within the width of its place in the
    header. *)
Definition plainRTP (m : MidiMessage.t) : Prop :=
  MidiMessage.csrcs m = [] ∧ MidiMessage.hasExtension m = false
  ∧ 0 ≤ MidiMessage.version m ≤ 3 ∧ 0 ≤ MidiMessage.payloadType m ≤ 127
  ∧ 0 ≤ MidiMessage.sequenceNumber m ≤ 65535
  ∧ fits32 (MidiMessage.timestamp m) ∧ fits32 (MidiMessage.ssrc m).

(** The stream a MIDI message is for: the first one with its SSRC. *)
Definition streamOfMidi (ssrc : Z) (l : list Stream.t) : option nat :=
  Session.find (λ streamItem, JS.strict_eq (Stream.ssrc streamItem) (JS.number ssrc)) l 0.


(** A stream that [Session.flushQueue] skips or that drops what it is
    given: not connected, or its clock not synchronized yet. *)
Definition notReady (st : Stream.t) : Prop :=
  Stream.isConnected st = false ∨ Stream.latency st = None
  ∨ Stream.timeDifference st = None.

(** Every second element of a list, from the second one on. *)
Fixpoint alternate {A} (l : list A) : list A :=
  match l with
  | _ :: y :: l' => y :: alternate l'
  | _ => []
  end.

(** A stream that can say goodbye: connected, with the control address
    of its peer, and with a token that fits its field. *)
Definition canEnd (st : Stream.t) : Prop :=
  Stream.isConnected st = true ∧ Stream.rinfo1 st ≠ None
  ∧ fits32 (JS.to_number (Stream.token st)).

(** The eight quarter-frame messages of a time code, in the order of
    their piece numbers; each argument is a nibble. *)
Definition quarterFrames (f0 f1 s0 s1 m0 m1 h0 h1 : Z) : list (list Z) :=
  [[0xf1; 0x00 + f0]; [0xf1; 0x10 + f1]; [0xf1; 0x20 + s0]; [0xf1; 0x30 + s1];
   [0xf1; 0x40 + m0]; [0xf1; 0x50 + m1]; [0xf1; 0x60 + h0]; [0xf1; 0x70 + h1]].

(** The time code after the messages, and the number of [change]
    events. *)
Definition applyQuarterTimes (m : MTC.t) (messages : list (list Z)) : MTC.t * nat :=
  foldl (λ '(m, changes) message,
           let '(m, change) := MTC.applyQuarterTime m message in
           (m, if change then S changes else changes))
        (m, O) messages.

(** ** Sample inputs *)

Definition sample_env : Env := mkEnv 0x01020304 "A" 1010 1020 0xAABBCCDD 7.

(** The stream after the packets 10 and 11. *)
Definition after_10_11 : Stream.t :=
  (Stream.handleMidiMessage
     (Stream.handleMidiMessage (Stream.new sample_env)
        (MidiMessage.mk 2 false false [] false 0x61 10 0 5 None None false false [] true)).1
     (MidiMessage.mk 2 false false [] false 0x61 11 0 5 None None false false [] true)).1.

Definition packet_15 : MidiMessage.t :=
  MidiMessage.mk 2 false false [] false 0x61 15 0 5 None None false false [] true.

(** The stream after the packets 65534 and 65535, and the packet 0 that
    follows when the counter wraps. *)
Definition after_65535 : Stream.t :=
  (Stream.handleMidiMessage
     (Stream.handleMidiMessage (Stream.new sample_env)
        (MidiMessage.mk 2 false false [] false 0x61 65534 0 5 None None false false [] true)).1
     (MidiMessage.mk 2 false false [] false 0x61 65535 0 5 None None false false [] true)).1.

Definition packet_0 : MidiMessage.t :=
  MidiMessage.mk 2 false false [] false 0x61 0 0 5 None None false false [] true.

Definition sample_peer : RInfo := mkRInfo "10.0.0.2" 5004.

(** A stream that has lost the packets 12, 13 and 14 and waits for its
    receiver-feedback timeout. *)
Definition lossy_stream : Stream.t :=
  Stream.set_rinfo1 (Some sample_peer)
    (Stream.handleMidiMessage after_10_11 packet_15).1.

(** The length table of the channel voice messages, enough for the
    sample packets: one data byte after program change and channel
    pressure, two after the other channel messages. *)
Definition sample_getDataLength (status : Z) : nat :=
  if (Z.land status 0xf0 =? 0xc0) || (Z.land status 0xf0 =? 0xd0) then 1%nat
  else if status <? 0xf0 then 2%nat
  else 0%nat.

Definition packet_with_delta (deltaTime : Z) : MidiMessage.t :=
  MidiMessage.mk 2 false false [] false 0x61 1 50000 0x11223344 None None false false
    [MidiMessage.mkCommand 0 [0x90; 60; 127];
     MidiMessage.mkCommand deltaTime [0x80; 60; 0]] true.

(** The invitation of scenario 1 and its acceptance, as parsed. *)
Definition invitation_from_peer : ControlMessage.t :=
  ControlMessage.mk true 0xFFFF 2 (Some invitation) (JS.number 0xAABBCCDD)
    (JS.number 0x05060708) "B" None None None None None None.

Definition acceptance_from_peer : ControlMessage.t :=
  ControlMessage.mk true 0xFFFF 2 (Some invitation_accepted) (JS.number 0xAABBCCDD)
    (JS.number 0x05060708) "B" None None None None None None.

(** The stream of an initiator that has called [connect] and sent its
    first invitation. *)
Definition inviting_stream : Stream.t :=
  match Stream.connectionIntervalFires sample_env []
          (Stream.connect (Stream.new sample_env) sample_peer) with
  | Some (s, _) => s
  | None => Stream.new sample_env
  end.

(** The stream of an acceptor after the invitation on the control
    channel. *)
Definition half_open_stream : Stream.t :=
  match Stream.handleControlMessage sample_env [] (Stream.new sample_env)
          invitation_from_peer sample_peer with
  | Some (_, s, _) => s
  | None => Stream.new sample_env
  end.

(** A session with one connected stream. *)
Definition sample_session : Session.t :=
  Session.mk
    [match Stream.handleControlMessage sample_env [] half_open_stream
             invitation_from_peer (mkRInfo "10.0.0.2" 5005) with
     | Some (_, s, _) => s
     | None => half_open_stream
     end]
    0x01020304 "A" 0.

(** The stream of an acceptor after the invitation on the data channel. *)
Definition connected_stream : Stream.t :=
  match Stream.handleControlMessage sample_env [] half_open_stream
          invitation_from_peer (mkRInfo "10.0.0.2" 5005) with
  | Some (_, s, _) => s
  | None => half_open_stream
  end.

(** The datagram of a synchronization message with count 1 and the
    timestamps 1000, 5000 and [ts3] (below 256), and the message it is
    parsed to: its timestamps are windows on the datagram. *)
Definition count1_datagram (ts3 : Z) : list Z :=
  [0xFF; 0xFF; 0x43; 0x4B; 5; 6; 7; 8; 1; 0; 0; 0;
   0; 0; 0; 0; 0; 0; 3; 232;
   0; 0; 0; 0; 0; 0; 19; 136;
   0; 0; 0; 0; 0; 0; ts3 / 256; ts3 mod 256].

Definition count1_message : ControlMessage.t :=
  ControlMessage.mk true 0xFFFF 2 (Some synchronization) JS.undefined
    (JS.number 0x05060708) EmptyString (Some 1) (Some 0)
    (Some (mkBuf 0 12 8)) (Some (mkBuf 0 20 8)) (Some (mkBuf 0 28 8)) None.

(** The same with count 2 and the third timestamp 1010. *)
Definition count2_datagram : list Z :=
  [0xFF; 0xFF; 0x43; 0x4B; 5; 6; 7; 8; 2; 0; 0; 0;
   0; 0; 0; 0; 0; 0; 3; 232;
   0; 0; 0; 0; 0; 0; 19; 136;
   0; 0; 0; 0; 0; 0; 3; 242].

Definition count2_message : ControlMessage.t :=
  ControlMessage.mk true 0xFFFF 2 (Some synchronization) JS.undefined
    (JS.number 0x05060708) EmptyString (Some 2) (Some 0)
    (Some (mkBuf 0 12 8)) (Some (mkBuf 0 20 8)) (Some (mkBuf 0 28 8)) None.

(** A message of the command that has no encoder. *)
Definition bitrate_message : ControlMessage.t :=
  ControlMessage.mk true 0xFFFF 2 (Some bitrate_receive_limit) JS.undefined
    (JS.number 0x05060708) EmptyString None None None None None None.

(** The environment when the local clock reads 2000. *)
Definition late_env : Env := mkEnv 0x01020304 "A" 2000 2010 0xAABBCCDD 7.

(** The invitation of scenario 1 as a datagram, and a goodbye and a
    rejection from the same peer. *)
Definition invitation_datagram : list Z :=
  [0xFF; 0xFF; 0x49; 0x4E; 0; 0; 0; 2; 0xAA; 0xBB; 0xCC; 0xDD; 5; 6; 7; 8; 66; 0].

Definition end_datagram : list Z :=
  [0xFF; 0xFF; 0x42; 0x59; 0; 0; 0; 2; 0xAA; 0xBB; 0xCC; 0xDD; 5; 6; 7; 8; 0].

Definition rejection_datagram : list Z :=
  [0xFF; 0xFF; 0x4E; 0x4F; 0; 0; 0; 2; 0xAA; 0xBB; 0xCC; 0xDD; 5; 6; 7; 8; 0].

(** A session without streams. *)
Definition empty_session : Session.t := Session.mk [] 0x01020304 "A" 0.

(** A stream whose clock is synchronized, ready to send. *)
Definition synced_stream : Stream.t :=
  Stream.set_timeDifference (Some (-4000)) (Stream.set_latency (Some 10) connected_stream).

(** A session that has queued a note for a stream that is still
    connecting. *)
Definition early_sender : Session.Sending :=
  Session.mkSending (Session.mk [half_open_stream] 0x01020304 "A" 0)
    [Session.mkQueued 120 [0x90; 60; 127]] true true 0.

(** A session with three connected streams. *)
Definition busy_session : Session.t :=
  Session.mk
    [connected_stream;
     Stream.set_name "C" connected_stream;
     Stream.set_name "D" connected_stream]
    0x01020304 "A" 0.

(** * Properties *)

(** ** The hexadecimal text of a number and [parseInt] *)

Lemma hex_val_hex_char d : 0 ≤ d < 16 → hex_val (hex_char d) = Some d.
Proof.
  intros Hd. rewrite <- (Z2Nat.id d) by lia.
  assert (Hn : (Z.to_nat d < 16)%nat) by lia.
  generalize dependent (Z.to_nat d). clear Hd. intros n Hn.
  do 16 (destruct n as [|n]; [reflexivity|]). lia.
Qed.

Lemma parse_digits_hex_digits fuel : ∀ n acc st,
  (0 < fuel)%nat →
  0 ≤ n < 16 ^ Z.of_nat fuel →
  ∃ k : nat, (1 ≤ k ≤ fuel)%nat ∧ (k = 1%nat ∨ 16 ^ (Z.of_nat k - 1) ≤ n) ∧
    String.length (hex_digits fuel n acc) = (k + String.length acc)%nat ∧
    parse_digits (hex_digits fuel n acc) st
    = parse_digits acc (Some (16 ^ Z.of_nat k * default 0 st + n)).
Proof.
  induction fuel as [|fuel IH]; intros n acc st Hfuel Hn; [lia|].
  simpl hex_digits. destruct (n <? 16) eqn:Hlt.
  - apply Z.ltb_lt in Hlt. exists 1%nat.
    split; [lia|]. split; [by left|]. split; [reflexivity|].
    simpl. rewrite hex_val_hex_char by lia. f_equal.
  - apply Z.ltb_ge in Hlt.
    assert (Hq : 0 ≤ n / 16 < 16 ^ Z.of_nat fuel).
    { split; [apply Z.div_pos; lia|].
      apply Z.div_lt_upper_bound; [lia|].
      replace (16 * 16 ^ Z.of_nat fuel) with (16 ^ Z.of_nat (S fuel)); [lia|].
      rewrite Nat2Z.inj_succ, Z.pow_succ_r; lia. }
    assert (Hpos : (0 < fuel)%nat).
    { destruct fuel; [|lia]. simpl in Hq.
      pose proof (Z.div_le_mono 16 n 16 ltac:(lia) Hlt) as Hd.
      rewrite Z.div_same in Hd; lia. }
    destruct (IH (n / 16) (String (hex_char (n mod 16)) acc) st Hpos Hq)
      as (k & Hk & Hlow & Hlen & Hparse).
    exists (S k). split; [lia|]. split; [|split].
    + right. replace (Z.of_nat (S k) - 1) with (Z.succ (Z.of_nat k - 1)) by lia.
      rewrite Z.pow_succ_r by lia.
      destruct Hlow as [-> | Hlow]; [simpl; lia|].
      pose proof (Z.mul_div_le n 16). lia.
    + rewrite Hlen. simpl. lia.
    + rewrite Hparse. simpl.
      rewrite hex_val_hex_char by (apply Z.mod_pos_bound; lia).
      f_equal. f_equal. simpl default.
      rewrite Nat2Z.inj_succ, Z.pow_succ_r by lia.
      pose proof (Z.div_mod n 16). lia.
Qed.

Lemma string_length_append s1 s2 :
  String.length (String.append s1 s2) = (String.length s1 + String.length s2)%nat.
Proof. induction s1 as [|c s1 IH]; simpl; [done | by rewrite IH]. Qed.

Lemma string_length_zeros n : String.length (zeros n) = n.
Proof. induction n as [|n IH]; simpl; [done | by rewrite IH]. Qed.

Lemma substring_zeros a : ∀ j m s,
  String.substring a m (String.append (zeros (a + j)) s)
  = String.substring 0 m (String.append (zeros j) s).
Proof. induction a as [|a IH]; intros j m s; simpl; [done | apply IH]. Qed.

Lemma substring_all s : String.substring 0 (String.length s) s = s.
Proof. induction s as [|c s IH]; simpl; [done | by rewrite IH]. Qed.

Lemma parse_digits_zero s st :
  default 0 st = 0 →
  parse_digits (String "0"%char s) st = parse_digits s (Some 0).
Proof.
  intros Hst. cbn [parse_digits]. change (hex_val "0") with (Some 0).
  cbv beta iota. rewrite Hst. reflexivity.
Qed.

Lemma parse_digits_zeros j s st :
  default 0 st = 0 →
  parse_digits (String.append (zeros (S j)) s) st = parse_digits s (Some 0).
Proof.
  revert st. induction j as [|j IH]; intros st Hst.
  - change (String.append (zeros 1) s) with (String "0"%char s).
    by apply parse_digits_zero.
  - change (String.append (zeros (S (S j))) s)
      with (String "0"%char (String.append (zeros (S j)) s)).
    rewrite parse_digits_zero by done. by apply IH.
Qed.

Lemma parseInt16_digit c s :
  hex_val c ≠ None → parseInt16 (String c s) = parse_digits (String c s) None.
Proof.
  intros Hc.
  destruct c as [[] [] [] [] [] [] [] []]; try reflexivity;
    exfalso; apply Hc; reflexivity.
Qed.

Lemma hex_digits_head fuel : ∀ n acc,
  0 ≤ n → (0 < fuel)%nat →
  ∃ d rest, 0 ≤ d < 16 ∧ hex_digits fuel n acc = String (hex_char d) rest.
Proof.
  induction fuel as [|fuel IH]; intros n acc Hn Hf; [lia|].
  simpl. destruct (n <? 16) eqn:Hlt.
  - apply Z.ltb_lt in Hlt. exists n, acc. split; [lia | done].
  - destruct fuel as [|fuel].
    + simpl. exists (n mod 16), acc. split; [apply Z.mod_pos_bound; lia | done].
    + apply IH; [apply Z.div_pos; lia | lia].
Qed.

(** The low word [writeUInt64BE] takes from the text of a 32-bit value is
    the value itself. *)
Lemma parseInt16_toString16 v :
  0 ≤ v < 4294967296 →
  parseInt16 (slice8 (pad (toString16 v) 16)) = Some v.
Proof.
  intros Hv. unfold toString16.
  destruct (v <? 0) eqn:Hneg; [apply Z.ltb_lt in Hneg; lia|].
  remember (S (Z.to_nat (Z.log2 v))) as fuel eqn:Efuel.
  assert (Hfuel : 0 ≤ v < 16 ^ Z.of_nat fuel).
  { split; [lia|]. subst fuel. rewrite Nat2Z.inj_succ, Z2Nat.id by apply Z.log2_nonneg.
    destruct (Z.eq_dec v 0) as [-> | Hne]; [simpl; lia|].
    pose proof (Z.log2_spec v ltac:(lia)) as [_ Hup].
    eapply Z.lt_le_trans; [exact Hup|].
    apply Z.pow_le_mono_l. lia. }
  assert (Hpos : (0 < fuel)%nat) by (subst fuel; lia).
  destruct (parse_digits_hex_digits fuel v EmptyString None Hpos Hfuel)
    as (k & Hk & Hlow & Hlen & Hparse).
  assert (Hk8 : (k ≤ 8)%nat).
  { destruct Hlow as [-> | Hlow]; [lia|].
    destruct (decide (k ≤ 8)%nat) as [|Hgt]; [done|].
    assert (16 ^ 8 ≤ 16 ^ (Z.of_nat k - 1)) by (apply Z.pow_le_mono_r; lia).
    change (16 ^ 8) with 4294967296 in *. lia. }
  simpl in Hlen, Hparse. rewrite Z.mul_0_r, Z.add_0_l in Hparse.
  unfold pad, slice8. rewrite string_length_append, string_length_zeros, Hlen.
  replace (16 - (k + 0))%nat with (8 + (8 - k))%nat by lia.
  rewrite substring_zeros.
  replace (8 + (8 - k) + (k + 0) - 8)%nat
    with (String.length (String.append (zeros (8 - k)) (hex_digits fuel v EmptyString)))
    by (rewrite string_length_append, string_length_zeros, Hlen; lia).
  rewrite substring_all.
  destruct (8 - k)%nat as [|j] eqn:Hj.
  - simpl String.append.
    destruct (hex_digits_head fuel v EmptyString ltac:(lia) ltac:(subst fuel; lia))
      as (d & rest & Hd & Heq).
    rewrite Heq, parseInt16_digit, <- Heq; [done|].
    rewrite hex_val_hex_char; done.
  - change (zeros (S j)) with (String "0"%char (zeros j)).
    simpl String.append. rewrite parseInt16_digit by done.
    change (String "0"%char (String.append (zeros j) ?s))
      with (String.append (zeros (S j)) s).
    rewrite parse_digits_zeros by done.
    destruct (parse_digits_hex_digits fuel v EmptyString (Some 0) Hpos Hfuel)
      as (k' & _ & _ & _ & Hparse').
    rewrite Hparse'. simpl. f_equal. lia.
Qed.

(** ** Windows and the heap *)

Lemma contents_valid h b :
  valid h b → ∃ bs, contents h b = Some bs ∧ length bs = len b.
Proof.
  intros (blk & Hblk & Hin). unfold contents. rewrite Hblk. simpl.
  eexists; split; [done|]. rewrite length_take, length_drop. lia.
Qed.

Lemma contents_store_same h b bs :
  valid h b → length bs = len b → contents (store h b bs) b = Some bs.
Proof.
  intros (blk & Hblk & Hin) Hlen. unfold store. rewrite Hblk. unfold contents.
  rewrite list_lookup_insert_eq by (by eapply lookup_lt_Some). simpl. f_equal.
  apply list_eq. intros i. destruct (decide (i < len b)%nat) as [Hi|Hi].
  - rewrite lookup_take_lt, lookup_drop by done.
    rewrite list_lookup_inserts by lia. f_equal. lia.
  - rewrite lookup_take_ge by lia. symmetry. apply lookup_ge_None. lia.
Qed.

Lemma contents_store_disjoint h b bs b' :
  length bs = len b → disjoint b b' → contents (store h b bs) b' = contents h b'.
Proof.
  intros Hlen Hdis. unfold store.
  destruct (h !! base b) as [blk|] eqn:Hblk; [|done]. unfold contents.
  destruct (decide (base b = base b')) as [Heq|Hne].
  - rewrite <- Heq, Hblk.
    rewrite list_lookup_insert_eq by (by eapply lookup_lt_Some). simpl. f_equal.
    destruct Hdis as [?|Hdis]; [done|].
    apply list_eq. intros i. destruct (decide (i < len b')%nat) as [Hi|Hi].
    + rewrite !lookup_take_lt, !lookup_drop by done.
      destruct Hdis; [apply list_lookup_inserts_lt | apply list_lookup_inserts_ge]; lia.
    + by rewrite !lookup_take_ge by lia.
  - by rewrite list_lookup_insert_ne.
Qed.

Lemma valid_store h b bs b' : valid h b' → valid (store h b bs) b'.
Proof.
  intros (blk & Hblk & Hin). unfold store.
  destruct (h !! base b) as [blk0|] eqn:Hblk0; [|by exists blk]. unfold valid.
  destruct (decide (base b = base b')) as [Heq|Hne].
  - rewrite Heq in *. rewrite list_lookup_insert_eq by (by eapply lookup_lt_Some).
    eexists; split; [done|]. rewrite length_inserts. congruence.
  - rewrite list_lookup_insert_ne by done. by exists blk.
Qed.

Lemma valid_app h blk b : valid h b → valid (h ++ [blk]) b.
Proof.
  intros (blk0 & Hblk & Hin). exists blk0. split; [|done].
  by apply lookup_app_l_Some.
Qed.

Lemma valid_fresh h blk off len :
  (off + len ≤ length blk)%nat → valid (h ++ [blk]) (mkBuf (length h) off len).
Proof.
  intros Hin. exists blk. split; [|done]. simpl. by apply list_lookup_middle.
Qed.

(** ** The 64-bit helpers *)

Lemma byte_recompose v :
  0 ≤ v →
  ((v / 16777216 * 256 + (v / 65536) mod 256) * 256 + (v / 256) mod 256) * 256
  + v mod 256 = v.
Proof. intros Hv. Z.div_mod_to_equations. lia. Qed.

Lemma writeUInt64BE_fits bs v :
  (8 ≤ length bs)%nat → fits32 v →
  ∃ bs', writeUInt64BE bs v = Some bs' ∧ length bs' = length bs
         ∧ readUInt64BE bs' = Some v.
Proof.
  intros Hlen Hv. unfold fits32 in Hv. unfold writeUInt64BE.
  rewrite parseInt16_toString16 by done.
  do 8 (destruct bs as [|? bs]; [simpl in Hlen; lia|]).
  unfold Buffer.number, Buffer.writeUInt32BE. simpl default.
  rewrite !bool_decide_true by (simpl; lia). simpl.
  rewrite ?bool_decide_true by (simpl; lia). simpl.
  eexists; split; [done|]. split; [done|].
  unfold readUInt64BE, Buffer.readUInt32BE. simpl. f_equal.
  apply byte_recompose. lia.
Qed.

Lemma hwriteUInt64BE_fits h b v :
  valid h b → len b = 8%nat → fits32 v →
  ∃ h', hwriteUInt64BE h b v = Some h'
        ∧ hreadUInt64BE h' b = Some v
        ∧ (∀ b', disjoint b b' → contents h' b' = contents h b')
        ∧ (∀ b', valid h b' → valid h' b').
Proof.
  intros Hval Hlen Hv.
  destruct (contents_valid h b Hval) as (bs & Hbs & Hlbs).
  destruct (writeUInt64BE_fits bs v ltac:(lia) Hv) as (bs' & Hw & Hl' & Hr).
  exists (store h b bs'). unfold hwriteUInt64BE, hreadUInt64BE.
  rewrite Hbs. simpl. rewrite Hw. simpl. split; [done|].
  rewrite contents_store_same by (done || lia). simpl. split; [done|]. split.
  - intros b' Hdis. apply contents_store_disjoint; [lia | done].
  - intros b'. apply valid_store.
Qed.

(** ** Sending MIDI: the silent drop *)

(** C3.  While [latency] or [timeDifference] is [null], [sendMessage]
    returns without sending anything and leaves the stream as it was; in
    particular [lastSentSequenceNr] is unchanged, and no exception is
    raised. *)
Theorem sendMessage_silent_drop getDataLength env s timestamp commands :
  Stream.latency s = None ∨ Stream.timeDifference s = None →
  Stream.sendMessage getDataLength env s timestamp commands = Some (s, []).
Proof.
  intros Hnull. unfold Stream.sendMessage.
  destruct Hnull as [-> | ->]; simpl; [done|].
  by rewrite orb_true_r.
Qed.

Lemma sendMessage_silent_drop_witness :
  (Stream.latency (Stream.new sample_env) = None
   ∨ Stream.timeDifference (Stream.new sample_env) = None)
  ∧ Stream.sendMessage (λ _, 2%nat) sample_env (Stream.new sample_env) 50000
      [MidiMessage.mkCommand 0 [0x90; 60; 127]]
    = Some (Stream.new sample_env, []).
Proof.
  split; [left; reflexivity|].
  apply sendMessage_silent_drop. left. reflexivity.
Defined.

(** ** Loss tracking *)

(** C6.  Once a first packet has been received, a MIDI message whose
    sequence number exceeds [lastReceivedSequenceNumber] by [k > 1]
    appends to [lostSequenceNumbers] exactly the [k - 1] numbers strictly
    between the two, in increasing order. *)
Theorem handleMidiMessage_gap s message k :
  Stream.firstReceivedSequenceNumber s ≠ -1 →
  MidiMessage.sequenceNumber message = Stream.lastReceivedSequenceNumber s + k →
  1 < k →
  ∃ new,
    Stream.lostSequenceNumbers (Stream.handleMidiMessage s message).1
    = Stream.lostSequenceNumbers s ++ new
    ∧ length new = Z.to_nat (k - 1)
    ∧ ∀ i : nat, (i < Z.to_nat (k - 1))%nat →
        new !! i = Some (Stream.lastReceivedSequenceNumber s + 1 + Z.of_nat i).
Proof.
  intros Hfirst Hseq Hk.
  exists (seqZ (Stream.lastReceivedSequenceNumber s + 1) (k - 1)).
  split; [|split].
  - unfold Stream.handleMidiMessage.
    destruct (Stream.firstReceivedSequenceNumber s =? -1) eqn:E;
      [apply Z.eqb_eq in E; done|].
    simpl. do 2 f_equal. lia.
  - apply length_seqZ.
  - intros i Hi. apply lookup_seqZ_lt. lia.
Qed.

Lemma handleMidiMessage_gap_witness :
  Stream.lostSequenceNumbers (Stream.handleMidiMessage after_10_11 packet_15).1
  = [12; 13; 14]
  ∧ ∃ new,
    Stream.lostSequenceNumbers (Stream.handleMidiMessage after_10_11 packet_15).1
    = Stream.lostSequenceNumbers after_10_11 ++ new
    ∧ length new = Z.to_nat (4 - 1)
    ∧ ∀ i : nat, (i < Z.to_nat (4 - 1))%nat →
        new !! i = Some (Stream.lastReceivedSequenceNumber after_10_11 + 1 + Z.of_nat i).
Proof.
  split; [reflexivity|].
  apply (handleMidiMessage_gap after_10_11 packet_15 4); [simpl; lia | reflexivity | lia].
Defined.

(** C10.  Once a first packet has been received, a MIDI message whose
    sequence number is not above [lastReceivedSequenceNumber] (as after
    the 16-bit counter has wrapped) appends nothing to
    [lostSequenceNumbers], and [lastReceivedSequenceNumber] takes the new,
    smaller value: the comparison is the order of the integers, not the
    order modulo 2^16. *)
Theorem handleMidiMessage_not_above s message :
  Stream.firstReceivedSequenceNumber s ≠ -1 →
  MidiMessage.sequenceNumber message ≤ Stream.lastReceivedSequenceNumber s →
  Stream.lostSequenceNumbers (Stream.handleMidiMessage s message).1
  = Stream.lostSequenceNumbers s
  ∧ Stream.lastReceivedSequenceNumber (Stream.handleMidiMessage s message).1
    = MidiMessage.sequenceNumber message.
Proof.
  intros Hfirst Hle. unfold Stream.handleMidiMessage.
  destruct (Stream.firstReceivedSequenceNumber s =? -1) eqn:E;
    [apply Z.eqb_eq in E; done|].
  simpl. split; [|done].
  rewrite seqZ_nil by lia. apply app_nil_r.
Qed.

Lemma handleMidiMessage_not_above_witness :
  Stream.lostSequenceNumbers (Stream.handleMidiMessage after_65535 packet_0).1 = []
  ∧ Stream.lastReceivedSequenceNumber (Stream.handleMidiMessage after_65535 packet_0).1 = 0.
Proof.
  apply (handleMidiMessage_not_above after_65535 packet_0); [simpl; lia | simpl; lia].
Defined.

(** ** The control codec on well-formed messages *)

Lemma contents_received h bytes :
  contents (h ++ [bytes]) (mkBuf (length h) 0 (length bytes)) = Some bytes.
Proof.
  unfold contents. simpl. rewrite list_lookup_middle by done. simpl.
  by rewrite drop_0, firstn_all.
Qed.

Lemma u16_recompose v : v / 256 * 256 + v mod 256 = v.
Proof. Z.div_mod_to_equations. lia. Qed.

Lemma inserts_prefix (k l : list Z) :
  (length k ≤ length l)%nat → list_inserts 0 k l = k ++ drop (length k) l.
Proof.
  intros Hlen. apply list_eq. intros i.
  destruct (decide (i < length k)%nat) as [Hi|Hi].
  - rewrite list_lookup_inserts by lia. rewrite lookup_app_l by done.
    f_equal. lia.
  - rewrite list_lookup_inserts_ge by lia.
    rewrite lookup_app_r by lia. rewrite lookup_drop. f_equal. lia.
Qed.

Lemma generateBuffer_receiver_feedback h m x q :
  ControlMessage.command m = Some receiver_feedback →
  ControlMessage.start m = 0xFFFF →
  ControlMessage.ssrc m = JS.number x → fits32 x →
  ControlMessage.sequenceNumber m = Some q → 0 ≤ q ≤ 65535 →
  ControlMessage.generateBuffer h m
  = Some [255; 255; 0x52; 0x53;
          x / 16777216; (x / 65536) mod 256; (x / 256) mod 256; x mod 256;
          q / 256; q mod 256; 0; 0].
Proof.
  intros Hc Hs Hx Hfit Hq Hqr. unfold fits32 in Hfit.
  unfold ControlMessage.generateBuffer. rewrite Hc, Hs, Hx, Hq.
  unfold Buffer.writeUInt16BE, Buffer.writeUInt32BE. simpl.
  rewrite !bool_decide_true by lia. reflexivity.
Qed.

Lemma parseBuffer_receiver_feedback h x0 x1 x2 x3 q0 q1 rest :
  ControlMessage.parseBuffer (h ++ [[255; 255; 0x52; 0x53; x0; x1; x2; x3; q0; q1] ++ rest])
    (mkBuf (length h) 0 (10 + length rest))
  = Some (ControlMessage.mk true 0xFFFF 2 (Some receiver_feedback) JS.undefined
            (JS.number (((x0 * 256 + x1) * 256 + x2) * 256 + x3)) EmptyString
            None None None None None (Some (q0 * 256 + q1))).
Proof.
  unfold ControlMessage.parseBuffer.
  change (10 + length rest)%nat
    with (length ([255; 255; 82; 83; x0; x1; x2; x3; q0; q1] ++ rest)).
  rewrite contents_received. reflexivity.
Qed.

(** ** Receiver feedback *)

(** The claim C7 as stated fails: the stream that lost 12, 13 and 14 still
    lists them after the feedback has been sent. *)
Lemma receiverFeedback_resets_lost_counterexample :
  ∃ s' acts,
    Stream.receiverFeedbackTimeoutFires sample_env [] lossy_stream = Some (s', acts)
    ∧ Stream.lostSequenceNumbers s' = [12; 13; 14]
    ∧ Stream.lostSequenceNumbers s' ≠ [].
Proof. eexists _, _. split; [reflexivity|]. split; [reflexivity | discriminate]. Qed.

(** C7, amended.  When the receiver-feedback timer fires,
    [sendReceiverFeedback] sends to [rinfo1] a [receiver_feedback] control
    message whose [sequenceNumber] is [lastReceivedSequenceNumber]; it
    leaves [lostSequenceNumbers] as it is. *)
Theorem receiverFeedback_keeps_lost env h s r :
  Stream.receiverFeedbackTimeout s = true →
  Stream.rinfo1 s = Some r →
  0 ≤ Stream.lastReceivedSequenceNumber s ≤ 65535 →
  fits32 (session_ssrc env) →
  ∃ s' d m,
    Stream.receiverFeedbackTimeoutFires env h s = Some (s', [Stream.Send d])
    ∧ dg_port d = port r ∧ dg_address d = address r
    ∧ ControlMessage.parseBuffer [dg_buffer d] (mkBuf 0 0 (length (dg_buffer d))) = Some m
    ∧ ControlMessage.command m = Some receiver_feedback
    ∧ ControlMessage.sequenceNumber m = Some (Stream.lastReceivedSequenceNumber s)
    ∧ Stream.lostSequenceNumbers s' = Stream.lostSequenceNumbers s
    ∧ Stream.lastReceivedSequenceNumber s' = Stream.lastReceivedSequenceNumber s.
Proof.
  intros Harmed Hr Hseq Hssrc.
  unfold Stream.receiverFeedbackTimeoutFires, Stream.sendReceiverFeedback.
  rewrite Harmed. simpl Stream.rinfo1. rewrite Hr.
  unfold sendUdpMessage, ControlMessage_sendable. simpl.
  erewrite generateBuffer_receiver_feedback by (done || reflexivity). simpl.
  eexists _, _, _. split; [reflexivity|]. simpl.
  split; [done|]. split; [done|].
  split; [apply (parseBuffer_receiver_feedback [] _ _ _ _ _ _ [0; 0])|].
  split; [reflexivity|]. split; [|done].
  simpl. f_equal. apply u16_recompose.
Qed.

Lemma receiverFeedback_keeps_lost_witness :
  ∃ s' d m,
    Stream.receiverFeedbackTimeoutFires sample_env [] lossy_stream
    = Some (s', [Stream.Send d])
    ∧ dg_port d = 5004 ∧ dg_address d = "10.0.0.2"%string
    ∧ ControlMessage.parseBuffer [dg_buffer d] (mkBuf 0 0 (length (dg_buffer d))) = Some m
    ∧ ControlMessage.command m = Some receiver_feedback
    ∧ ControlMessage.sequenceNumber m = Some 15
    ∧ Stream.lostSequenceNumbers s' = [12; 13; 14]
    ∧ Stream.lastReceivedSequenceNumber s' = 15.
Proof.
  apply (receiverFeedback_keeps_lost sample_env [] lossy_stream sample_peer);
    [reflexivity | reflexivity | simpl; lia | unfold fits32; simpl; lia].
Defined.

(** ** The delta-time bytes of the encoder *)

(** X1.  What the encoder gets right: of the bytes it writes for a
    delta-time, every one but the last has the continuation bit, and the
    last has not, whatever the delta-time is. *)
Lemma deltaTimeBytes_continuation dt :
  ∃ front final,
    MidiMessage.deltaTimeBytes dt = front ++ [final]
    ∧ Forall (λ b, Z.testbit b 7 = true) front
    ∧ Z.testbit final 7 = false.
Proof.
  unfold MidiMessage.deltaTimeBytes.
  exists ((if 8355711 <=? dt
           then [Z.lor 128 (Z.land 127 (Z.shiftr (JS.toInt32 dt) 21))] else [])
          ++ (if 32639 <=? dt
              then [Z.lor 128 (Z.land 127 (Z.shiftr (JS.toInt32 dt) 14))] else [])
          ++ (if 127 <=? dt
              then [Z.lor 128 (Z.land 127 (Z.shiftr (JS.toInt32 dt) 7))] else [])),
    (Z.land 127 (JS.toInt32 dt)).
  split; [by rewrite <- !app_assoc|]. split.
  - rewrite !Forall_app.
    repeat split; case_match; constructor; try constructor;
      rewrite Z.lor_spec; reflexivity.
  - rewrite Z.land_spec. reflexivity.
Qed.

(** C8: the encoder at the delta-times 127 and 16384.  For 127, which fits
    one group of seven bits, it writes two bytes; for 16384, which needs
    three groups, it writes two, and they read back as 0.  The whole
    packet is shown for 16384: the two delta-time bytes are the sixth and
    seventh of the payload. *)
Theorem deltaTime_thresholds :
  MidiMessage.deltaTimeBytes 127 = [0x80; 0x7f]
  ∧ MidiMessage.deltaTimeBytes 16384 = [0x80; 0x00]
  ∧ varintValue (MidiMessage.deltaTimeBytes 16384) = 0
  ∧ MidiMessage.generatePayload sample_getDataLength (packet_with_delta 16384)
    = Some [0x08; 0x00; 0x90; 60; 127; 0x80; 0x00; 0x80; 60].
Proof. repeat split; reflexivity. Qed.

(** ** Clock synchronization leaves the connection alone *)

Lemma sameConnection_refl s : sameConnection s s.
Proof. by repeat split. Qed.

Lemma sameConnection_trans s1 s2 s3 :
  sameConnection s1 s2 → sameConnection s2 s3 → sameConnection s1 s3.
Proof.
  unfold sameConnection. intros (?&?&?&?&?&?&?) (?&?&?&?&?&?&?).
  repeat split; congruence.
Qed.

Lemma sendSynchronizationBody_same env again now h s incoming h' s' acts :
  (∀ h1 s1 h2 s2 a, again h1 s1 = Some (h2, s2, a) → sameConnection s1 s2) →
  Stream.sendSynchronizationBody env again now h s incoming = Some (h', s', acts) →
  sameConnection s s'.
Proof.
  intros Hagain Hbody. unfold Stream.sendSynchronizationBody in Hbody.
  cbn [halloc] in Hbody.
  repeat (first [ progress simplify_option_eq
                | case_match
                | match goal with
                  | H : (?x ≫= _) = Some _ |- _ =>
                      destruct x eqn:?; simpl in H; [|discriminate]
                  end ]);
    first [ by apply sameConnection_refl
          | by repeat split
          | eapply sameConnection_trans; [|eapply Hagain; eassumption];
            by repeat split ].
Qed.

Lemma sendSynchronization_same env h s incoming h' s' acts :
  Stream.sendSynchronization env h s incoming = Some (h', s', acts) →
  sameConnection s s'.
Proof.
  unfold Stream.sendSynchronization.
  apply sendSynchronizationBody_same.
  intros h1 s1 h2 s2 a. apply sendSynchronizationBody_same. discriminate.
Qed.

(** ** The connection handshake *)

(** Unfold a handler in a hypothesis and split its cases. *)
Ltac handler_cases H :=
  repeat (first [ progress simplify_option_eq
                | case_match
                | match goal with
                  | H' : (?x ≫= _) = Some _ |- _ =>
                      destruct x eqn:?; simpl in H'; [|discriminate]
                  end ]).

(** A stream without control peer has no data peer and is not
    connected. *)
Lemma reachable_rinfo_order s :
  reachable s →
  Stream.rinfo1 s = None →
  Stream.rinfo2 s = None ∧ Stream.isConnected s = false.
Proof.
  induction 1 as [env | s rinfo Hs IHreach | env h s s' acts Hs IHreach Hstep
                 | env h s m rinfo h' s' acts Hs IHreach Hstep | s m Hs IHreach
                 | env h s h' s' acts Hs IHreach Hstep | env h s s' acts Hs IHreach Hstep
                 | gdl env s ts cs s' acts Hs IHreach Hstep ].
  - done.
  - exact IHreach.
  - unfold Stream.connectionIntervalFires, Stream.sendInvitation in Hstep.
    handler_cases Hstep; simpl in *; naive_solver.
  - unfold Stream.handleControlMessage in Hstep.
    destruct (ControlMessage.command m) as [c|]; [|done]. simpl in Hstep.
    destruct c.
    + unfold Stream.handleInvitation, Stream.sendInvitationAccepted in Hstep.
      handler_cases Hstep; simpl in *; naive_solver.
    + unfold Stream.handleInvitationRejected in Hstep.
      handler_cases Hstep; simpl in *; naive_solver.
    + unfold Stream.handleInvitationAccepted, Stream.sendInvitation in Hstep.
      handler_cases Hstep; simpl in *; naive_solver.
    + unfold Stream.handleEnd in Hstep. handler_cases Hstep. simpl in *.
      naive_solver.
    + unfold Stream.handleSynchronization in Hstep.
      destruct (Stream.sendSynchronization env h s (Some m))
        as [[[h1 s1] a1]|] eqn:Hsync; [|done].
      apply sendSynchronization_same in Hsync as (_ & _ & Hr1 & Hr2 & Hc & _).
      simplify_option_eq. rewrite Hr1, Hr2, Hc. exact IHreach.
    + unfold Stream.handleReceiverFeedback in Hstep.
      handler_cases Hstep; simpl in *; naive_solver.
    + handler_cases Hstep; simpl in *; naive_solver.
  - unfold Stream.handleMidiMessage. case_match; exact IHreach.
  - unfold Stream.syncIntervalFires in Hstep.
    destruct (Stream.syncInterval s) as [[count|]|]; simplify_option_eq;
      try exact IHreach.
    + destruct (Stream.sendSynchronization env h s None)
        as [[[h1 s1] a1]|] eqn:Hsync; [|done].
      apply sendSynchronization_same in Hsync as (_ & _ & Hr1 & Hr2 & Hc & _).
      simplify_option_eq. case_match; simpl; rewrite Hr1, Hr2, Hc; exact IHreach.
    + apply sendSynchronization_same in Hstep as (_ & _ & Hr1 & Hr2 & Hc & _).
      rewrite Hr1, Hr2, Hc. exact IHreach.
  - unfold Stream.receiverFeedbackTimeoutFires, Stream.sendReceiverFeedback in Hstep.
    handler_cases Hstep; simpl in *; naive_solver.
  - unfold Stream.sendMessage in Hstep. handler_cases Hstep; simpl in *; naive_solver.
Qed.

(** Scenario 1 of the specification: the first packet of the initiator,
    and the invitation to the data port after the acceptance on the
    control channel. *)
Lemma scenario_handshake :
  Stream.connectionIntervalFires sample_env []
    (Stream.connect (Stream.new sample_env) sample_peer)
  = Some (inviting_stream,
          [Stream.Send (mkDatagram controlChannel
             [0xFF; 0xFF; 0x49; 0x4E; 0; 0; 0; 2; 0xAA; 0xBB; 0xCC; 0xDD; 1; 2; 3; 4; 65; 0]
             5004 "10.0.0.2")])
  ∧ ∃ h' s',
      Stream.handleControlMessage sample_env [] inviting_stream
        acceptance_from_peer sample_peer
      = Some (h', s',
              [Stream.Send (mkDatagram messageChannel
                 [0xFF; 0xFF; 0x49; 0x4E; 0; 0; 0; 2; 0xAA; 0xBB; 0xCC; 0xDD; 1; 2; 3; 4; 65; 0]
                 5005 "10.0.0.2");
               Stream.Emit Stream.connected;
               Stream.Emit (Stream.control_message acceptance_from_peer)]).
Proof. split; [reflexivity|]. eexists _, _. reflexivity. Qed.

(** The claim C4 as stated fails on the initiator path: the acceptance on
    the control channel connects the stream and emits [connected] while
    [rinfo2] is still [null]. *)
Lemma connected_without_rinfo2_counterexample :
  Stream.isConnected inviting_stream = false
  ∧ ∃ h' s' acts,
      Stream.handleControlMessage sample_env [] inviting_stream
        acceptance_from_peer sample_peer = Some (h', s', acts)
      ∧ Stream.isConnected s' = true
      ∧ In (Stream.Emit Stream.connected) acts
      ∧ Stream.rinfo2 s' = None.
Proof.
  split; [reflexivity|]. eexists _, _, _. split; [reflexivity|].
  split; [reflexivity|]. split; [|reflexivity]. simpl. auto.
Qed.

(** C4, amended.  Whenever a handled control message turns [isConnected]
    from false to true, the [connected] event is emitted and [rinfo1] is
    non-null.  On the acceptor path (an [invitation]) [rinfo2] is non-null
    as well: it has just been set to the sender.  On the initiator path (an
    [invitation_accepted]) the stream connects on the acceptance of the
    control channel, when [rinfo1] has just been set and [rinfo2] is still
    [null]. *)
Theorem connected_rinfo env h s m rinfo h' s' acts :
  reachable s →
  Stream.handleControlMessage env h s m rinfo = Some (h', s', acts) →
  Stream.isConnected s = false →
  Stream.isConnected s' = true →
  In (Stream.Emit Stream.connected) acts
  ∧ Stream.rinfo1 s' ≠ None
  ∧ ((ControlMessage.command m = Some invitation
      ∧ Stream.rinfo2 s' = Some rinfo)
     ∨ (ControlMessage.command m = Some invitation_accepted
        ∧ Stream.rinfo1 s' = Some rinfo ∧ Stream.rinfo2 s' = None)).
Proof.
  intros Hreach Hstep Hoff Hon.
  pose proof (reachable_rinfo_order s Hreach) as Horder.
  unfold Stream.handleControlMessage in Hstep.
  destruct (ControlMessage.command m) as [c|]; [|done]. simpl in Hstep.
  destruct c.
  - unfold Stream.handleInvitation, Stream.sendInvitationAccepted in Hstep.
    handler_cases Hstep; simpl in *; try congruence.
    split; [rewrite ?in_app_iff; simpl; tauto|].
    split; [congruence|]. left. done.
  - unfold Stream.handleInvitationRejected in Hstep.
    handler_cases Hstep; simpl in *; try congruence.
  - unfold Stream.handleInvitationAccepted, Stream.sendInvitation in Hstep.
    handler_cases Hstep; simpl in *; try congruence;
      (split; [rewrite ?in_app_iff; simpl; tauto|]);
      (split; [congruence|]); right; (split; [done|]); (split; [done|]);
      by apply Horder.
  - unfold Stream.handleEnd in Hstep. handler_cases Hstep; simpl in *; try congruence.
  - unfold Stream.handleSynchronization in Hstep.
    destruct (Stream.sendSynchronization env h s (Some m))
      as [[[h1 s1] a1]|] eqn:Hsync; [|done].
    apply sendSynchronization_same in Hsync as (_ & _ & _ & _ & Hc & _).
    simplify_option_eq. congruence.
  - unfold Stream.handleReceiverFeedback in Hstep.
    handler_cases Hstep; try congruence.
  - handler_cases Hstep; try congruence.
Qed.

Lemma connected_rinfo_witness :
  ∃ h' s' acts,
    Stream.handleControlMessage sample_env [] half_open_stream
      invitation_from_peer (mkRInfo "10.0.0.2" 5005) = Some (h', s', acts)
    ∧ In (Stream.Emit Stream.connected) acts
    ∧ Stream.rinfo1 s' ≠ None
    ∧ ((ControlMessage.command invitation_from_peer = Some invitation
        ∧ Stream.rinfo2 s' = Some (mkRInfo "10.0.0.2" 5005))
       ∨ (ControlMessage.command invitation_from_peer = Some invitation_accepted
          ∧ Stream.rinfo1 s' = Some (mkRInfo "10.0.0.2" 5005)
          ∧ Stream.rinfo2 s' = None)).
Proof.
  eexists _, _, _. split; [reflexivity|].
  eapply (connected_rinfo sample_env [] half_open_stream invitation_from_peer);
    [|reflexivity | reflexivity | reflexivity].
  eapply (reach_control sample_env [] (Stream.new sample_env)
            invitation_from_peer sample_peer);
    [apply reach_new | reflexivity].
Defined.

(** ** Unknown command codes *)

Lemma find_none pred l :
  Forall (λ x, pred x = false) l → ∀ i, Session.find pred l i = None.
Proof.
  induction 1 as [|x l Hx Hl IH]; intros i; simpl; [done|].
  rewrite Hx. apply IH.
Qed.

Lemma parseBuffer_unknown h bytes code :
  Buffer.readUInt16BE bytes 0 = Some 0xFFFF →
  Buffer.readUInt16BE bytes 2 = Some code →
  ControlMessage.byteToCommand code = None →
  ControlMessage.parseBuffer (h ++ [bytes]) (mkBuf (length h) 0 (length bytes))
  = Some (ControlMessage.mk true 0xFFFF 2 None JS.undefined JS.undefined EmptyString
            None None None None None None).
Proof.
  intros Hstart Hcode Hunknown. unfold ControlMessage.parseBuffer.
  rewrite contents_received. simpl. rewrite Hstart. simpl.
  rewrite Hcode. simpl. rewrite Hunknown. reflexivity.
Qed.

(** The claim C9 as stated fails: a buffer with the magic and the command
    code 0 is decoded to a message whose [isValid] is true, and the
    session emits it as a [controlMessage] event. *)
Lemma unknown_command_counterexample :
  ∃ m,
    ControlMessage.parseBuffer [[0xFF; 0xFF; 0; 0]] (mkBuf 0 0 4) = Some m
    ∧ ControlMessage.isValid m = true
    ∧ Session.handleMessage (λ _, None) 1010 1020 7 7 sample_session
        [0xFF; 0xFF; 0; 0] sample_peer
      = Some (sample_session, [Session.Emitted (Session.controlMessage m)]).
Proof. eexists. repeat split; reflexivity. Qed.

(** C9, amended.  A buffer that begins with the magic 0xFFFF and whose
    command code is none of the seven known ones is decoded to a message
    without command whose [isValid] is still true.  The session emits it as
    a [controlMessage] event and hands it to no stream: no stream changes
    and nothing is sent. *)
Theorem unknown_command_not_delivered
    parseMidi now now_again randomToken randomSequenceNr s bytes rinfo code :
  Buffer.readUInt16BE bytes 0 = Some 0xFFFF →
  Buffer.readUInt16BE bytes 2 = Some code →
  ControlMessage.byteToCommand code = None →
  Forall definedKeys (Session.streams s) →
  ∃ m,
    ControlMessage.parseBuffer [bytes] (mkBuf 0 0 (length bytes)) = Some m
    ∧ ControlMessage.isValid m = true
    ∧ ControlMessage.command m = None
    ∧ Session.handleMessage parseMidi now now_again randomToken randomSequenceNr
        s bytes rinfo
      = Some (s, [Session.Emitted (Session.controlMessage m)]).
Proof.
  intros Hstart Hcode Hunknown Hkeys.
  pose proof (parseBuffer_unknown [] bytes code Hstart Hcode Hunknown) as Hparse.
  simpl in Hparse. eexists. split; [exact Hparse|].
  split; [reflexivity|]. split; [reflexivity|].
  unfold Session.handleMessage, hreceive. simpl. rewrite Hparse. simpl.
  rewrite find_none; [reflexivity|].
  eapply Forall_impl; [|exact Hkeys].
  intros st [Hssrc Htoken]. simpl. unfold JS.strict_eq.
  by rewrite !bool_decide_false.
Qed.

Lemma unknown_command_not_delivered_witness :
  ∃ m,
    ControlMessage.parseBuffer [[0xFF; 0xFF; 0x58; 0x58; 1; 2; 3; 4]]
      (mkBuf 0 0 (length [0xFF; 0xFF; 0x58; 0x58; 1; 2; 3; 4])) = Some m
    ∧ ControlMessage.isValid m = true
    ∧ ControlMessage.command m = None
    ∧ Session.handleMessage (λ _, None) 1010 1020 7 7 sample_session
        [0xFF; 0xFF; 0x58; 0x58; 1; 2; 3; 4] sample_peer
      = Some (sample_session, [Session.Emitted (Session.controlMessage m)]).
Proof.
  apply (unknown_command_not_delivered (λ _, None) 1010 1020 7 7 sample_session
           [0xFF; 0xFF; 0x58; 0x58; 1; 2; 3; 4] sample_peer 0x5858);
    [reflexivity | reflexivity | reflexivity |].
  repeat constructor; discriminate.
Defined.

(** ** The keys of the streams stay defined *)

Lemma parseBuffer_keys h buffer m cmd :
  ControlMessage.parseBuffer h buffer = Some m →
  ControlMessage.command m = Some cmd → namedCommand cmd →
  ControlMessage.ssrc m ≠ JS.undefined ∧ ControlMessage.token m ≠ JS.undefined.
Proof.
  intros Hparse Hcmd Hkind. unfold ControlMessage.parseBuffer in Hparse.
  destruct Hkind as [-> | [-> | [-> | ->]]];
    handler_cases Hparse; simpl in *; try discriminate; done.
Qed.

Lemma handleControlMessage_keys env h s m rinfo h' s' acts :
  definedKeys s →
  (∀ cmd, ControlMessage.command m = Some cmd → namedCommand cmd →
     ControlMessage.ssrc m ≠ JS.undefined ∧ ControlMessage.token m ≠ JS.undefined) →
  Stream.handleControlMessage env h s m rinfo = Some (h', s', acts) →
  definedKeys s'.
Proof.
  intros [Hssrc Htoken] Hm Hstep. unfold definedKeys.
  unfold Stream.handleControlMessage in Hstep.
  destruct (ControlMessage.command m) as [c|] eqn:Hc; [|done]. simpl in Hstep.
  destruct c.
  - destruct (Hm invitation eq_refl ltac:(by left)) as [Hms Hmt].
    unfold Stream.handleInvitation, Stream.sendInvitationAccepted in Hstep.
    handler_cases Hstep; simpl in *; done.
  - unfold Stream.handleInvitationRejected in Hstep.
    handler_cases Hstep; simpl in *; done.
  - destruct (Hm invitation_accepted eq_refl ltac:(by right; left)) as [Hms Hmt].
    unfold Stream.handleInvitationAccepted, Stream.sendInvitation in Hstep.
    handler_cases Hstep; simpl in *; done.
  - unfold Stream.handleEnd in Hstep. handler_cases Hstep; simpl in *; done.
  - unfold Stream.handleSynchronization in Hstep.
    destruct (Stream.sendSynchronization env h s (Some m))
      as [[[h1 s1] a1]|] eqn:Hsync; [|done].
    apply sendSynchronization_same in Hsync as (Ht & Hs & _).
    simplify_option_eq. by rewrite Ht, Hs.
  - unfold Stream.handleReceiverFeedback in Hstep.
    handler_cases Hstep; simpl in *; done.
  - handler_cases Hstep; simpl in *; done.
Qed.

Lemma perform_streams (P : Stream.t → Prop) index stream p a :
  Forall P (Session.streams (Session.session p)) →
  Forall P (Session.streams (Session.session (Session.perform index stream p a))).
Proof.
  intros HP.
  assert (Hrm : ∀ q, Forall P (Session.streams (Session.session q)) →
                     Forall P (Session.streams (Session.session (Session.removeStream index q)))).
  { intros q Hq. unfold Session.removeStream. destruct (Session.attached q); [|done].
    simpl. by apply Forall_delete. }
  destruct a as [e|d|]; simpl; [|done|by apply Hrm].
  destruct (Session.attached p); [|done].
  destruct e; simpl; try done. by apply Hrm.
Qed.

Lemma foldl_perform_streams (P : Stream.t → Prop) index stream acts : ∀ p,
  Forall P (Session.streams (Session.session p)) →
  Forall P (Session.streams
              (Session.session (foldl (Session.perform index stream) p acts))).
Proof.
  induction acts as [|a acts IH]; intros p HP; simpl; [done|].
  apply IH. by apply perform_streams.
Qed.

(** The hypothesis of the theorem on unknown command codes is an invariant
    of the demultiplexer: it holds of the empty session and is kept by
    every datagram. *)
Lemma handleMessage_keys
    parseMidi now now_again randomToken randomSequenceNr s bytes rinfo s' out :
  Forall definedKeys (Session.streams s) →
  Session.handleMessage parseMidi now now_again randomToken randomSequenceNr
    s bytes rinfo = Some (s', out) →
  Forall definedKeys (Session.streams s').
Proof.
  intros Hkeys Hstep. unfold Session.handleMessage, hreceive in Hstep.
  simpl in Hstep.
  destruct (ControlMessage.parseBuffer [bytes] _) as [m|] eqn:Hparse; [|done].
  simpl in Hstep.
  assert (Hm : ∀ cmd, ControlMessage.command m = Some cmd → namedCommand cmd →
     ControlMessage.ssrc m ≠ JS.undefined ∧ ControlMessage.token m ≠ JS.undefined)
    by (intros cmd; by apply parseBuffer_keys with (1 := Hparse)).
  destruct (ControlMessage.isValid m).
  - destruct (Session.find _ _ _) as [index|] eqn:Hfind.
    + destruct (Session.streams s !! index) as [old|] eqn:Hold; [|done].
      simpl in Hstep.
      destruct (Stream.handleControlMessage _ _ old m rinfo)
        as [[[h1 stream] acts]|] eqn:Hhandle; [|done].
      simpl in Hstep. simplify_eq.
      apply foldl_perform_streams. simpl.
      apply Forall_insert; [done|].
      eapply handleControlMessage_keys; [|exact Hm|exact Hhandle].
      eapply Forall_lookup_1; eassumption.
    + case_bool_decide; [|by simplify_eq].
      destruct (Stream.handleControlMessage _ _ (Stream.new _) m rinfo)
        as [[[h1 stream] acts]|] eqn:Hhandle; [|done].
      simpl in Hstep. simplify_eq. simpl.
      apply Forall_app. split.
      * by apply foldl_perform_streams.
      * apply Forall_singleton.
        eapply handleControlMessage_keys; [|exact Hm|exact Hhandle].
        split; discriminate.
  - destruct (parseMidi bytes) as [midi|]; [|done]. simpl in Hstep.
    destruct (Session.find _ _ _) as [index|] eqn:Hfind; [|by simplify_eq].
    destruct (Session.streams s !! index) as [old|] eqn:Hold; [|done].
    simpl in Hstep.
    destruct (Stream.handleMidiMessage old midi) as [stream acts] eqn:Hhandle.
    simplify_eq.
    apply foldl_perform_streams. simpl.
    apply Forall_insert; [done|].
    pose proof (Forall_lookup_1 _ _ _ _ Hkeys Hold) as [Hs Ht].
    unfold Stream.handleMidiMessage in Hhandle.
    case_match; simplify_eq; by split.
Qed.

(** ** Clock synchronization *)

Lemma parseBuffer_synchronization_inv h bytes m :
  (36 ≤ length bytes)%nat →
  ControlMessage.parseBuffer (h ++ [bytes]) (mkBuf (length h) 0 (length bytes)) = Some m →
  ControlMessage.command m = Some synchronization →
  ControlMessage.timestamp1 m = Some (mkBuf (length h) 12 8)
  ∧ ControlMessage.timestamp2 m = Some (mkBuf (length h) 20 8)
  ∧ ControlMessage.timestamp3 m = Some (mkBuf (length h) 28 8).
Proof.
  intros Hlen Hparse Hcmd. unfold ControlMessage.parseBuffer in Hparse.
  rewrite contents_received in Hparse. simpl in Hparse.
  handler_cases Hparse; simpl in *; try discriminate.
  unfold slice. cbn [base off len]. rewrite !Nat.min_l by lia. done.
Qed.

Lemma valid_timestamp h bytes o :
  (o + 8 ≤ length bytes)%nat → valid (h ++ [bytes]) (mkBuf (length h) o 8).
Proof. apply valid_fresh. Qed.

Lemma hreadUInt64BE_valid h b :
  valid h b → len b = 8%nat → is_Some (hreadUInt64BE h b).
Proof.
  intros Hval Hlen. destruct (contents_valid h b Hval) as (bs & Hbs & Hl).
  unfold hreadUInt64BE. rewrite Hbs. simpl.
  do 8 (destruct bs as [|? bs]; [simpl in Hl; lia|]). by eexists.
Qed.

Lemma hreadUInt64BE_contents h h' b :
  contents h' b = contents h b → hreadUInt64BE h' b = hreadUInt64BE h b.
Proof. unfold hreadUInt64BE. by intros ->. Qed.

Lemma generateBuffer_synchronization h m x n b1 b2 b3 bs1 bs2 bs3 :
  ControlMessage.command m = Some synchronization →
  ControlMessage.start m = 0xFFFF →
  ControlMessage.ssrc m = JS.number x → fits32 x →
  ControlMessage.count m = Some n → 0 ≤ n ≤ 255 →
  ControlMessage.padding m = None →
  ControlMessage.timestamp1 m = Some b1 → contents h b1 = Some bs1 → length bs1 = 8%nat →
  ControlMessage.timestamp2 m = Some b2 → contents h b2 = Some bs2 → length bs2 = 8%nat →
  ControlMessage.timestamp3 m = Some b3 → contents h b3 = Some bs3 → length bs3 = 8%nat →
  ControlMessage.generateBuffer h m
  = Some ([255; 255; 0x43; 0x4B;
           x / 16777216; (x / 65536) mod 256; (x / 256) mod 256; x mod 256;
           n; 0; 0; 0] ++ bs1 ++ bs2 ++ bs3).
Proof.
  intros Hc Hs Hx Hfit Hn Hnr Hp Ht1 Hb1 Hl1 Ht2 Hb2 Hl2 Ht3 Hb3 Hl3.
  unfold fits32 in Hfit.
  unfold ControlMessage.generateBuffer.
  rewrite Hc, Hs, Hx, Hn, Hp, Ht1, Ht2, Ht3. simpl.
  unfold Buffer.writeUInt16BE, Buffer.writeUInt32BE, Buffer.writeUInt8. simpl.
  rewrite !bool_decide_true by lia. simpl.
  rewrite Hb1. simpl. rewrite Hb2. simpl. rewrite Hb3. simpl.
  do 8 (destruct bs1 as [|? bs1]; [simpl in Hl1; lia|]).
  do 8 (destruct bs2 as [|? bs2]; [simpl in Hl2; lia|]).
  do 8 (destruct bs3 as [|? bs3]; [simpl in Hl3; lia|]).
  destruct bs1; [|simpl in Hl1; lia].
  destruct bs2; [|simpl in Hl2; lia].
  destruct bs3; [|simpl in Hl3; lia].
  reflexivity.
Qed.

Lemma parseBuffer_synchronization h x0 x1 x2 x3 n p9 p10 p11 bs1 bs2 bs3 :
  length bs1 = 8%nat → length bs2 = 8%nat → length bs3 = 8%nat →
  ControlMessage.parseBuffer
    (h ++ [[255; 255; 0x43; 0x4B; x0; x1; x2; x3; n; p9; p10; p11] ++ bs1 ++ bs2 ++ bs3])
    (mkBuf (length h) 0 36)
  = Some (ControlMessage.mk true 0xFFFF 2 (Some synchronization) JS.undefined
            (JS.number (((x0 * 256 + x1) * 256 + x2) * 256 + x3)) EmptyString
            (Some n) (Some (Z.shiftl p9 16 + (p10 * 256 + p11)))
            (Some (mkBuf (length h) 12 8))
            (Some (mkBuf (length h) 20 8))
            (Some (mkBuf (length h) 28 8))
            None)
  ∧ contents (h ++ [[255; 255; 0x43; 0x4B; x0; x1; x2; x3; n; p9; p10; p11] ++ bs1 ++ bs2 ++ bs3])
      (mkBuf (length h) 12 8) = Some bs1
  ∧ contents (h ++ [[255; 255; 0x43; 0x4B; x0; x1; x2; x3; n; p9; p10; p11] ++ bs1 ++ bs2 ++ bs3])
      (mkBuf (length h) 20 8) = Some bs2
  ∧ contents (h ++ [[255; 255; 0x43; 0x4B; x0; x1; x2; x3; n; p9; p10; p11] ++ bs1 ++ bs2 ++ bs3])
      (mkBuf (length h) 28 8) = Some bs3.
Proof.
  intros Hl1 Hl2 Hl3.
  do 8 (destruct bs1 as [|? bs1]; [simpl in Hl1; lia|]).
  do 8 (destruct bs2 as [|? bs2]; [simpl in Hl2; lia|]).
  do 8 (destruct bs3 as [|? bs3]; [simpl in Hl3; lia|]).
  destruct bs1; [|simpl in Hl1; lia].
  destruct bs2; [|simpl in Hl2; lia].
  destruct bs3; [|simpl in Hl3; lia].
  unfold ControlMessage.parseBuffer, contents. simpl.
  rewrite !list_lookup_middle by done. simpl. done.
Qed.

Lemma hreadUInt64BE_Some h b bs v :
  contents h b = Some bs → hreadUInt64BE h b = Some v → readUInt64BE bs = Some v.
Proof. unfold hreadUInt64BE. intros ->. done. Qed.

Lemma fits32_0 : fits32 0.
Proof. unfold fits32. lia. Qed.

Lemma logSynchronization_Some h incoming answer :
  (∀ m, incoming = Some m →
        is_Some (Stream.readTimestamp h (ControlMessage.timestamp1 m))
        ∧ is_Some (Stream.readTimestamp h (ControlMessage.timestamp2 m))
        ∧ is_Some (Stream.readTimestamp h (ControlMessage.timestamp3 m))) →
  (Stream.countBelow3 (ControlMessage.count answer) = true →
        is_Some (Stream.readTimestamp h (ControlMessage.timestamp1 answer))
        ∧ is_Some (Stream.readTimestamp h (ControlMessage.timestamp2 answer))
        ∧ is_Some (Stream.readTimestamp h (ControlMessage.timestamp3 answer))) →
  Stream.logSynchronization h incoming answer = Some ().
Proof.
  intros Hin Hout. unfold Stream.logSynchronization.
  destruct incoming as [m|].
  - destruct (Hin m eq_refl) as ([? ->] & [? ->] & [? ->]). simpl.
    destruct (Stream.countBelow3 _); [|done].
    destruct (Hout eq_refl) as ([? ->] & [? ->] & [? ->]). done.
  - simpl. destruct (Stream.countBelow3 _); [|done].
    destruct (Hout eq_refl) as ([? ->] & [? ->] & [? ->]). done.
Qed.


(** C1.  On an incoming synchronization message with count 1,
    [sendSynchronization] sets [latency] to [ts3 - ts1] and
    [timeDifference] to [round(ts3 - ts2) - latency], where each [ts_i] is
    the 64-bit timestamp the code reads from the incoming message (low 32
    bits).  The answer shares the timestamp buffers of the incoming
    message, and the local time [now] is written into the third one before
    the reads: [ts1] and [ts2] are the timestamps the datagram arrived
    with, and [ts3] is [now]. *)
Theorem synchronization_count1 env h0 bytes s m :
  (36 ≤ length bytes)%nat →
  ControlMessage.parseBuffer (h0 ++ [bytes]) (mkBuf (length h0) 0 (length bytes)) = Some m →
  ControlMessage.command m = Some synchronization →
  ControlMessage.count m = Some 1 →
  fits32 (now env) → fits32 (session_ssrc env) →
  ∃ h' s' acts ts1 ts2 ts3,
    Stream.handleSynchronization env (h0 ++ [bytes]) s m = Some (h', s', acts)
    ∧ Stream.readTimestamp h' (ControlMessage.timestamp1 m) = Some ts1
    ∧ Stream.readTimestamp h' (ControlMessage.timestamp2 m) = Some ts2
    ∧ Stream.readTimestamp h' (ControlMessage.timestamp3 m) = Some ts3
    ∧ Stream.latency s' = Some (ts3 - ts1)
    ∧ Stream.timeDifference s' = Some ((ts3 - ts2) - (ts3 - ts1))
    ∧ Stream.readTimestamp (h0 ++ [bytes]) (ControlMessage.timestamp1 m) = Some ts1
    ∧ Stream.readTimestamp (h0 ++ [bytes]) (ControlMessage.timestamp2 m) = Some ts2
    ∧ ts3 = now env.
Proof.
  intros Hlen Hparse Hcmd Hcount Hnow Hssrc.
  destruct (parseBuffer_synchronization_inv _ _ _ Hlen Hparse Hcmd) as (Ht1 & Ht2 & Ht3).
  pose proof (valid_timestamp h0 bytes 12 ltac:(lia)) as Hv1.
  pose proof (valid_timestamp h0 bytes 20 ltac:(lia)) as Hv2.
  pose proof (valid_timestamp h0 bytes 28 ltac:(lia)) as Hv3.
  destruct (hreadUInt64BE_valid _ _ Hv1 eq_refl) as [ts1 Hts1].
  destruct (hreadUInt64BE_valid _ _ Hv2 eq_refl) as [ts2 Hts2].
  destruct (hwriteUInt64BE_fits _ _ (now env) Hv3 eq_refl Hnow)
    as (h1 & Hw & Hr3 & Hdis & Hval).
  assert (Hr1 : hreadUInt64BE h1 (mkBuf (length h0) 12 8) = Some ts1).
  { rewrite <- Hts1. apply hreadUInt64BE_contents, Hdis. right. left. simpl. lia. }
  assert (Hr2 : hreadUInt64BE h1 (mkBuf (length h0) 20 8) = Some ts2).
  { rewrite <- Hts2. apply hreadUInt64BE_contents, Hdis. right. left. simpl. lia. }
  unfold Stream.handleSynchronization, Stream.sendSynchronization,
    Stream.sendSynchronizationBody.
  rewrite Hcount. simpl. rewrite Ht1, Ht2, Ht3. simpl. rewrite Hw. simpl.
  rewrite Hr3, Hr1. simpl. rewrite Hr2. simpl.
  rewrite logSynchronization_Some;
    [| intros ? [= <-]; rewrite Ht1, Ht2, Ht3; simpl; by rewrite Hr1, Hr2, Hr3
     | intros _; simpl; by rewrite Hr1, Hr2, Hr3].
  simpl.
  destruct (contents_valid h1 _ (Hval _ Hv1)) as (bs1 & Hb1 & Hl1).
  destruct (contents_valid h1 _ (Hval _ Hv2)) as (bs2 & Hb2 & Hl2).
  destruct (contents_valid h1 _ (Hval _ Hv3)) as (bs3 & Hb3 & Hl3).
  unfold sendUdpMessage, ControlMessage_sendable. simpl.
  rewrite (generateBuffer_synchronization h1 _ (session_ssrc env) 2
             (mkBuf (length h0) 12 8) (mkBuf (length h0) 20 8) (mkBuf (length h0) 28 8)
             bs1 bs2 bs3) by first [reflexivity | assumption | lia].
  simpl.
  destruct (Stream.rinfo2 s); exists h1; eexists _, _, ts1, ts2, (now env);
    (split; [reflexivity|]); done.
Qed.

(** Scenario 2 of the specification: the reply with count 1 carries 1000
    and 5000, and the initiator's clock reads 1010. *)
Lemma synchronization_count1_witness :
  ∃ h' s' acts ts1 ts2 ts3,
    Stream.handleSynchronization sample_env ([] ++ [count1_datagram 0]) connected_stream
      count1_message = Some (h', s', acts)
    ∧ Stream.readTimestamp h' (ControlMessage.timestamp1 count1_message) = Some ts1
    ∧ Stream.readTimestamp h' (ControlMessage.timestamp2 count1_message) = Some ts2
    ∧ Stream.readTimestamp h' (ControlMessage.timestamp3 count1_message) = Some ts3
    ∧ Stream.latency s' = Some (ts3 - ts1)
    ∧ Stream.timeDifference s' = Some ((ts3 - ts2) - (ts3 - ts1))
    ∧ Stream.readTimestamp ([] ++ [count1_datagram 0])
        (ControlMessage.timestamp1 count1_message) = Some ts1
    ∧ Stream.readTimestamp ([] ++ [count1_datagram 0])
        (ControlMessage.timestamp2 count1_message) = Some ts2
    ∧ ts3 = now sample_env.
Proof.
  apply (synchronization_count1 sample_env [] (count1_datagram 0) connected_stream
           count1_message);
    [simpl; lia | reflexivity | reflexivity | reflexivity
    | unfold fits32; simpl; lia | unfold fits32; simpl; lia].
Defined.

(** The numbers of scenario 2: [latency = 10], [timeDifference = -4000],
    and the answer carries 1010 as its third timestamp. *)
Lemma scenario_clock_sync :
  ∃ h' s' d,
    Stream.handleSynchronization sample_env [count1_datagram 0] connected_stream
      count1_message = Some (h', s', [Stream.Send d])
    ∧ Stream.latency s' = Some 10
    ∧ Stream.timeDifference s' = Some (-4000)
    ∧ dg_buffer d
      = [0xFF; 0xFF; 0x43; 0x4B; 1; 2; 3; 4; 2; 0; 0; 0;
         0; 0; 0; 0; 0; 0; 3; 232;
         0; 0; 0; 0; 0; 0; 19; 136;
         0; 0; 0; 0; 0; 0; 3; 242].
Proof. eexists _, _, _. repeat split; reflexivity. Qed.

(** The third timestamp the datagram arrived with plays no part: with 1010
    in it and the local time 2000, [latency] is [2000 - 1000]. *)
Lemma received_third_timestamp_unused :
  ControlMessage.parseBuffer [count1_datagram 1010] (mkBuf 0 0 36) = Some count1_message
  ∧ Stream.readTimestamp [count1_datagram 1010]
      (ControlMessage.timestamp3 count1_message) = Some 1010
  ∧ ∃ h' s' acts,
      Stream.handleSynchronization late_env [count1_datagram 1010] connected_stream
        count1_message = Some (h', s', acts)
      ∧ Stream.readTimestamp h' (ControlMessage.timestamp3 count1_message) = Some 2000
      ∧ Stream.latency s' = Some 1000
      ∧ Stream.timeDifference s' = Some (-4000).
Proof.
  repeat (split; [reflexivity|]).
  eexists _, _, _. repeat split; reflexivity.
Qed.

(** C2, amended.  On an incoming synchronization message with count 2
    the stream leaves [latency] and [timeDifference] as they are, and at
    once opens an exchange of its own: it sends to [rinfo2] a
    synchronization message with count 0 whose first timestamp is the
    local time. *)
Theorem synchronization_count2 env h0 bytes s m r :
  (36 ≤ length bytes)%nat →
  ControlMessage.parseBuffer (h0 ++ [bytes]) (mkBuf (length h0) 0 (length bytes)) = Some m →
  ControlMessage.command m = Some synchronization →
  ControlMessage.count m = Some 2 →
  Stream.rinfo2 s = Some r →
  fits32 (now_again env) → fits32 (session_ssrc env) →
  (∀ td, Stream.timeDifference s = Some td → td ≠ 0 → fits32 (now_again env - td)) →
  (∀ l, Stream.latency s = Some l → l ≠ 0 → fits32 (now_again env + l)) →
  ∃ h' s' d answer,
    Stream.handleSynchronization env (h0 ++ [bytes]) s m = Some (h', s', [Stream.Send d])
    ∧ Stream.latency s' = Stream.latency s
    ∧ Stream.timeDifference s' = Stream.timeDifference s
    ∧ dg_port d = port r ∧ dg_address d = address r
    ∧ ControlMessage.parseBuffer [dg_buffer d] (mkBuf 0 0 (length (dg_buffer d)))
      = Some answer
    ∧ ControlMessage.command answer = Some synchronization
    ∧ ControlMessage.count answer = Some 0
    ∧ Stream.readTimestamp [dg_buffer d] (ControlMessage.timestamp1 answer)
      = Some (now_again env).
Proof.
  intros Hlen Hparse Hcmd Hcount Hr Hnow Hssrc Htd Hlat.
  destruct (parseBuffer_synchronization_inv _ _ _ Hlen Hparse Hcmd) as (Ht1 & Ht2 & Ht3).
  pose proof (valid_timestamp h0 bytes 12 ltac:(lia)) as Hv1.
  pose proof (valid_timestamp h0 bytes 20 ltac:(lia)) as Hv2.
  pose proof (valid_timestamp h0 bytes 28 ltac:(lia)) as Hv3.
  destruct (hreadUInt64BE_valid _ _ Hv1 eq_refl) as [i1 Hi1].
  destruct (hreadUInt64BE_valid _ _ Hv2 eq_refl) as [i2 Hi2].
  destruct (hreadUInt64BE_valid _ _ Hv3 eq_refl) as [i3 Hi3].
  set (h := h0 ++ [bytes]) in *.
  set (A := Buffer.alloc 8).
  set (b1 := mkBuf (length h) 0 8).
  set (b2 := mkBuf (length (h ++ [A])) 0 8).
  set (b3 := mkBuf (length ((h ++ [A]) ++ [A])) 0 8).
  assert (Hb1 : valid (((h ++ [A]) ++ [A]) ++ [A]) b1)
    by (apply valid_app, valid_app, valid_fresh; simpl; lia).
  assert (Hb2 : valid (((h ++ [A]) ++ [A]) ++ [A]) b2)
    by (apply valid_app, valid_fresh; simpl; lia).
  assert (Hb3 : valid (((h ++ [A]) ++ [A]) ++ [A]) b3)
    by (apply valid_fresh; simpl; lia).
  assert (D12 : disjoint b1 b2) by (left; simpl; rewrite length_app; simpl; lia).
  assert (D13 : disjoint b1 b3) by (left; simpl; rewrite !length_app; simpl; lia).
  assert (D23 : disjoint b2 b3) by (left; simpl; rewrite !length_app; simpl; lia).
  assert (D21 : disjoint b2 b1) by (left; simpl; rewrite length_app; simpl; lia).
  assert (D31 : disjoint b3 b1) by (left; simpl; rewrite !length_app; simpl; lia).
  assert (D32 : disjoint b3 b2) by (left; simpl; rewrite !length_app; simpl; lia).
  set (v2 := if Stream.truthy (Stream.timeDifference s)
             then now_again env - Buffer.number (Stream.timeDifference s) else 0).
  set (v3 := if Stream.truthy (Stream.latency s)
             then now_again env + Buffer.number (Stream.latency s) else 0).
  assert (Hv2fit : fits32 v2).
  { subst v2. destruct (Stream.timeDifference s) as [td|] eqn:E; simpl;
      [|apply fits32_0].
    destruct (td =? 0) eqn:E0; simpl; [apply fits32_0|].
    apply Htd; [done|]. by apply Z.eqb_neq. }
  assert (Hv3fit : fits32 v3).
  { subst v3. destruct (Stream.latency s) as [l|] eqn:E; simpl;
      [|apply fits32_0].
    destruct (l =? 0) eqn:E0; simpl; [apply fits32_0|].
    apply Hlat; [done|]. by apply Z.eqb_neq. }
  destruct (hwriteUInt64BE_fits _ b1 (now_again env) Hb1 eq_refl Hnow)
    as (h1 & Hw1 & Hr1 & Hd1 & Hval1).
  destruct (hwriteUInt64BE_fits h1 b2 v2 (Hval1 _ Hb2) eq_refl Hv2fit)
    as (h2 & Hw2 & Hr2 & Hd2 & Hval2).
  destruct (hwriteUInt64BE_fits h2 b3 v3 (Hval2 _ (Hval1 _ Hb3)) eq_refl Hv3fit)
    as (h3 & Hw3 & Hr3 & Hd3 & Hval3).
  assert (Hr1' : hreadUInt64BE h3 b1 = Some (now_again env)).
  { rewrite <- Hr1. etrans; [apply hreadUInt64BE_contents, Hd3, D31|].
    apply hreadUInt64BE_contents, Hd2, D21. }
  assert (Hr2' : hreadUInt64BE h3 b2 = Some v2).
  { rewrite <- Hr2. apply hreadUInt64BE_contents, Hd3, D32. }
  destruct (contents_valid h3 b1 (Hval3 _ (Hval2 _ (Hval1 _ Hb1)))) as (bs1 & Hc1 & Hl1).
  destruct (contents_valid h3 b2 (Hval3 _ (Hval2 _ (Hval1 _ Hb2)))) as (bs2 & Hc2 & Hl2).
  destruct (contents_valid h3 b3 (Hval3 _ (Hval2 _ (Hval1 _ Hb3)))) as (bs3 & Hc3 & Hl3).
  unfold Stream.handleSynchronization, Stream.sendSynchronization,
    Stream.sendSynchronizationBody.
  rewrite Hcount. simpl. rewrite Ht1, Ht2, Ht3. simpl.
  rewrite (logSynchronization_Some h (Some m)); [|
    intros ? [= <-]; rewrite Ht1, Ht2, Ht3; simpl; by rewrite Hi1, Hi2, Hi3 | done].
  simpl. fold A b1 b2 b3 v2 v3. rewrite Hw1. simpl. rewrite Hw2. simpl. rewrite Hw3. simpl.
  rewrite logSynchronization_Some; [| done |
    intros _; simpl; fold b1 b2 b3; by rewrite Hr1', Hr2', Hr3].
  simpl. rewrite Hr.
  unfold sendUdpMessage, ControlMessage_sendable. simpl.
  rewrite (generateBuffer_synchronization h3 _ (session_ssrc env) 0 b1 b2 b3 bs1 bs2 bs3)
    by first [reflexivity | assumption | lia].
  simpl.
  destruct (parseBuffer_synchronization []
              (session_ssrc env / 16777216) ((session_ssrc env / 65536) mod 256)
              ((session_ssrc env / 256) mod 256) (session_ssrc env mod 256)
              0 0 0 0 bs1 bs2 bs3 Hl1 Hl2 Hl3) as (Hp & Hpc1 & _).
  eexists _, _, _, _. split; [reflexivity|].
  split; [done|]. split; [done|]. split; [done|]. split; [done|].
  simpl dg_buffer.
  match goal with
  | |- context [mkBuf 0 0 (length ?l)] =>
      replace (length l) with 36%nat
        by (cbn [length]; rewrite !length_app, Hl1, Hl2, Hl3; reflexivity)
  end.
  split; [exact Hp|]. split; [done|]. split; [done|].
  simpl. unfold hreadUInt64BE. simpl in Hpc1. rewrite Hpc1. simpl.
  exact (hreadUInt64BE_Some h3 b1 bs1 _ Hc1 Hr1').
Qed.

Lemma synchronization_count2_witness :
  ∃ h' s' d answer,
    Stream.handleSynchronization sample_env ([] ++ [count2_datagram]) connected_stream
      count2_message = Some (h', s', [Stream.Send d])
    ∧ Stream.latency s' = Stream.latency connected_stream
    ∧ Stream.timeDifference s' = Stream.timeDifference connected_stream
    ∧ dg_port d = 5005 ∧ dg_address d = "10.0.0.2"%string
    ∧ ControlMessage.parseBuffer [dg_buffer d] (mkBuf 0 0 (length (dg_buffer d)))
      = Some answer
    ∧ ControlMessage.command answer = Some synchronization
    ∧ ControlMessage.count answer = Some 0
    ∧ Stream.readTimestamp [dg_buffer d] (ControlMessage.timestamp1 answer)
      = Some 1020.
Proof.
  apply (synchronization_count2 sample_env [] count2_datagram connected_stream
           count2_message (mkRInfo "10.0.0.2" 5005));
    [simpl; lia | reflexivity | reflexivity | reflexivity | reflexivity
    | unfold fits32; simpl; lia | unfold fits32; simpl; lia
    | intros td Htd; discriminate Htd | intros l Hl; discriminate Hl].
Defined.

(** The claim C2 as stated fails: after the message with count 2 the
    stream has computed nothing ([latency] and [timeDifference] are still
    [null]), and it has sent a synchronization message. *)
Lemma synchronization_count2_counterexample :
  ∃ h' s' d,
    Stream.handleSynchronization sample_env [count2_datagram] connected_stream
      count2_message = Some (h', s', [Stream.Send d])
    ∧ Stream.latency s' = None
    ∧ Stream.timeDifference s' = None
    ∧ dg_buffer d
      = [0xFF; 0xFF; 0x43; 0x4B; 1; 2; 3; 4; 0; 0; 0; 0;
         0; 0; 0; 0; 0; 0; 3; 252;
         0; 0; 0; 0; 0; 0; 0; 0;
         0; 0; 0; 0; 0; 0; 0; 0].
Proof. eexists _, _, _. repeat split; reflexivity. Qed.

(** ** The control codec: parsing what was generated *)

Lemma length_bytes_of_string s : length (Buffer.bytes_of_string s) = String.length s.
Proof.
  unfold Buffer.bytes_of_string. rewrite length_fmap.
  induction s as [|c s IH]; simpl; [done | by rewrite IH].
Qed.

Lemma string_of_bytes_of_string s t :
  Buffer.string_of_bytes (Buffer.bytes_of_string s ++ t)
  = String.append s (Buffer.string_of_bytes t).
Proof.
  unfold Buffer.string_of_bytes, Buffer.bytes_of_string.
  induction s as [|c s IH]; simpl; [done|].
  rewrite N2Z.id, ascii_N_embedding. f_equal. exact IH.
Qed.

Lemma write_after_header (pre : list Z) s :
  length pre = 16%nat →
  Buffer.write (pre ++ replicate (S (length (Buffer.bytes_of_string s))) 0) s 16
  = pre ++ Buffer.bytes_of_string s ++ [0].
Proof.
  intros Hpre. unfold Buffer.write, Buffer.copy.
  rewrite length_app, length_replicate, Hpre.
  rewrite take_ge by lia.
  rewrite <- Hpre at 1. rewrite <- (Nat.add_0_r (length pre)).
  rewrite list_inserts_app_r. f_equal.
  rewrite inserts_prefix by (rewrite length_replicate; lia).
  f_equal. rewrite drop_replicate.
  by replace (S (length (Buffer.bytes_of_string s)) - length (Buffer.bytes_of_string s))%nat
    with 1%nat by lia.
Qed.

Lemma terminator_in_place (pre name : list Z) :
  Buffer.writeUInt8 (pre ++ name ++ [0]) 0 (length (pre ++ name ++ [0]) - 1)
  = Some (pre ++ name ++ [0]).
Proof.
  unfold Buffer.writeUInt8. rewrite !length_app. simpl.
  rewrite !bool_decide_true by lia. simpl. f_equal.
  apply list_insert_id. rewrite app_assoc.
  rewrite lookup_app_r by (rewrite length_app; lia).
  rewrite length_app.
  by replace (length pre + (length name + 1) - 1 - (length pre + length name))%nat
    with 0%nat by lia.
Qed.

Lemma generateBuffer_invitation h m c v t x :
  ControlMessage.command m = Some c → namedCommand c →
  ControlMessage.start m = 0xFFFF →
  ControlMessage.version m = v → fits32 v →
  JS.to_number (ControlMessage.token m) = t → fits32 t →
  JS.to_number (ControlMessage.ssrc m) = x → fits32 x →
  ControlMessage.generateBuffer h m
  = Some ([255; 255;
           ControlMessage.commandToByte c / 256; ControlMessage.commandToByte c mod 256;
           v / 16777216; (v / 65536) mod 256; (v / 256) mod 256; v mod 256;
           t / 16777216; (t / 65536) mod 256; (t / 256) mod 256; t mod 256;
           x / 16777216; (x / 65536) mod 256; (x / 256) mod 256; x mod 256]
          ++ Buffer.bytes_of_string (ControlMessage.name m) ++ [0]).
Proof.
  intros Hc Hkind Hs Hv Hvf Ht Htf Hx Hxf. unfold fits32 in *.
  unfold ControlMessage.generateBuffer. rewrite Hc, Hs, Hv, Ht, Hx.
  assert (Hgen : ∀ cb, 0 ≤ cb ≤ 65535 → ∀ last : bool,
    (b ← Buffer.writeUInt16BE (Buffer.alloc (17 + Buffer.byteLength (ControlMessage.name m))) 65535 0;
     b ← Buffer.writeUInt16BE b cb 2;
     b ← Buffer.writeUInt32BE b v 4;
     b ← Buffer.writeUInt32BE b t 8;
     b ← Buffer.writeUInt32BE b x 12;
     let b := Buffer.write b (ControlMessage.name m) 16 in
     if last then Buffer.writeUInt8 b 0 (length b - 1) else Some b)
    = Some ([255; 255; cb / 256; cb mod 256;
           v / 16777216; (v / 65536) mod 256; (v / 256) mod 256; v mod 256;
           t / 16777216; (t / 65536) mod 256; (t / 256) mod 256; t mod 256;
           x / 16777216; (x / 65536) mod 256; (x / 256) mod 256; x mod 256]
          ++ Buffer.bytes_of_string (ControlMessage.name m) ++ [0])).
  { intros cb Hcb last.
    unfold Buffer.byteLength, Buffer.alloc.
    pose proof (length_bytes_of_string (ControlMessage.name m)) as Hlen.
    set (name := Buffer.bytes_of_string (ControlMessage.name m)) in *.
    rewrite <- Hlen. clear Hlen.
    unfold Buffer.writeUInt16BE, Buffer.writeUInt32BE. simpl.
    rewrite !bool_decide_true by (simpl; lia). simpl.
    match goal with
    | |- context [Buffer.write (?a0 :: ?a1 :: ?a2 :: ?a3 :: ?a4 :: ?a5 :: ?a6 :: ?a7
                    :: ?a8 :: ?a9 :: ?a10 :: ?a11 :: ?a12 :: ?a13 :: ?a14 :: ?a15
                    :: 0 :: replicate ?n 0) ?s 16] =>
        change (a0 :: a1 :: a2 :: a3 :: a4 :: a5 :: a6 :: a7
                :: a8 :: a9 :: a10 :: a11 :: a12 :: a13 :: a14 :: a15
                :: 0 :: replicate n 0)
          with ([a0; a1; a2; a3; a4; a5; a6; a7; a8; a9; a10; a11; a12; a13; a14; a15]
                ++ replicate (S n) 0)
    end.
    subst name. rewrite write_after_header by done.
    destruct last; [apply terminator_in_place | done]. }
  destruct Hkind as [-> | [-> | [-> | ->]]].
  - exact (Hgen (ControlMessage.commandToByte invitation) ltac:(simpl; lia) true).
  - exact (Hgen (ControlMessage.commandToByte invitation_accepted) ltac:(simpl; lia) true).
  - exact (Hgen (ControlMessage.commandToByte invitation_rejected) ltac:(simpl; lia) true).
  - exact (Hgen (ControlMessage.commandToByte end_) ltac:(simpl; lia) false).
Qed.



Lemma parseBuffer_invitation h c v0 v1 v2 v3 t0 t1 t2 t3 x0 x1 x2 x3 rest :
  namedCommand c →
  ControlMessage.parseBuffer
    (h ++ [[255; 255;
            ControlMessage.commandToByte c / 256; ControlMessage.commandToByte c mod 256;
            v0; v1; v2; v3; t0; t1; t2; t3; x0; x1; x2; x3] ++ rest])
    (mkBuf (length h) 0 (16 + length rest))
  = Some (ControlMessage.mk true 0xFFFF
            (((v0 * 256 + v1) * 256 + v2) * 256 + v3) (Some c)
            (JS.number (((t0 * 256 + t1) * 256 + t2) * 256 + t3))
            (JS.number (((x0 * 256 + x1) * 256 + x2) * 256 + x3))
            (Buffer.string_of_bytes rest) None None None None None None).
Proof.
  intros Hkind. unfold ControlMessage.parseBuffer.
  change (16 + length rest)%nat
    with (length ([255; 255;
            ControlMessage.commandToByte c / 256; ControlMessage.commandToByte c mod 256;
            v0; v1; v2; v3; t0; t1; t2; t3; x0; x1; x2; x3] ++ rest)).
  rewrite contents_received.
  destruct Hkind as [-> | [-> | [-> | ->]]]; reflexivity.
Qed.

Lemma padding_high p :
  0 ≤ p < 16777216 → Z.shiftr (JS.toUint32 p) (0xF0 mod 32) = p / 65536.
Proof.
  intros Hp. unfold JS.toUint32. rewrite Z.mod_small by lia.
  change (0xF0 mod 32) with 16. by rewrite Z.shiftr_div_pow2.
Qed.

Lemma padding_low p :
  0 ≤ p < 16777216 → Z.land (JS.toInt32 p) 0x00FFFF = p mod 65536.
Proof.
  intros Hp. unfold JS.toInt32. rewrite Z.mod_small by lia.
  replace (p + 2147483648 - 2147483648) with p by lia.
  change 0x00FFFF with (Z.ones 16). by rewrite Z.land_ones.
Qed.

Lemma padding_recompose p :
  0 ≤ p < 16777216 →
  Z.shiftl (p / 65536) (0xF0 mod 32)
  + (p mod 65536 / 256 * 256 + (p mod 65536) mod 256) = p.
Proof.
  intros Hp. change (0xF0 mod 32) with 16. rewrite Z.shiftl_mul_pow2 by lia.
  change (2 ^ 16) with 65536. Z.div_mod_to_equations. lia.
Qed.

Lemma generateBuffer_synchronization_padding h m x n p b1 b2 b3 bs1 bs2 bs3 :
  ControlMessage.command m = Some synchronization →
  ControlMessage.start m = 0xFFFF →
  ControlMessage.ssrc m = JS.number x → fits32 x →
  ControlMessage.count m = Some n → 0 ≤ n ≤ 255 →
  ControlMessage.padding m = Some p → 0 ≤ p < 16777216 →
  ControlMessage.timestamp1 m = Some b1 → contents h b1 = Some bs1 → length bs1 = 8%nat →
  ControlMessage.timestamp2 m = Some b2 → contents h b2 = Some bs2 → length bs2 = 8%nat →
  ControlMessage.timestamp3 m = Some b3 → contents h b3 = Some bs3 → length bs3 = 8%nat →
  ControlMessage.generateBuffer h m
  = Some ([255; 255; 0x43; 0x4B;
           x / 16777216; (x / 65536) mod 256; (x / 256) mod 256; x mod 256;
           n; p / 65536; p mod 65536 / 256; (p mod 65536) mod 256]
          ++ bs1 ++ bs2 ++ bs3).
Proof.
  intros Hc Hs Hx Hfit Hn Hnr Hp Hpr Ht1 Hb1 Hl1 Ht2 Hb2 Hl2 Ht3 Hb3 Hl3.
  unfold fits32 in Hfit.
  unfold ControlMessage.generateBuffer.
  rewrite Hc, Hs, Hx, Hn, Hp, Ht1, Ht2, Ht3.
  unfold Buffer.number. simpl default.
  rewrite padding_high, padding_low by done.
  pose proof (Z.div_lt_upper_bound p 65536 256 ltac:(lia) ltac:(lia)).
  pose proof (Z.div_pos p 65536 ltac:(lia) ltac:(lia)).
  pose proof (Z.mod_pos_bound p 65536 ltac:(lia)).
  unfold Buffer.writeUInt16BE, Buffer.writeUInt32BE, Buffer.writeUInt8. simpl.
  rewrite !bool_decide_true by lia. simpl.
  rewrite Hb1. simpl. rewrite Hb2. simpl. rewrite Hb3. simpl.
  do 8 (destruct bs1 as [|? bs1]; [simpl in Hl1; lia|]).
  do 8 (destruct bs2 as [|? bs2]; [simpl in Hl2; lia|]).
  do 8 (destruct bs3 as [|? bs3]; [simpl in Hl3; lia|]).
  destruct bs1; [|simpl in Hl1; lia].
  destruct bs2; [|simpl in Hl2; lia].
  destruct bs3; [|simpl in Hl3; lia].
  reflexivity.
Qed.

(** C5, amended.  For every control message whose command is invitation,
    invitation_accepted, invitation_rejected, end, synchronization or
    receiver_feedback, whose magic is 0xFFFF and whose command-specific
    numeric fields are set and fit their place in the packet,
    [generateBuffer] succeeds, and parsing the generated buffer yields a
    valid message with the same command and the same numeric
    command-specific fields: version, token and SSRC; or SSRC, count,
    padding and the bytes of the three timestamps; or SSRC and sequence
    number. *)
Theorem parse_generate h c :
  wellFormed h c →
  ∃ bytes c',
    ControlMessage.generateBuffer h c = Some bytes
    ∧ ControlMessage.parseBuffer (h ++ [bytes]) (mkBuf (length h) 0 (length bytes))
      = Some c'
    ∧ restored h c (h ++ [bytes]) c'.
Proof.
  intros [Hstart Hfields]. unfold restored.
  destruct (ControlMessage.command c) as [cmd|] eqn:Hcmd; [|done].
  assert (Hnamed :
    namedCommand cmd →
    fits32 (ControlMessage.version c)
    ∧ (∃ t, ControlMessage.token c = JS.number t ∧ fits32 t)
    ∧ (∃ x, ControlMessage.ssrc c = JS.number x ∧ fits32 x) →
    ∃ bytes c',
      ControlMessage.generateBuffer h c = Some bytes
      ∧ ControlMessage.parseBuffer (h ++ [bytes]) (mkBuf (length h) 0 (length bytes))
        = Some c'
      ∧ ControlMessage.isValid c' = true ∧ ControlMessage.command c' = Some cmd
      ∧ ControlMessage.version c' = ControlMessage.version c
      ∧ ControlMessage.token c' = ControlMessage.token c
      ∧ ControlMessage.ssrc c' = ControlMessage.ssrc c).
  { intros Hkind (Hv & (t & Ht & Htf) & (x & Hx & Hxf)).
    eexists _, _. split.
    { exact (generateBuffer_invitation h c cmd _ t x Hcmd Hkind Hstart eq_refl Hv
               (f_equal JS.to_number Ht) Htf (f_equal JS.to_number Hx) Hxf). }
    split.
    { rewrite length_app. apply parseBuffer_invitation. exact Hkind. }
    simpl. rewrite Ht, Hx. unfold fits32 in *.
    rewrite !byte_recompose by lia. done. }
  destruct cmd.
  - apply Hnamed; [left; done | done].
  - apply Hnamed; [right; right; left; done | done].
  - apply Hnamed; [right; left; done | done].
  - apply Hnamed; [right; right; right; done | done].
  - destruct Hfields as ((x & Hx & Hxf) & (n & Hn & Hnr) & (p & Hp & Hpr)
                         & (b1 & bs1 & Ht1 & Hb1 & Hl1)
                         & (b2 & bs2 & Ht2 & Hb2 & Hl2)
                         & (b3 & bs3 & Ht3 & Hb3 & Hl3)).
    eexists _, _. split.
    { eapply generateBuffer_synchronization_padding; eassumption. }
    destruct (parseBuffer_synchronization h
                (x / 16777216) ((x / 65536) mod 256) ((x / 256) mod 256) (x mod 256)
                n (p / 65536) (p mod 65536 / 256) ((p mod 65536) mod 256)
                bs1 bs2 bs3 Hl1 Hl2 Hl3) as (Hparse & Hc1 & Hc2 & Hc3).
    split.
    { match goal with
      | |- context [mkBuf _ 0 (length ?l)] =>
          replace (length l) with 36%nat
            by (rewrite !length_app, Hl1, Hl2, Hl3; reflexivity)
      end.
      exact Hparse. }
    simpl. rewrite Hx, Hn, Hp, Ht1, Ht2, Ht3. simpl. simpl in Hc1, Hc2, Hc3.
    rewrite Hc1, Hc2, Hc3, Hb1, Hb2, Hb3. unfold fits32 in Hxf.
    rewrite byte_recompose by lia. rewrite padding_recompose by done. done.
  - destruct Hfields as ((x & Hx & Hxf) & (q & Hq & Hqr)).
    eexists _, _. split.
    { eapply generateBuffer_receiver_feedback; eassumption. }
    split.
    { apply (parseBuffer_receiver_feedback h _ _ _ _ _ _ [0; 0]). }
    simpl. rewrite Hx, Hq. unfold fits32 in Hxf.
    rewrite byte_recompose by lia. rewrite u16_recompose. done.
  - done.
Qed.

Lemma parse_generate_witness :
  ∃ bytes c',
    ControlMessage.generateBuffer [count1_datagram 0] count1_message = Some bytes
    ∧ ControlMessage.parseBuffer ([count1_datagram 0] ++ [bytes])
        (mkBuf (length [count1_datagram 0]) 0 (length bytes)) = Some c'
    ∧ restored [count1_datagram 0] count1_message ([count1_datagram 0] ++ [bytes]) c'.
Proof.
  apply (parse_generate [count1_datagram 0] count1_message).
  split; [reflexivity|]. simpl. unfold timestampField, fits32.
  split; [exists 0x05060708; split; [reflexivity | lia]|].
  split; [exists 1; split; [reflexivity | lia]|].
  split; [exists 0; split; [reflexivity | lia]|].
  repeat split; eexists _, _; repeat split; reflexivity.
Defined.

(** X2.  The name of a generated invitation, acceptance, rejection or
    [end] packet does not come back as it was: [parseBuffer] returns it
    with the terminator that [generateBuffer] has put behind it (for
    [end], the zero byte the buffer was allocated with). *)
Lemma generated_name_parsed h c cmd :
  wellFormed h c →
  ControlMessage.command c = Some cmd → namedCommand cmd →
  ∃ bytes c',
    ControlMessage.generateBuffer h c = Some bytes
    ∧ ControlMessage.parseBuffer (h ++ [bytes]) (mkBuf (length h) 0 (length bytes))
      = Some c'
    ∧ ControlMessage.name c'
      = String.append (ControlMessage.name c) (String Ascii.zero EmptyString).
Proof.
  intros [Hstart Hfields] Hcmd Hkind. rewrite Hcmd in Hfields.
  assert (Hf : fits32 (ControlMessage.version c)
    ∧ (∃ t, ControlMessage.token c = JS.number t ∧ fits32 t)
    ∧ (∃ x, ControlMessage.ssrc c = JS.number x ∧ fits32 x))
    by (destruct Hkind as [-> | [-> | [-> | ->]]]; exact Hfields).
  destruct Hf as (Hv & (t & Ht & Htf) & (x & Hx & Hxf)).
  eexists _, _. split.
  { exact (generateBuffer_invitation h c cmd _ t x Hcmd Hkind Hstart eq_refl Hv
             (f_equal JS.to_number Ht) Htf (f_equal JS.to_number Hx) Hxf). }
  split.
  { rewrite length_app. apply parseBuffer_invitation. exact Hkind. }
  simpl. apply string_of_bytes_of_string.
Qed.

Lemma generated_name_parsed_witness :
  ∃ bytes c',
    ControlMessage.generateBuffer [] invitation_from_peer = Some bytes
    ∧ ControlMessage.parseBuffer [bytes] (mkBuf 0 0 (length bytes)) = Some c'
    ∧ ControlMessage.name c' = String "B" (String Ascii.zero EmptyString).
Proof.
  apply (generated_name_parsed [] invitation_from_peer invitation).
  - split; [reflexivity|]. simpl. unfold fits32.
    split; [lia|]. split; eexists; (split; [reflexivity | lia]).
  - reflexivity.
  - left. reflexivity.
Defined.

(** The claim C5 as stated fails twice: the name "B" of an invitation
    comes back as "B" followed by a NUL character, and a
    [bitrate_receive_limit] message is generated as an empty buffer, which
    cannot be parsed. *)
Lemma parse_generate_counterexample :
  (∃ bytes c',
     ControlMessage.generateBuffer [] invitation_from_peer = Some bytes
     ∧ ControlMessage.parseBuffer [bytes] (mkBuf 0 0 (length bytes)) = Some c'
     ∧ ControlMessage.name c' = String "B" (String Ascii.zero EmptyString)
     ∧ ControlMessage.name c' ≠ ControlMessage.name invitation_from_peer)
  ∧ ControlMessage.generateBuffer [] bitrate_message = Some []
  ∧ ControlMessage.parseBuffer [[]] (mkBuf 0 0 0) = None.
Proof.
  split; [|split; reflexivity].
  eexists _, _. split; [reflexivity|]. split; [reflexivity|].
  split; [reflexivity | discriminate].
Qed.

(** ** The 64-bit helpers on values outside the 32-bit range *)

(** The number of digits of the hexadecimal text. *)
Lemma hex_digits_width fuel : ∀ n acc,
  (0 < fuel)%nat →
  0 ≤ n < 16 ^ Z.of_nat fuel →
  ∃ k : nat, (1 ≤ k)%nat ∧ (k = 1%nat ∨ 16 ^ (Z.of_nat k - 1) ≤ n) ∧ n < 16 ^ Z.of_nat k ∧
    String.length (hex_digits fuel n acc) = (k + String.length acc)%nat.
Proof.
  induction fuel as [|fuel IH]; intros n acc Hfuel Hn; [lia|].
  simpl hex_digits. destruct (n <? 16) eqn:Hlt.
  - apply Z.ltb_lt in Hlt. exists 1%nat.
    split; [lia|]. split; [by left|]. split; [simpl; lia | reflexivity].
  - apply Z.ltb_ge in Hlt.
    assert (Hq : 0 ≤ n / 16 < 16 ^ Z.of_nat fuel).
    { split; [apply Z.div_pos; lia|].
      apply Z.div_lt_upper_bound; [lia|].
      replace (16 * 16 ^ Z.of_nat fuel) with (16 ^ Z.of_nat (S fuel)); [lia|].
      rewrite Nat2Z.inj_succ, Z.pow_succ_r; lia. }
    assert (Hpos : (0 < fuel)%nat).
    { destruct fuel; [|lia]. simpl in Hq.
      pose proof (Z.div_le_mono 16 n 16 ltac:(lia) Hlt) as Hd.
      rewrite Z.div_same in Hd; lia. }
    destruct (IH (n / 16) (String (hex_char (n mod 16)) acc) Hpos Hq)
      as (k & Hk & Hlow & Hup & Hlen).
    exists (S k). split; [lia|]. split; [|split].
    + right. replace (Z.of_nat (S k) - 1) with (Z.succ (Z.of_nat k - 1)) by lia.
      rewrite Z.pow_succ_r by lia.
      destruct Hlow as [-> | Hlow]; [simpl; lia|].
      pose proof (Z.mul_div_le n 16). lia.
    + rewrite Nat2Z.inj_succ, Z.pow_succ_r by lia.
      pose proof (Z.div_mod n 16). pose proof (Z.mod_pos_bound n 16). lia.
    + rewrite Hlen. simpl. lia.
Qed.

(** The text of a negative number above [-16^7], padded and cut: the
    minus sign is still in it. *)
Lemma slice8_pad_negative v :
  -268435456 < v < 0 →
  ∃ (k : nat) digits,
    (1 ≤ k ≤ 7)%nat ∧ (k = 1%nat ∨ 16 ^ (Z.of_nat k - 1) ≤ - v) ∧ - v < 16 ^ Z.of_nat k
    ∧ parse_digits digits None = Some (- v)
    ∧ slice8 (pad (toString16 v) 16)
      = String.append (zeros (7 - k)) (String "-"%char digits).
Proof.
  intros Hv. unfold toString16.
  destruct (v <? 0) eqn:Hneg; [|apply Z.ltb_ge in Hneg; lia].
  remember (S (Z.to_nat (Z.log2 (- v)))) as fuel eqn:Efuel.
  assert (Hfuel : 0 ≤ - v < 16 ^ Z.of_nat fuel).
  { split; [lia|]. subst fuel. rewrite Nat2Z.inj_succ, Z2Nat.id by apply Z.log2_nonneg.
    pose proof (Z.log2_spec (- v) ltac:(lia)) as [_ Hup].
    eapply Z.lt_le_trans; [exact Hup|].
    apply Z.pow_le_mono_l. lia. }
  assert (Hpos : (0 < fuel)%nat) by (subst fuel; lia).
  destruct (hex_digits_width fuel (- v) EmptyString Hpos Hfuel)
    as (k & Hk & Hlow & Hup & Hlen).
  destruct (parse_digits_hex_digits fuel (- v) EmptyString None Hpos Hfuel)
    as (k' & _ & _ & Hlen' & Hparse).
  assert (k' = k) as -> by lia.
  assert (Hk7 : (k ≤ 7)%nat).
  { destruct Hlow as [-> | Hlow]; [lia|].
    destruct (decide (k ≤ 7)%nat) as [|Hgt]; [done|].
    assert (16 ^ 7 ≤ 16 ^ (Z.of_nat k - 1)) by (apply Z.pow_le_mono_r; lia).
    change (16 ^ 7) with 268435456 in *. lia. }
  exists k, (hex_digits fuel (- v) EmptyString).
  split; [lia|]. split; [done|]. split; [done|]. split.
  { rewrite Hparse. simpl. f_equal. lia. }
  simpl in Hlen.
  unfold pad, slice8. rewrite string_length_append, string_length_zeros.
  cbn [String.length]. rewrite Hlen.
  replace (16 - S (k + 0))%nat with (8 + (7 - k))%nat by lia.
  rewrite substring_zeros.
  replace (8 + (7 - k) + S (k + 0) - 8)%nat
    with (String.length (String.append (zeros (7 - k))
            (String "-"%char (hex_digits fuel (- v) EmptyString))))
    by (rewrite string_length_append, string_length_zeros; cbn [String.length];
        rewrite Hlen; lia).
  apply substring_all.
Qed.

(** X3.  [writeUInt64BE] followed by [readUInt64BE] gives back every
    value below 2^32: the first four bytes of the buffer are zero, the
    next four hold the value, and the bytes after the eighth are left
    alone. *)
Theorem writeUInt64BE_readUInt64BE bs v :
  (8 ≤ length bs)%nat → 0 ≤ v < 4294967296 →
  ∃ bs', writeUInt64BE bs v = Some bs'
    ∧ readUInt64BE bs' = Some v
    ∧ take 4 bs' = [0; 0; 0; 0]
    ∧ drop 8 bs' = drop 8 bs.
Proof.
  intros Hlen Hv. unfold writeUInt64BE.
  rewrite parseInt16_toString16 by done.
  do 8 (destruct bs as [|? bs]; [simpl in Hlen; lia|]).
  unfold Buffer.number, Buffer.writeUInt32BE. simpl default.
  rewrite !bool_decide_true by (simpl; lia). simpl.
  rewrite ?bool_decide_true by (simpl; lia). simpl.
  eexists; split; [done|]. split; [|done].
  unfold readUInt64BE, Buffer.readUInt32BE. simpl. f_equal.
  apply byte_recompose. lia.
Qed.

Lemma writeUInt64BE_readUInt64BE_witness :
  ∃ bs', writeUInt64BE [9; 9; 9; 9; 9; 9; 9; 9; 7] 1010 = Some bs'
    ∧ readUInt64BE bs' = Some 1010
    ∧ take 4 bs' = [0; 0; 0; 0]
    ∧ drop 8 bs' = drop 8 [9; 9; 9; 9; 9; 9; 9; 9; 7].
Proof.
  apply (writeUInt64BE_readUInt64BE [9; 9; 9; 9; 9; 9; 9; 9; 7] 1010); simpl; lia.
Defined.

(** X4.  A negative value above [-16^6] is written as zero: the padded
    text keeps its minus sign behind the zeros, and [parseInt] stops at
    it. *)
Theorem writeUInt64BE_small_negative bs v :
  (8 ≤ length bs)%nat → -16777216 < v < 0 →
  ∃ bs', writeUInt64BE bs v = Some bs' ∧ readUInt64BE bs' = Some 0.
Proof.
  intros Hlen Hv.
  destruct (slice8_pad_negative v ltac:(lia)) as (k & digits & Hk & Hlow & Hup & _ & Hs).
  assert (Hk6 : (k ≤ 6)%nat).
  { destruct Hlow as [-> | Hlow]; [lia|].
    destruct (decide (k ≤ 6)%nat) as [|Hgt]; [done|].
    assert (16 ^ 6 ≤ 16 ^ (Z.of_nat k - 1)) by (apply Z.pow_le_mono_r; lia).
    change (16 ^ 6) with 16777216 in *. lia. }
  assert (Hparse : parseInt16 (slice8 (pad (toString16 v) 16)) = Some 0).
  { rewrite Hs. destruct (7 - k)%nat as [|j] eqn:Hj; [lia|].
    change (zeros (S j)) with (String "0"%char (zeros j)).
    simpl String.append. rewrite parseInt16_digit by done.
    change (String "0"%char (String.append (zeros j) ?s))
      with (String.append (zeros (S j)) s).
    rewrite parse_digits_zeros by done. reflexivity. }
  destruct (writeUInt64BE_fits bs 0 Hlen fits32_0) as (bs' & Hw & _ & Hr).
  exists bs'. split; [|done].
  unfold writeUInt64BE in *. rewrite Hparse.
  rewrite parseInt16_toString16 in Hw by lia. exact Hw.
Qed.

Lemma writeUInt64BE_small_negative_witness :
  ∃ bs', writeUInt64BE [0; 0; 0; 0; 0; 0; 3; 232] (-4000) = Some bs'
    ∧ readUInt64BE bs' = Some 0.
Proof.
  apply (writeUInt64BE_small_negative [0; 0; 0; 0; 0; 0; 3; 232] (-4000)); simpl; lia.
Defined.

(** X5.  A negative value from [-16^7] (excluded) to [-16^6] throws: its
    text with the minus sign fills the eight characters [parseInt] is
    given, and [writeUInt32BE] rejects the negative number. *)
Theorem writeUInt64BE_negative_throws bs v :
  -268435456 < v ≤ -16777216 → writeUInt64BE bs v = None.
Proof.
  intros Hv.
  destruct (slice8_pad_negative v ltac:(lia)) as (k & digits & Hk & Hlow & Hup & Hd & Hs).
  assert (k = 7%nat) as ->.
  { destruct (decide (k = 7%nat)) as [|Hne]; [done|].
    assert (16 ^ Z.of_nat k ≤ 16 ^ 6) by (apply Z.pow_le_mono_r; lia).
    change (16 ^ 6) with 16777216 in *. lia. }
  unfold writeUInt64BE. rewrite Hs. simpl zeros. simpl String.append.
  change (parseInt16 (String "-"%char digits)) with (Z.opp <$> parse_digits digits None).
  rewrite Hd. simpl.
  destruct (Buffer.writeUInt32BE bs 0 0) as [b|]; [|done]. simpl.
  unfold Buffer.writeUInt32BE. rewrite bool_decide_false by lia. done.
Qed.

Lemma writeUInt64BE_negative_throws_witness :
  writeUInt64BE [0; 0; 0; 0; 0; 0; 0; 0] (-20000000) = None.
Proof.
  apply (writeUInt64BE_negative_throws [0; 0; 0; 0; 0; 0; 0; 0] (-20000000)); lia.
Defined.

(** ** The list of lost packets *)

Lemma transition_lost s s' :
  transition s s' →
  Stream.lostSequenceNumbers s `prefix_of` Stream.lostSequenceNumbers s'.
Proof.
  destruct 1 as [ s rinfo | env h s s' acts Hstep
                | env h s m rinfo h' s' acts Hstep | s m
                | env h s h' s' acts Hstep | env h s s' acts Hstep
                | gdl env s ts cs s' acts Hstep
                | env h s s' acts Hstep | s ].
  - done.
  - unfold Stream.connectionIntervalFires, Stream.sendInvitation in Hstep.
    handler_cases Hstep; simpl in *; done.
  - unfold Stream.handleControlMessage in Hstep.
    destruct (ControlMessage.command m) as [c|]; [|done]. simpl in Hstep.
    destruct c.
    + unfold Stream.handleInvitation, Stream.sendInvitationAccepted in Hstep.
      handler_cases Hstep; simpl in *; done.
    + unfold Stream.handleInvitationRejected in Hstep.
      handler_cases Hstep; simpl in *; done.
    + unfold Stream.handleInvitationAccepted, Stream.sendInvitation in Hstep.
      handler_cases Hstep; simpl in *; done.
    + unfold Stream.handleEnd in Hstep. handler_cases Hstep; simpl in *; done.
    + unfold Stream.handleSynchronization in Hstep.
      destruct (Stream.sendSynchronization env h s (Some m))
        as [[[h1 s1] a1]|] eqn:Hsync; [|done].
      apply sendSynchronization_same in Hsync as (_ & _ & _ & _ & _ & Hl & _).
      simplify_option_eq. by rewrite Hl.
    + unfold Stream.handleReceiverFeedback in Hstep.
      handler_cases Hstep; simpl in *; done.
    + handler_cases Hstep; simpl in *; done.
  - unfold Stream.handleMidiMessage. case_match; simpl; [|done].
    by apply prefix_app_r.
  - unfold Stream.syncIntervalFires in Hstep.
    destruct (Stream.syncInterval s) as [[count|]|]; simplify_option_eq; try done.
    + destruct (Stream.sendSynchronization env h s None)
        as [[[h1 s1] a1]|] eqn:Hsync; [|done].
      apply sendSynchronization_same in Hsync as (_ & _ & _ & _ & _ & Hl & _).
      simplify_option_eq. case_match; simpl; by rewrite Hl.
    + apply sendSynchronization_same in Hstep as (_ & _ & _ & _ & _ & Hl & _).
      by rewrite Hl.
  - unfold Stream.receiverFeedbackTimeoutFires, Stream.sendReceiverFeedback in Hstep.
    handler_cases Hstep; simpl in *; done.
  - unfold Stream.sendMessage in Hstep. handler_cases Hstep; simpl in *; done.
  - unfold Stream.end', Stream.sendEndstream in Hstep.
    handler_cases Hstep; simpl in *; done.
  - done.
Qed.

(** X6.  Whatever a stream does, the list of lost sequence numbers is
    only ever extended at its end: no handler, timer or call removes an
    entry from it. *)
Theorem lostSequenceNumbers_never_shrink s s' :
  run s s' →
  Stream.lostSequenceNumbers s `prefix_of` Stream.lostSequenceNumbers s'.
Proof.
  induction 1 as [s | s1 s2 s3 Hstep _ IH]; [done|].
  etrans; [by apply transition_lost | exact IH].
Qed.

Lemma lostSequenceNumbers_never_shrink_witness :
  run after_10_11 (Stream.handleMidiMessage after_10_11 packet_15).1
  ∧ Stream.lostSequenceNumbers after_10_11
    `prefix_of` Stream.lostSequenceNumbers (Stream.handleMidiMessage after_10_11 packet_15).1.
Proof.
  assert (Hrun : run after_10_11 (Stream.handleMidiMessage after_10_11 packet_15).1)
    by (eapply run_step; [apply step_midi | apply run_done]).
  split; [exact Hrun|].
  exact (lostSequenceNumbers_never_shrink _ _ Hrun).
Defined.

(** ** What clock synchronization sends *)

Lemma sendUdpMessage_sentTo r m ds :
  sendUdpMessage r m = Some ds → sentTo r (Stream.sends ds).
Proof.
  unfold sendUdpMessage. intros H.
  handler_cases H; simpl; try (by left); right; eexists _, _; by repeat split.
Qed.

Lemma sendSynchronizationBody_sentTo env again now h s incoming h' s' acts :
  (∀ h1 s1 h2 s2 a, again h1 s1 = Some (h2, s2, a) → sentTo (Stream.rinfo2 s1) a) →
  Stream.sendSynchronizationBody env again now h s incoming = Some (h', s', acts) →
  sentTo (Stream.rinfo2 s) acts.
Proof.
  intros Hagain Hbody. unfold Stream.sendSynchronizationBody in Hbody.
  cbn [halloc] in Hbody.
  repeat (first [ progress simplify_option_eq
                | case_match
                | match goal with
                  | H : (?x ≫= _) = Some _ |- _ =>
                      destruct x eqn:?; simpl in H; [|discriminate]
                  end ]);
    first [ by eapply sendUdpMessage_sentTo
          | by eapply (Hagain _ _ _ _ _ ltac:(eassumption)) ].
Qed.

(** X7.  A round of clock synchronization, started by the timer or by a
    packet of the peer, leaves the token, the SSRC, both addresses, the
    connection flag and the loss bookkeeping of the stream alone, emits
    no event and sends at most one datagram, to the data address. *)
Theorem synchronization_keeps_connection env h s incoming h' s' acts :
  Stream.sendSynchronization env h s incoming = Some (h', s', acts) →
  sameConnection s s' ∧ sentTo (Stream.rinfo2 s) acts.
Proof.
  intros Hsync. split; [by eapply sendSynchronization_same|].
  revert Hsync. unfold Stream.sendSynchronization.
  apply sendSynchronizationBody_sentTo.
  intros h1 s1 h2 s2 a. apply sendSynchronizationBody_sentTo. discriminate.
Qed.

Lemma synchronization_keeps_connection_witness :
  ∃ h' s' acts,
    Stream.sendSynchronization sample_env [count1_datagram 0] connected_stream
      (Some count1_message) = Some (h', s', acts)
    ∧ sameConnection connected_stream s'
    ∧ sentTo (Stream.rinfo2 connected_stream) acts.
Proof.
  eexists _, _, _. split; [reflexivity|].
  eapply (synchronization_keeps_connection sample_env [count1_datagram 0]
            connected_stream (Some count1_message)).
  reflexivity.
Defined.

(** ** The two addresses of a stream *)

(** X8.  In every state a stream can reach, a connected stream knows the
    control address of its peer, and so does a stream that knows the data
    address. *)
Theorem reachable_control_address s :
  reachable s →
  (Stream.isConnected s = true → Stream.rinfo1 s ≠ None)
  ∧ (Stream.rinfo2 s ≠ None → Stream.rinfo1 s ≠ None).
Proof.
  intros Hs. split; intros H1 H2;
    destruct (reachable_rinfo_order s Hs H2) as [Hr2 Hc]; congruence.
Qed.

Lemma reachable_control_address_witness :
  reachable connected_stream
  ∧ (Stream.isConnected connected_stream = true → Stream.rinfo1 connected_stream ≠ None)
  ∧ (Stream.rinfo2 connected_stream ≠ None → Stream.rinfo1 connected_stream ≠ None).
Proof.
  assert (Hs : reachable connected_stream).
  { eapply (reach_control sample_env [] half_open_stream invitation_from_peer
              (mkRInfo "10.0.0.2" 5005)); [|reflexivity].
    eapply (reach_control sample_env [] (Stream.new sample_env)
              invitation_from_peer sample_peer); [apply reach_new | reflexivity]. }
  split; [exact Hs|]. exact (reachable_control_address connected_stream Hs).
Defined.

(** ** Datagrams that are too short *)

Lemma readUInt32BE_short bs o : (length bs < o + 4)%nat → Buffer.readUInt32BE bs o = None.
Proof.
  intros Hlen. unfold Buffer.readUInt32BE.
  assert (bs !! (o + 3)%nat = None) as Hlast by (apply lookup_ge_None; lia).
  destruct (bs !! o); simpl; [|done].
  destruct (bs !! (o + 1)%nat); simpl; [|done].
  destruct (bs !! (o + 2)%nat); simpl; [|done].
  by rewrite Hlast.
Qed.

Lemma readUInt16BE_short bs o : (length bs < o + 2)%nat → Buffer.readUInt16BE bs o = None.
Proof.
  intros Hlen. unfold Buffer.readUInt16BE.
  assert (bs !! (o + 1)%nat = None) as Hlast by (apply lookup_ge_None; lia).
  destruct (bs !! o); simpl; [|done]. by rewrite Hlast.
Qed.

(** X9.  A control datagram that is shorter than the fixed part of its
    command makes [handleMessage] throw, whatever the session holds:
    16 bytes for the four session commands, 12 for a synchronization and
    10 for a receiver feedback. *)
Theorem truncated_control_packet_throws
    parseMidi now now_again randomToken randomSequenceNr s bytes rinfo code c :
  Buffer.readUInt16BE bytes 0 = Some 0xFFFF →
  Buffer.readUInt16BE bytes 2 = Some code →
  ControlMessage.byteToCommand code = Some c →
  (namedCommand c ∧ (length bytes < 16)%nat)
  ∨ (c = synchronization ∧ (length bytes < 12)%nat)
  ∨ (c = receiver_feedback ∧ (length bytes < 10)%nat) →
  Session.handleMessage parseMidi now now_again randomToken randomSequenceNr
    s bytes rinfo = None.
Proof.
  intros Hstart Hcode Hc Hshort.
  unfold Session.handleMessage, hreceive. cbn [length app].
  assert (Hparse : ControlMessage.parseBuffer [bytes] (mkBuf 0 0 (length bytes)) = None).
  { unfold ControlMessage.parseBuffer.
    pose proof (contents_received [] bytes) as Hcontents. simpl in Hcontents.
    rewrite Hcontents. simpl. rewrite Hstart. simpl. rewrite Hcode. simpl. rewrite Hc.
    destruct Hshort as [[Hnamed Hlen] | [[-> Hlen] | [-> Hlen]]].
    - assert (Buffer.readUInt32BE bytes 12 = None) as Hlast
        by (apply readUInt32BE_short; lia).
      destruct Hnamed as [-> | [-> | [-> | ->]]];
        (destruct (Buffer.readUInt32BE bytes 4); simpl; [|done];
         destruct (Buffer.readUInt32BE bytes 8); simpl; [|done];
         by rewrite Hlast).
    - assert (Buffer.readUInt16BE bytes 10 = None) as Hlast
        by (apply readUInt16BE_short; lia).
      destruct (Buffer.readUInt32BE bytes 4); simpl; [|done].
      destruct (Buffer.readUInt8 bytes 8); simpl; [|done].
      destruct (Buffer.readUInt8 bytes 9); simpl; [|done].
      by rewrite Hlast.
    - assert (Buffer.readUInt16BE bytes 8 = None) as Hlast
        by (apply readUInt16BE_short; lia).
      destruct (Buffer.readUInt32BE bytes 4); simpl; [|done].
      by rewrite Hlast. }
  by rewrite Hparse.
Qed.

Lemma truncated_control_packet_throws_witness :
  Session.handleMessage (λ _, None) 1010 1020 7 7 sample_session
    [0xFF; 0xFF; 0x42; 0x59; 0; 0; 0; 2; 0xAA; 0xBB; 0xCC; 0xDD] sample_peer = None.
Proof.
  apply (truncated_control_packet_throws (λ _, None) 1010 1020 7 7 sample_session
           [0xFF; 0xFF; 0x42; 0x59; 0; 0; 0; 2; 0xAA; 0xBB; 0xCC; 0xDD] sample_peer
           0x4259 end_);
    [reflexivity | reflexivity | reflexivity |].
  left. split; [by do 3 right | simpl; lia].
Defined.

Lemma hreadUInt64BE_short h b : (len b < 8)%nat → hreadUInt64BE h b = None.
Proof.
  intros Hlen. unfold hreadUInt64BE, contents.
  destruct (h !! base b) as [blk|]; [|done]. simpl.
  apply readUInt32BE_short. rewrite length_take. lia.
Qed.

(** X10.  A synchronization datagram of fewer than 36 bytes is parsed,
    but the stream it is handed to throws: the third timestamp is a
    window of fewer than eight bytes, and every path of
    [sendSynchronization] reads it. *)
Theorem truncated_synchronization_throws env h0 bytes s m rinfo :
  (length bytes < 36)%nat →
  ControlMessage.parseBuffer (h0 ++ [bytes]) (mkBuf (length h0) 0 (length bytes)) = Some m →
  ControlMessage.command m = Some synchronization →
  Stream.handleControlMessage env (h0 ++ [bytes]) s m rinfo = None.
Proof.
  intros Hlen Hparse Hcmd.
  assert (Hts : ∃ b, ControlMessage.timestamp3 m = Some b ∧ (len b < 8)%nat).
  { unfold ControlMessage.parseBuffer in Hparse.
    rewrite contents_received in Hparse. simpl in Hparse.
    handler_cases Hparse; simpl in *; try done.
    eexists; split; [done|]. unfold slice. cbn [len]. lia. }
  destruct Hts as (b3 & Hb3 & Hshort).
  unfold Stream.handleControlMessage. rewrite Hcmd. simpl.
  unfold Stream.handleSynchronization, Stream.sendSynchronization.
  destruct (Stream.sendSynchronizationBody _ _ _ _ _ _) as [[[h1 s1] a1]|] eqn:Hbody;
    [exfalso|done].
  unfold Stream.sendSynchronizationBody in Hbody. cbn [halloc] in Hbody.
  assert (Hlog : ∀ h answer, Stream.logSynchronization h (Some m) answer = None).
  { intros h answer. unfold Stream.logSynchronization.
    destruct (Stream.readTimestamp h (ControlMessage.timestamp1 m)); simpl; [|done].
    destruct (Stream.readTimestamp h (ControlMessage.timestamp2 m)); simpl; [|done].
    unfold Stream.readTimestamp at 1. rewrite Hb3. simpl.
    by rewrite hreadUInt64BE_short. }
  repeat (first [ progress simplify_option_eq
                | case_match
                | rewrite Hlog in *
                | match goal with
                  | H : (?x ≫= _) = Some _ |- _ =>
                      destruct x eqn:?; simpl in H; [|discriminate]
                  end ]).
Qed.

Lemma truncated_synchronization_throws_witness :
  ∃ m,
    ControlMessage.parseBuffer ([] ++ [take 20 (count1_datagram 0)])
      (mkBuf 0 0 (length (take 20 (count1_datagram 0)))) = Some m
    ∧ Stream.handleControlMessage sample_env ([] ++ [take 20 (count1_datagram 0)])
        connected_stream m sample_peer = None.
Proof.
  eexists. split; [reflexivity|].
  apply (truncated_synchronization_throws sample_env [] (take 20 (count1_datagram 0)));
    [simpl; lia | reflexivity | reflexivity].
Defined.

(** ** Invitations, rejections and goodbyes at the session *)

Lemma readUInt32BE_octets bs o v :
  octets bs → Buffer.readUInt32BE bs o = Some v → fits32 v.
Proof.
  intros Hbs Hread. unfold Buffer.readUInt32BE in Hread.
  destruct (bs !! o) as [b0|] eqn:H0; [|done].
  destruct (bs !! (o + 1)%nat) as [b1|] eqn:H1; [|done].
  destruct (bs !! (o + 2)%nat) as [b2|] eqn:H2; [|done].
  destruct (bs !! (o + 3)%nat) as [b3|] eqn:H3; [|done].
  simpl in Hread. simplify_eq.
  pose proof (Forall_lookup_1 _ _ _ _ Hbs H0).
  pose proof (Forall_lookup_1 _ _ _ _ Hbs H1).
  pose proof (Forall_lookup_1 _ _ _ _ Hbs H2).
  pose proof (Forall_lookup_1 _ _ _ _ Hbs H3).
  unfold fits32. simpl in *. lia.
Qed.

(** What a parsed message of one of the four session commands looks
    like. *)
Lemma parseBuffer_named_inv h bytes m c :
  octets bytes →
  ControlMessage.parseBuffer (h ++ [bytes]) (mkBuf (length h) 0 (length bytes)) = Some m →
  ControlMessage.command m = Some c → namedCommand c →
  ∃ v t x,
    m = ControlMessage.mk true 0xFFFF v (Some c) (JS.number t) (JS.number x)
          (Buffer.toString bytes 16) None None None None None None
    ∧ fits32 v ∧ fits32 t ∧ fits32 x.
Proof.
  intros Hbs Hparse Hcmd Hkind. unfold ControlMessage.parseBuffer in Hparse.
  rewrite contents_received in Hparse. simpl in Hparse.
  destruct (Buffer.readUInt16BE bytes 0) as [start|] eqn:Hstart; [|done].
  simpl in Hparse.
  destruct (start =? ControlMessage.flags_start) eqn:Hmagic; simpl in Hparse;
    [|by simplify_eq].
  apply Z.eqb_eq in Hmagic. subst start.
  destruct (Buffer.readUInt16BE bytes 2) as [code|] eqn:Hcode; [|done].
  simpl in Hparse.
  destruct (ControlMessage.byteToCommand code) as [c'|] eqn:Hc';
    [|simplify_eq; simpl in Hcmd; done].
  destruct c'; handler_cases Hparse; simpl in *; simplify_eq;
    try (by destruct Hkind as [? | [? | [? | ?]]]);
    (eexists _, _, _; split; [reflexivity|];
     repeat split; eapply readUInt32BE_octets; eassumption).
Qed.

Lemma find_Some pred l : ∀ i j,
  Session.find pred l i = Some j →
  ∃ k x, j = (i + k)%nat ∧ l !! k = Some x ∧ pred x = true
         ∧ Forall (λ y, pred y = false) (take k l).
Proof.
  induction l as [|y l IH]; intros i j Hfind; [done|]. simpl in Hfind.
  destruct (pred y) eqn:Hy.
  - simplify_eq. exists 0%nat, y. split; [lia|]. by repeat split.
  - destruct (IH _ _ Hfind) as (k & x & -> & Hx & Hp & Hbefore).
    exists (S k), x. split; [lia|]. split; [done|]. split; [done|].
    simpl. by constructor.
Qed.

(** The answer to an invitation, as the stream builds it. *)
Lemma accepted_reply h env t name :
  fits32 t → fits32 (session_ssrc env) →
  ∃ reply answer,
    ControlMessage.generateBuffer h
      (Stream.invitationLike env invitation_accepted (JS.number t) name) = Some reply
    ∧ ControlMessage.parseBuffer [reply] (mkBuf 0 0 (length reply)) = Some answer
    ∧ ControlMessage.command answer = Some invitation_accepted
    ∧ ControlMessage.token answer = JS.number t
    ∧ ControlMessage.ssrc answer = JS.number (session_ssrc env).
Proof.
  intros Ht Hx. eexists _, _. split.
  { apply (generateBuffer_invitation h _ invitation_accepted 2 t (session_ssrc env));
      first [ reflexivity | done | by right; left | unfold fits32; lia ]. }
  split.
  { rewrite length_app.
    apply (parseBuffer_invitation [] invitation_accepted). by right; left. }
  simpl. unfold fits32 in *. rewrite !byte_recompose by lia. done.
Qed.

(** X11.  An invitation that matches no stream of the session makes the
    session create one: the new stream, not yet connected, holds the
    sender as control address and the token, SSRC and name of the
    invitation, and is put at the end of the list; the sender is answered
    with an [invitation_accepted] packet that carries the same token and
    the SSRC of the session.  No [streamAdded] event goes out yet. *)
Theorem invitation_creates_stream
    parseMidi now now_again randomToken randomSequenceNr s bytes rinfo m :
  octets bytes →
  ControlMessage.parseBuffer [bytes] (mkBuf 0 0 (length bytes)) = Some m →
  ControlMessage.command m = Some invitation →
  streamOf m (Session.streams s) = None →
  fits32 (Session.ssrc s) →
  ∃ stream d answer,
    Session.handleMessage parseMidi now now_again randomToken randomSequenceNr
      s bytes rinfo
    = Some (Session.addStream stream s,
            [Session.Emitted (Session.controlMessage m);
             Session.Sent d;
             Session.StreamEmitted (length (Session.streams s))
               (Stream.control_message m)])
    ∧ Stream.rinfo1 stream = Some rinfo ∧ Stream.rinfo2 stream = None
    ∧ Stream.isConnected stream = false
    ∧ Stream.token stream = ControlMessage.token m
    ∧ Stream.ssrc stream = ControlMessage.ssrc m
    ∧ Stream.name stream = ControlMessage.name m
    ∧ dg_port d = port rinfo ∧ dg_address d = address rinfo
    ∧ ControlMessage.parseBuffer [dg_buffer d] (mkBuf 0 0 (length (dg_buffer d)))
      = Some answer
    ∧ ControlMessage.command answer = Some invitation_accepted
    ∧ ControlMessage.token answer = ControlMessage.token m
    ∧ ControlMessage.ssrc answer = JS.number (Session.ssrc s).
Proof.
  intros Hbs Hparse Hcmd Hnone Hssrc.
  destruct (parseBuffer_named_inv [] bytes m invitation Hbs Hparse Hcmd ltac:(by left))
    as (v & t & x & -> & Hv & Ht & Hx).
  set (env := Session.envOf now now_again randomToken randomSequenceNr s).
  destruct (accepted_reply [bytes] env t (session_bonjourName env) Ht Hssrc)
    as (reply & answer & Hgen & Hback & Hacmd & Hatoken & Hassrc).
  unfold Session.handleMessage, hreceive. cbn [length app].
  rewrite Hparse. cbn [ControlMessage.isValid mbind option_bind].
  unfold streamOf in Hnone. rewrite Hnone.
  rewrite bool_decide_true by done.
  unfold Stream.handleControlMessage.
  cbn [ControlMessage.command mbind option_bind].
  unfold Stream.handleInvitation. cbn [Stream.new Stream.rinfo1].
  unfold Stream.sendInvitationAccepted, sendUdpMessage, ControlMessage_sendable.
  cbn [generateBuffer isValid Stream.token Stream.set_rinfo1 Stream.set_token
       Stream.set_name Stream.set_ssrc ControlMessage.token ControlMessage.name
       ControlMessage.ssrc].
  fold env. rewrite Hgen. simpl.
  eexists _, _, answer. split; [reflexivity|]. simpl.
  repeat split; done.
Qed.

Lemma invitation_creates_stream_witness :
  ∃ m stream d answer,
    ControlMessage.parseBuffer [invitation_datagram]
      (mkBuf 0 0 (length invitation_datagram)) = Some m
    ∧ Session.handleMessage (λ _, None) 1010 1020 7 7 empty_session
        invitation_datagram sample_peer
      = Some (Session.addStream stream empty_session,
              [Session.Emitted (Session.controlMessage m);
               Session.Sent d;
               Session.StreamEmitted 0 (Stream.control_message m)])
    ∧ Stream.rinfo1 stream = Some sample_peer
    ∧ Stream.token stream = JS.number 0xAABBCCDD
    ∧ ControlMessage.parseBuffer [dg_buffer d] (mkBuf 0 0 (length (dg_buffer d)))
      = Some answer
    ∧ ControlMessage.command answer = Some invitation_accepted
    ∧ ControlMessage.token answer = JS.number 0xAABBCCDD.
Proof.
  assert (Hoctets : octets invitation_datagram)
    by (unfold octets, invitation_datagram;
        repeat (apply List.Forall_cons; [lia|]); apply List.Forall_nil).
  assert (Hssrc : fits32 (Session.ssrc empty_session)) by (unfold fits32; simpl; lia).
  eexists.
  destruct (invitation_creates_stream (λ _, None) 1010 1020 7 7 empty_session
              invitation_datagram sample_peer _ Hoctets eq_refl eq_refl eq_refl Hssrc)
    as (stream & d & answer & Hstep & Hr1 & _ & _ & Htoken & _ & _ & _ & _
        & Hback & Hcmd & Hatoken & _).
  exists stream, d, answer. split; [reflexivity|]. by repeat split.
Defined.

Lemma delete_insert_same {A} (l : list A) i x : delete i (<[i := x]> l) = delete i l.
Proof.
  rewrite !delete_take_drop. rewrite take_insert_ge by lia.
  by rewrite drop_insert_lt by lia.
Qed.

(** X12.  An [end] packet for a stream of the session stops the clock
    synchronization of the stream, marks it as not connected and takes it
    out of the list of the session, which emits [streamRemoved]; the
    other streams keep their order. *)
Theorem end_packet_removes_stream
    parseMidi now now_again randomToken randomSequenceNr s bytes rinfo m index :
  ControlMessage.parseBuffer [bytes] (mkBuf 0 0 (length bytes)) = Some m →
  ControlMessage.command m = Some end_ →
  streamOf m (Session.streams s) = Some index →
  ∃ old,
    Session.streams s !! index = Some old
    ∧ Session.handleMessage parseMidi now now_again randomToken randomSequenceNr
        s bytes rinfo
      = Some (Session.mk (delete index (Session.streams s)) (Session.ssrc s)
                (Session.bonjourName s) (Session.lastMessageTime s),
              [Session.Emitted (Session.controlMessage m);
               Session.StreamEmitted index Stream.disconnected;
               Session.Emitted
                 (Session.streamRemoved
                    (Stream.set_isConnected false (Stream.set_syncInterval None old)));
               Session.StreamEmitted index (Stream.control_message m)]).
Proof.
  intros Hparse Hcmd Hfind.
  assert (Hvalid : ControlMessage.isValid m = true).
  { unfold ControlMessage.parseBuffer in Hparse.
    handler_cases Hparse; simpl in *; done. }
  unfold streamOf in Hfind.
  destruct (find_Some _ _ _ _ Hfind) as (k & old & -> & Hold & _ & _).
  exists old. split; [done|].
  unfold Session.handleMessage, hreceive. cbn [length app].
  rewrite Hparse. cbn [mbind option_bind]. rewrite Hvalid, Hfind. simpl.
  rewrite Hold. simpl.
  unfold Stream.handleControlMessage. rewrite Hcmd. simpl.
  unfold Session.perform, Session.output, Session.removeStream. simpl.
  by rewrite delete_insert_same.
Qed.

Lemma end_packet_removes_stream_witness :
  ∃ m old out,
    ControlMessage.parseBuffer [end_datagram] (mkBuf 0 0 (length end_datagram)) = Some m
    ∧ Session.streams sample_session !! 0%nat = Some old
    ∧ Session.handleMessage (λ _, None) 1010 1020 7 7 sample_session
        end_datagram sample_peer
      = Some (Session.mk [] 0x01020304 "A" 0, out)
    ∧ In (Session.Emitted
            (Session.streamRemoved
               (Stream.set_isConnected false (Stream.set_syncInterval None old)))) out.
Proof.
  eexists.
  destruct (end_packet_removes_stream (λ _, None) 1010 1020 7 7 sample_session
              end_datagram sample_peer _ 0 eq_refl eq_refl eq_refl)
    as (old & Hold & Hstep).
  exists old. eexists. split; [reflexivity|]. split; [exact Hold|].
  split; [exact Hstep|]. simpl. tauto.
Defined.

(** X13.  An [invitation_rejected] packet for a stream of the session
    takes the stream out of the list of the session, where the other
    streams keep their order, without any [streamRemoved] event. *)
Theorem rejection_removes_stream
    parseMidi now now_again randomToken randomSequenceNr s bytes rinfo m index :
  ControlMessage.parseBuffer [bytes] (mkBuf 0 0 (length bytes)) = Some m →
  ControlMessage.command m = Some invitation_rejected →
  streamOf m (Session.streams s) = Some index →
  Session.handleMessage parseMidi now now_again randomToken randomSequenceNr
    s bytes rinfo
  = Some (Session.mk (delete index (Session.streams s)) (Session.ssrc s)
            (Session.bonjourName s) (Session.lastMessageTime s),
          [Session.Emitted (Session.controlMessage m);
           Session.StreamEmitted index (Stream.control_message m)]).
Proof.
  intros Hparse Hcmd Hfind.
  assert (Hvalid : ControlMessage.isValid m = true).
  { unfold ControlMessage.parseBuffer in Hparse.
    handler_cases Hparse; simpl in *; done. }
  unfold streamOf in Hfind.
  destruct (find_Some _ _ _ _ Hfind) as (k & old & -> & Hold & _ & _).
  unfold Session.handleMessage, hreceive. cbn [length app].
  rewrite Hparse. cbn [mbind option_bind]. rewrite Hvalid, Hfind. simpl.
  rewrite Hold. simpl.
  unfold Stream.handleControlMessage. rewrite Hcmd. simpl.
  unfold Session.perform, Session.output, Session.removeStream. simpl.
  by rewrite delete_insert_same.
Qed.

Lemma rejection_removes_stream_witness :
  ∃ m,
    ControlMessage.parseBuffer [rejection_datagram]
      (mkBuf 0 0 (length rejection_datagram)) = Some m
    ∧ Session.handleMessage (λ _, None) 1010 1020 7 7
        (Session.mk [inviting_stream] 0x01020304 "A" 0) rejection_datagram sample_peer
      = Some (Session.mk [] 0x01020304 "A" 0,
              [Session.Emitted (Session.controlMessage m);
               Session.StreamEmitted 0 (Stream.control_message m)]).
Proof.
  eexists. split; [reflexivity|].
  exact (rejection_removes_stream (λ _, None) 1010 1020 7 7
           (Session.mk [inviting_stream] 0x01020304 "A" 0) rejection_datagram
           sample_peer _ 0 eq_refl eq_refl eq_refl).
Defined.

(** ** Bytes and bits *)

(** A property of octets that holds by checking all of them. *)
Lemma octet_cases (P : Z → bool) :
  forallb P (seqZ 0 256) = true → ∀ b, 0 ≤ b ≤ 255 → P b = true.
Proof.
  intros Hall b Hb. rewrite forallb_forall in Hall. apply Hall.
  apply list_elem_of_In, elem_of_seqZ. lia.
Qed.

Lemma land_0x7f b : 0 ≤ b → Z.land b 0x7f = b mod 128.
Proof. intros Hb. change 0x7f with (Z.ones 7). by rewrite Z.land_ones. Qed.

Lemma lor_shiftl_small a b n :
  0 ≤ n → 0 ≤ b < 2 ^ n → Z.lor (Z.shiftl a n) b = a * 2 ^ n + b.
Proof.
  intros Hn Hb. rewrite <- Z.shiftl_mul_pow2 by done.
  assert (Hdisjoint : Z.land (Z.shiftl a n) b = 0).
  { apply Z.bits_inj'. intros i Hi. rewrite Z.land_spec, Z.bits_0.
    destruct (decide (i < n)) as [Hlt|Hge].
    - by rewrite Z.shiftl_spec_low.
    - rewrite <- (Z.mod_small b (2 ^ n)) by done.
      rewrite Z.mod_pow2_bits_high by lia. apply andb_false_r. }
  rewrite <- Z.lxor_lor by done. symmetry. by apply Z.add_nocarry_lxor.
Qed.

(** ** The RTP header *)

Lemma copy_at_end (pre src : list Z) :
  Buffer.copy src (pre ++ replicate (length src) 0) (length pre) = pre ++ src.
Proof.
  unfold Buffer.copy. rewrite length_app, length_replicate.
  rewrite take_ge by lia.
  rewrite <- (Nat.add_0_r (length pre)) at 1.
  rewrite list_inserts_app_r. f_equal.
  rewrite inserts_prefix by (by rewrite length_replicate).
  rewrite drop_replicate, Nat.sub_diag. apply app_nil_r.
Qed.

Lemma first_byte v (p : bool) :
  0 ≤ v ≤ 3 →
  let b := Z.lor (Z.lor (Z.lor (Z.lor 0 (Z.shiftl v 6)) (if p then 0x20 else 0)) 0) 0 in
  0 ≤ b ≤ 255 ∧ Z.shiftr b 6 = v
  ∧ MidiMessage.flag (Z.shiftr b 5) 1 = p
  ∧ MidiMessage.flag (Z.shiftr b 4) 1 = false
  ∧ Z.land b 0xF = 0.
Proof.
  intros Hv.
  assert (v = 0 ∨ v = 1 ∨ v = 2 ∨ v = 3) as [-> | [-> | [-> | ->]]] by lia;
    destruct p; vm_compute; repeat split; congruence.
Qed.

Lemma second_byte pt (mk : bool) :
  0 ≤ pt ≤ 127 →
  let b := Z.lor pt (if mk then 0x80 else 0) in
  0 ≤ b ≤ 255 ∧ (Z.land b 0x80 =? 0x80) = mk ∧ Z.land b 0x7f = pt.
Proof.
  intros Hpt.
  pose proof (octet_cases
    (λ pt, (127 <? pt)
           || forallb (λ mk : bool,
                let b := Z.lor pt (if mk then 0x80 else 0) in
                (0 <=? b) && (b <=? 255)
                && Bool.eqb (Z.land b 0x80 =? 0x80) mk
                && (Z.land b 0x7f =? pt)) [true; false])
    ltac:(vm_compute; reflexivity) pt ltac:(lia)) as Hcheck.
  simpl in Hcheck. destruct (127 <? pt) eqn:Hbig; [apply Z.ltb_lt in Hbig; lia|].
  simpl in Hcheck. rewrite !andb_true_r in Hcheck.
  destruct mk; simpl;
    repeat match goal with
           | H : _ && _ = true |- _ => apply andb_true_iff in H as [? ?]
           | H : Bool.eqb _ _ = true |- _ => apply Bool.eqb_prop in H
           | H : (_ <=? _) = true |- _ => apply Z.leb_le in H
           | H : (_ =? _) = true |- _ => apply Z.eqb_eq in H
           end; repeat split; first [done | lia | by apply Z.eqb_eq].
Qed.

(** The header [RTPMessage.generateBuffer] writes for a message without
    CSRC and without extension. *)
Lemma generateRTP_plain m payload :
  MidiMessage.csrcs m = [] → MidiMessage.hasExtension m = false →
  0 ≤ MidiMessage.version m ≤ 3 → 0 ≤ MidiMessage.payloadType m ≤ 127 →
  0 ≤ MidiMessage.sequenceNumber m ≤ 65535 →
  fits32 (MidiMessage.timestamp m) → fits32 (MidiMessage.ssrc m) →
  MidiMessage.generateRTP m payload
  = Some ([Z.lor (Z.lor (Z.lor (Z.lor 0 (Z.shiftl (MidiMessage.version m) 6))
                     (if MidiMessage.padding m then 0x20 else 0)) 0) 0;
           Z.lor (MidiMessage.payloadType m) (if MidiMessage.marker m then 0x80 else 0);
           MidiMessage.sequenceNumber m / 256; MidiMessage.sequenceNumber m mod 256;
           MidiMessage.timestamp m / 16777216; (MidiMessage.timestamp m / 65536) mod 256;
           (MidiMessage.timestamp m / 256) mod 256; MidiMessage.timestamp m mod 256;
           MidiMessage.ssrc m / 16777216; (MidiMessage.ssrc m / 65536) mod 256;
           (MidiMessage.ssrc m / 256) mod 256; MidiMessage.ssrc m mod 256]
          ++ payload).
Proof.
  intros Hcs Hext Hv Hpt Hseq Hts Hssrc. unfold fits32 in *.
  destruct (first_byte (MidiMessage.version m) (MidiMessage.padding m) Hv)
    as (Hb1 & _).
  destruct (second_byte (MidiMessage.payloadType m) (MidiMessage.marker m) Hpt)
    as (Hb2 & _).
  unfold MidiMessage.generateRTP. rewrite Hcs, Hext. cbn [length Nat.min take].
  cbn [MidiMessage.writeCsrcs Nat.mul Nat.add Z.of_nat].
  unfold Buffer.alloc. cbn [replicate Nat.add].
  unfold Buffer.writeUInt8, Buffer.writeUInt16BE, Buffer.writeUInt32BE.
  change (Z.of_nat 0) with 0.
  cbn [length]. rewrite !bool_decide_true by lia. simpl.
  rewrite ?bool_decide_true by lia. simpl.
  rewrite ?bool_decide_true by lia. simpl.
  f_equal.
  match goal with
  | |- Buffer.copy _ (?a :: ?b :: ?c :: ?d :: ?e :: ?f :: ?g :: ?h :: ?i :: ?j :: ?k
                       :: ?l :: _) _ = _ =>
      apply (copy_at_end [a; b; c; d; e; f; g; h; i; j; k; l] payload)
  end.
Qed.

(** ** Sending MIDI *)

(** X14.  A stream whose clock is synchronized moves its sequence
    number on by one, modulo 2^16, and sends one datagram to the data
    address: the twelve octets of the RTP header (version 2, payload
    type 0x61, the new sequence number, the timestamp, the SSRC of the
    session) and then the payload of the commands. *)
Theorem sendMessage_datagram getDataLength env s timestamp commands l td r payload :
  Stream.latency s = Some l → Stream.timeDifference s = Some td →
  Stream.rinfo2 s = Some r →
  0 ≤ Stream.lastSentSequenceNr s ≤ 65535 →
  fits32 timestamp → fits32 (session_ssrc env) →
  MidiMessage.generatePayload getDataLength
    (outgoing ((Stream.lastSentSequenceNr s + 1) mod 65536) timestamp
       (session_ssrc env) commands) = Some payload →
  ∃ channel,
    Stream.sendMessage getDataLength env s timestamp commands
    = Some (Stream.set_lastSentSequenceNr ((Stream.lastSentSequenceNr s + 1) mod 65536) s,
            [Stream.Send
               (mkDatagram channel
                  ([0x80; 0x61] ++ be16 ((Stream.lastSentSequenceNr s + 1) mod 65536)
                   ++ be32 timestamp ++ be32 (session_ssrc env) ++ payload)
                  (port r) (address r))]).
Proof.
  intros Hl Htd Hr Hseq Hts Hssrc Hpayload.
  unfold Stream.sendMessage. rewrite Hl, Htd.
  rewrite !bool_decide_false by done. cbn [orb].
  rewrite Z.rem_mod_nonneg by lia.
  cbn [Stream.lastSentSequenceNr Stream.set_lastSentSequenceNr Stream.rinfo2].
  rewrite Hr. unfold sendUdpMessage, MidiMessage_sendable.
  cbn [generateBuffer isValid MidiMessage.isValid].
  unfold MidiMessage.generateBuffer. fold (outgoing
    ((Stream.lastSentSequenceNr s + 1) mod 65536) timestamp (session_ssrc env) commands).
  rewrite Hpayload. cbn [mbind option_bind].
  pose proof (Z.mod_pos_bound (Stream.lastSentSequenceNr s + 1) 65536 ltac:(lia)).
  rewrite generateRTP_plain;
    [ | reflexivity | reflexivity | simpl; lia | simpl; lia
      | simpl; lia | done | done ].
  simpl. eexists. reflexivity.
Qed.

Lemma sendMessage_datagram_witness :
  ∃ channel,
    Stream.sendMessage sample_getDataLength sample_env synced_stream 50000
      [MidiMessage.mkCommand 0 [0x90; 60; 127]]
    = Some (Stream.set_lastSentSequenceNr 8 synced_stream,
            [Stream.Send
               (mkDatagram channel
                  ([0x80; 0x61] ++ be16 8 ++ be32 50000 ++ be32 0x01020304
                   ++ [0x03; 0x00; 0x90; 60])
                  5005 "10.0.0.2")]).
Proof.
  apply (sendMessage_datagram sample_getDataLength sample_env synced_stream 50000
           [MidiMessage.mkCommand 0 [0x90; 60; 127]] 10 (-4000)
           (mkRInfo "10.0.0.2" 5005) [0x03; 0x00; 0x90; 60]);
    first [ reflexivity | unfold fits32; simpl; lia | simpl; lia ].
Defined.

(** ** Receiving MIDI *)

Lemma message_events (cs : list MidiMessage.Command) : ∀ messageTime i c,
  cs !! i = Some c →
  ((fix go (messageTime : Z) (cs : list MidiMessage.Command) : list Stream.Action :=
      match cs with
      | [] => []
      | command :: cs' =>
          let messageTime := messageTime + MidiMessage.deltaTime command in
          Stream.Emit (Stream.message_ messageTime (MidiMessage.data command))
          :: go messageTime cs'
      end) messageTime cs) !! i
  = Some (Stream.Emit (Stream.message_ (messageTime + totalDelta (take (S i) cs))
                         (MidiMessage.data c))).
Proof.
  induction cs as [|c0 cs IH]; intros messageTime i c Hi; [done|].
  destruct i as [|i].
  - simpl in Hi. simplify_eq. simpl. unfold totalDelta. simpl.
    do 3 f_equal. lia.
  - simpl in Hi. cbn [lookup list_lookup]. rewrite (IH _ i c Hi).
    do 3 f_equal. unfold totalDelta. cbn [take fmap list_fmap foldr]. lia.
Qed.

Lemma message_events_length (cs : list MidiMessage.Command) : ∀ messageTime,
  length
    ((fix go (messageTime : Z) (cs : list MidiMessage.Command) : list Stream.Action :=
        match cs with
        | [] => []
        | command :: cs' =>
            let messageTime := messageTime + MidiMessage.deltaTime command in
            Stream.Emit (Stream.message_ messageTime (MidiMessage.data command))
            :: go messageTime cs'
        end) messageTime cs)
  = length cs.
Proof. induction cs as [|c0 cs IH]; intros messageTime; simpl; [done | by rewrite IH]. Qed.

(** X15.  A MIDI message makes the stream emit one [message] event for
    each of its commands, in their order and with their data; the time of
    an event is the time of the message, shifted by the clock offsets of
    the stream, plus the sum of the delta-times of all commands up to
    this one. *)
Theorem handleMidiMessage_events s message :
  length (Stream.handleMidiMessage s message).2 = length (MidiMessage.commands message)
  ∧ ∀ i c,
      MidiMessage.commands message !! i = Some c →
      (Stream.handleMidiMessage s message).2 !! i
      = Some (Stream.Emit
                (Stream.message_
                   (Buffer.number (Stream.timeDifference s)
                    - Buffer.number (Stream.latency s)
                    + MidiMessage.timestamp message
                    + totalDelta (take (S i) (MidiMessage.commands message)))
                   (MidiMessage.data c))).
Proof.
  unfold Stream.handleMidiMessage. cbn [snd]. split.
  - apply message_events_length.
  - intros i c Hi. rewrite (message_events _ _ i c Hi).
    do 4 f_equal; by case_match.
Qed.

(** ** The retries of an invitation *)

(** The packet of one of the four session commands, as a stream builds
    it, parses back to its command, token and SSRC. *)
Lemma named_packet h env c t name :
  namedCommand c → fits32 t → fits32 (session_ssrc env) →
  ∃ bytes answer,
    ControlMessage.generateBuffer h (Stream.invitationLike env c (JS.number t) name)
    = Some bytes
    ∧ ControlMessage.parseBuffer [bytes] (mkBuf 0 0 (length bytes)) = Some answer
    ∧ ControlMessage.command answer = Some c
    ∧ ControlMessage.token answer = JS.number t
    ∧ ControlMessage.ssrc answer = JS.number (session_ssrc env)
    ∧ ControlMessage.name answer = String.append name (String Ascii.zero EmptyString).
Proof.
  intros Hc Ht Hx. eexists _, _. split.
  { apply (generateBuffer_invitation h _ c 2 t (session_ssrc env));
      first [ reflexivity | done | unfold fits32; lia ]. }
  split.
  { rewrite length_app. by apply (parseBuffer_invitation [] c). }
  simpl. unfold fits32 in *. rewrite !byte_recompose by lia.
  repeat split; try done. apply string_of_bytes_of_string.
Qed.

(** X16.  After [connect] the retry interval sends the same invitation,
    with a token drawn once, each time it fires; when it has fired forty
    times without an answer it sends nothing more and stops itself. *)
Theorem invitation_retries env h s rinfo n :
  Stream.ssrc s = JS.null → Stream.token s = JS.null →
  0 < randomToken env < 4294967296 → fits32 (session_ssrc env) →
  ∃ d answer s',
    connectionIntervalRuns env h n (Stream.connect s rinfo)
    = Some (s', replicate (Nat.min n 40) (Stream.Send d))
    ∧ Stream.connectionInterval s'
      = (if bool_decide (n ≤ 40)%nat then Some (Z.of_nat n, rinfo) else None)
    ∧ dg_port d = port rinfo ∧ dg_address d = address rinfo
    ∧ ControlMessage.parseBuffer [dg_buffer d] (mkBuf 0 0 (length (dg_buffer d)))
      = Some answer
    ∧ ControlMessage.command answer = Some invitation
    ∧ ControlMessage.token answer = JS.number (randomToken env)
    ∧ ControlMessage.ssrc answer = JS.number (session_ssrc env).
Proof.
  intros Hssrc Htoken Hrandom Hsession.
  destruct (named_packet h env invitation (randomToken env) (session_bonjourName env)
              ltac:(by left) ltac:(unfold fits32; lia) Hsession)
    as (bytes & answer & Hgen & Hparse & Hcmd & Htok & Hsrc & _).
  set (d := mkDatagram
              (if Z.rem (port rinfo) 2 =? 0 then controlChannel else messageChannel)
              bytes (port rinfo) (address rinfo)).
  exists d, answer.
  assert (Hruns : ∃ s',
    connectionIntervalRuns env h n (Stream.connect s rinfo)
    = Some (s', replicate (Nat.min n 40) (Stream.Send d))
    ∧ Stream.connectionInterval s'
      = (if bool_decide (n ≤ 40)%nat then Some (Z.of_nat n, rinfo) else None)
    ∧ Stream.ssrc s' = JS.null
    ∧ (Stream.token s' = JS.null ∨ Stream.token s' = JS.number (randomToken env))).
  { induction n as [|n IH].
    - eexists. split; [reflexivity|].
      cbn [Stream.connect Stream.connectionInterval Stream.set_connectionInterval
           Stream.set_isInitiator Stream.ssrc Stream.token].
      rewrite bool_decide_true by lia.
      split; [done|]. split; [done|]. by left.
    - destruct IH as (s1 & Hruns & Hint & Hs1 & Ht1).
      cbn [connectionIntervalRuns]. rewrite Hruns. cbn [mbind option_bind].
      unfold Stream.connectionIntervalFires. rewrite Hint.
      destruct (decide (n < 40)%nat) as [Hlt|Hge].
      + rewrite !bool_decide_true by lia.
        assert ((Z.of_nat n <? 40) = true) as -> by (apply Z.ltb_lt; lia).
        rewrite Hs1. unfold JS.strict_eq. rewrite ?bool_decide_true by done. cbn [andb].
        assert (Hsend : ∃ s2,
          Stream.sendInvitation env h s1 rinfo = Some (s2, [Stream.Send d])
          ∧ Stream.ssrc s2 = JS.null
          ∧ Stream.token s2 = JS.number (randomToken env)).
        { unfold Stream.sendInvitation.
          assert (JS.truthy (JS.number (randomToken env)) = true) as Htruthy.
          { simpl. apply negb_true_iff, Z.eqb_neq. lia. }
          destruct Ht1 as [Ht1 | Ht1]; rewrite Ht1;
            [cbn [JS.truthy] | rewrite Htruthy]; cbn [negb];
            cbn [Stream.token Stream.set_token]; rewrite ?Ht1;
            unfold sendUdpMessage, ControlMessage_sendable;
            cbn [generateBuffer isValid]; rewrite Hgen;
            cbn [mbind option_bind Stream.invitationLike ControlMessage.isValid];
            eexists; (split; [reflexivity|]); split; done. }
        destruct Hsend as (s2 & -> & Hs2 & Ht2). cbn [mbind option_bind].
        eexists. split.
        { f_equal. f_equal.
          replace (Nat.min (S n) 40) with (S (Nat.min n 40)) by lia.
          by rewrite replicate_S_end. }
        cbn [Stream.connectionInterval Stream.set_connectionInterval
             Stream.ssrc Stream.token].
        split; [do 3 f_equal; lia|]. split; [done | by right].
      + destruct (decide (n = 40%nat)) as [->|Hne].
        * rewrite bool_decide_true by lia. cbn [Z.of_nat Z.ltb Z.compare].
          change (Z.of_nat 40 <? 40) with false. cbn [andb mbind option_bind].
          eexists. split; [by rewrite app_nil_r|].
          cbn [Stream.connectionInterval Stream.set_connectionInterval
               Stream.ssrc Stream.token].
          rewrite bool_decide_false by lia. done.
        * rewrite bool_decide_false by lia. cbn [mbind option_bind].
          eexists. split.
          { rewrite app_nil_r. do 3 f_equal. lia. }
          rewrite Hint. rewrite !bool_decide_false by lia. done. }
  destruct Hruns as (s' & Hruns & Hint & _). exists s'.
  repeat split; done.
Qed.

Lemma invitation_retries_witness :
  ∃ d answer s',
    connectionIntervalRuns sample_env [] 41 (Stream.connect (Stream.new sample_env) sample_peer)
    = Some (s', replicate 40 (Stream.Send d))
    ∧ Stream.connectionInterval s' = None
    ∧ ControlMessage.parseBuffer [dg_buffer d] (mkBuf 0 0 (length (dg_buffer d)))
      = Some answer
    ∧ ControlMessage.token answer = JS.number 0xAABBCCDD.
Proof.
  destruct (invitation_retries sample_env [] (Stream.new sample_env) sample_peer 41
              eq_refl eq_refl ltac:(simpl; lia) ltac:(unfold fits32; simpl; lia))
    as (d & answer & s' & Hruns & Hint & _ & _ & Hparse & _ & Htok & _).
  exists d, answer, s'. repeat split; done.
Defined.

(** ** The RTP-MIDI decoder *)

(** The command loop does not depend on its fuel, once there is enough
    of it for the octets that are left. *)
Lemma parseCommands_fuel getDataLength payload firstHasDeltaTime bound :
  ∀ fuel1 fuel2 offset lastStatusByte commands,
    (offset ≤ length payload)%nat →
    (length payload - offset + (if bool_decide (commands = []) then 2 else 1) ≤ fuel1)%nat →
    (length payload - offset + (if bool_decide (commands = []) then 2 else 1) ≤ fuel2)%nat →
    MidiMessage.parseCommands getDataLength fuel1 payload firstHasDeltaTime bound
      offset lastStatusByte commands
    = MidiMessage.parseCommands getDataLength fuel2 payload firstHasDeltaTime bound
        offset lastStatusByte commands.
Proof.
  induction fuel1 as [|fuel1 IH]; intros fuel2 offset last commands Hoff H1 H2.
  { case_bool_decide; lia. }
  destruct fuel2 as [|fuel2]; [case_bool_decide; lia|].
  cbn [MidiMessage.parseCommands].
  destruct (bool_decide (Z.of_nat offset < bound)); [|done].
  assert (Hdelta : ∀ k o dt dt' o',
            MidiMessage.readDeltaTime (S k) payload o dt = Some (dt', o') →
            (o < o')%nat).
  { clear. intros k. induction k as [|k IH]; intros o dt dt' o' Hread.
    - simpl in Hread. destruct (Buffer.readUInt8 payload o); [|done].
      simpl in Hread. case_match; simplify_eq; lia.
    - cbn [MidiMessage.readDeltaTime] in Hread.
      destruct (Buffer.readUInt8 payload o); [|done].
      cbn [mbind option_bind] in Hread. case_match; [simplify_eq; lia|].
      apply IH in Hread. lia. }
  destruct (negb (bool_decide (commands = [])) || firstHasDeltaTime) eqn:Hhas.
  - destruct (MidiMessage.readDeltaTime 4 payload offset 0) as [[dt o1]|] eqn:Hread;
      [|done].
    apply Hdelta in Hread. cbn [mbind option_bind].
    destruct (Buffer.readUInt8 payload o1) as [statusByte|] eqn:Hstatus; [|done].
    cbn [mbind option_bind].
    assert (o1 < length payload)%nat by (by eapply lookup_lt_Some).
    repeat first
      [ case_match
      | match goal with
        | |- context [?x ≫= _] => destruct x eqn:?; cbn [mbind option_bind]
        end ];
      simplify_eq; try done;
      repeat match goal with
             | H : bool_decide _ = false |- _ => apply bool_decide_eq_false in H
             end;
      (apply IH;
       [ lia
       | rewrite bool_decide_false by (by destruct commands);
         destruct (bool_decide (commands = [])); lia
       | rewrite bool_decide_false by (by destruct commands);
         destruct (bool_decide (commands = [])); lia ]).
  - cbn [mbind option_bind].
    destruct (Buffer.readUInt8 payload offset) as [statusByte|] eqn:Hstatus; [|done].
    cbn [mbind option_bind].
    assert (offset < length payload)%nat by (by eapply lookup_lt_Some).
    apply orb_false_iff in Hhas as [Hempty _].
    apply negb_false_iff, bool_decide_eq_true in Hempty. subst commands.
    rewrite bool_decide_true in H1, H2 by done.
    repeat first
      [ case_match
      | match goal with
        | |- context [?x ≫= _] => destruct x eqn:?; cbn [mbind option_bind]
        end ];
      simplify_eq; try done;
      repeat match goal with
             | H : bool_decide _ = false |- _ => apply bool_decide_eq_false in H
             end;
      (apply IH; [lia | simpl; lia | simpl; lia]).
Qed.

(** X17.  A datagram of fewer than twelve octets that does not start
    with the magic of a control message makes the session throw: it is
    taken for RTP-MIDI, whose header is read without a look at the
    length. *)
Theorem short_datagram_throws
    getDataLength now now_again randomToken randomSequenceNr s bytes rinfo :
  (length bytes < 12)%nat →
  Buffer.readUInt16BE bytes 0 ≠ Some 0xFFFF →
  Session.handleDatagram getDataLength now now_again randomToken randomSequenceNr
    s bytes rinfo = None.
Proof.
  intros Hlen Hmagic.
  unfold Session.handleDatagram, Session.handleMessage, hreceive. cbn [length app].
  unfold ControlMessage.parseBuffer.
  pose proof (contents_received [] bytes) as Hcontents. simpl in Hcontents.
  rewrite Hcontents. cbn [mbind option_bind].
  destruct (Buffer.readUInt16BE bytes 0) as [start|] eqn:Hstart; [|done].
  cbn [mbind option_bind].
  destruct (start =? ControlMessage.flags_start) eqn:Hstart';
    [apply Z.eqb_eq in Hstart'; by subst start|].
  cbn [negb ControlMessage.isValid].
  assert (MidiMessage.parseBuffer getDataLength bytes = None) as ->; [|done].
  unfold MidiMessage.parseBuffer, MidiMessage.parseRTP.
  assert (Buffer.readUInt32BE bytes 8 = None) as Hssrc
    by (apply readUInt32BE_short; lia).
  destruct (Buffer.readUInt8 bytes 0); [|done]. cbn [mbind option_bind].
  destruct (Buffer.readUInt8 bytes 1); [|done]. cbn [mbind option_bind].
  destruct (Buffer.readUInt16BE bytes 2); [|done]. cbn [mbind option_bind].
  destruct (Buffer.readUInt32BE bytes 4); [|done]. cbn [mbind option_bind].
  by rewrite Hssrc.
Qed.

Lemma short_datagram_throws_witness :
  Session.handleDatagram sample_getDataLength 1010 1020 7 7 sample_session
    [0x80; 0x61; 0; 1; 0; 0; 0; 0] sample_peer = None.
Proof.
  apply (short_datagram_throws sample_getDataLength 1010 1020 7 7 sample_session
           [0x80; 0x61; 0; 1; 0; 0; 0; 0] sample_peer); [simpl; lia | discriminate].
Defined.

(** ** Delta-times on the wire *)

Lemma deltaTime_octet y :
  0 ≤ y ≤ 127 →
  Z.land (Z.lor 0x80 y) 0x7f = y ∧ MidiMessage.flag (Z.lor 0x80 y) 0x80 = true
  ∧ Z.land y 0x7f = y ∧ MidiMessage.flag y 0x80 = false.
Proof.
  intros Hy.
  pose proof (octet_cases
    (λ y, (127 <? y)
          || ((Z.land (Z.lor 0x80 y) 0x7f =? y)
              && MidiMessage.flag (Z.lor 0x80 y) 0x80
              && (Z.land y 0x7f =? y) && negb (MidiMessage.flag y 0x80)))
    ltac:(vm_compute; reflexivity) y ltac:(lia)) as Hcheck.
  simpl in Hcheck. destruct (127 <? y) eqn:Hbig; [apply Z.ltb_lt in Hbig; lia|].
  simpl in Hcheck.
  repeat match goal with
         | H : _ && _ = true |- _ => apply andb_true_iff in H as [? ?]
         | H : (_ =? _) = true |- _ => apply Z.eqb_eq in H
         | H : negb _ = true |- _ => apply negb_true_iff in H
         end.
  done.
Qed.

Lemma septet dt k : 0 ≤ dt → 0 ≤ Z.land 0x7f (Z.shiftr dt k) ≤ 127.
Proof.
  intros Hdt. rewrite Z.land_comm, land_0x7f by (by apply Z.shiftr_nonneg).
  pose proof (Z.mod_pos_bound (Z.shiftr dt k) 128). lia.
Qed.

Lemma readDeltaTime_more k payload o acc y :
  payload !! o = Some (Z.lor 0x80 y) → 0 ≤ y ≤ 127 →
  MidiMessage.readDeltaTime (S k) payload o acc
  = MidiMessage.readDeltaTime k payload (S o) (acc * 128 + y).
Proof.
  intros Hread Hy. destruct (deltaTime_octet y Hy) as (Ha & Hb & _).
  cbn [MidiMessage.readDeltaTime]. unfold Buffer.readUInt8. rewrite Hread.
  cbn [mbind option_bind]. rewrite Hb, Ha. cbn [negb].
  by rewrite lor_shiftl_small by lia.
Qed.

Lemma readDeltaTime_last k payload o acc y :
  payload !! o = Some y → 0 ≤ y ≤ 127 →
  MidiMessage.readDeltaTime (S k) payload o acc = Some (acc * 128 + y, S o).
Proof.
  intros Hread Hy. destruct (deltaTime_octet y Hy) as (_ & _ & Ha & Hb).
  cbn [MidiMessage.readDeltaTime]. unfold Buffer.readUInt8. rewrite Hread.
  cbn [mbind option_bind]. rewrite Hb, Ha. cbn [negb].
  by rewrite lor_shiftl_small by lia.
Qed.

Lemma lookup_behind_0 {A} (pre : list A) x l : (pre ++ x :: l) !! length pre = Some x.
Proof. apply list_lookup_middle. done. Qed.

Lemma lookup_behind_1 {A} (pre : list A) x0 x l :
  (pre ++ x0 :: x :: l) !! S (length pre) = Some x.
Proof. rewrite lookup_app_r by lia. by replace (S (length pre) - length pre)%nat with 1%nat by lia. Qed.

Lemma lookup_behind_2 {A} (pre : list A) x0 x1 x l :
  (pre ++ x0 :: x1 :: x :: l) !! S (S (length pre)) = Some x.
Proof. rewrite lookup_app_r by lia. by replace (S (S (length pre)) - length pre)%nat with 2%nat by lia. Qed.

Lemma lookup_behind_3 {A} (pre : list A) x0 x1 x2 x l :
  (pre ++ x0 :: x1 :: x2 :: x :: l) !! S (S (S (length pre))) = Some x.
Proof. rewrite lookup_app_r by lia. by replace (S (S (S (length pre))) - length pre)%nat with 3%nat by lia. Qed.

(** X18.  The decoder reads the delta-time octets the encoder writes
    back to the delta-time modulo 128 to the power of their number, and
    stops behind them: the value comes back whenever it fits the one to
    four octets the encoder has chosen for it. *)
Theorem deltaTime_decoded dt pre rest :
  0 ≤ dt < 2147483648 →
  MidiMessage.readDeltaTime 4 (pre ++ MidiMessage.deltaTimeBytes dt ++ rest) (length pre) 0
  = Some (dt mod 128 ^ Z.of_nat (MidiMessage.deltaTimeLength dt),
          (length pre + MidiMessage.deltaTimeLength dt)%nat).
Proof.
  intros Hdt.
  assert (Hint : JS.toInt32 dt = dt).
  { unfold JS.toInt32. rewrite Z.mod_small by lia. lia. }
  pose proof (septet dt 21 ltac:(lia)) as H21.
  pose proof (septet dt 14 ltac:(lia)) as H14.
  pose proof (septet dt 7 ltac:(lia)) as H7.
  assert (H0 : 0 ≤ Z.land 0x7f dt ≤ 127).
  { rewrite Z.land_comm, land_0x7f by lia. pose proof (Z.mod_pos_bound dt 128). lia. }
  assert (Hvalue21 : Z.land 0x7f (Z.shiftr dt 21) = (dt / 2097152) mod 128).
  { rewrite Z.land_comm, land_0x7f by (apply Z.shiftr_nonneg; lia).
    by rewrite Z.shiftr_div_pow2 by lia. }
  assert (Hvalue14 : Z.land 0x7f (Z.shiftr dt 14) = (dt / 16384) mod 128).
  { rewrite Z.land_comm, land_0x7f by (apply Z.shiftr_nonneg; lia).
    by rewrite Z.shiftr_div_pow2 by lia. }
  assert (Hvalue7 : Z.land 0x7f (Z.shiftr dt 7) = (dt / 128) mod 128).
  { rewrite Z.land_comm, land_0x7f by (apply Z.shiftr_nonneg; lia).
    by rewrite Z.shiftr_div_pow2 by lia. }
  assert (Hvalue0 : Z.land 0x7f dt = dt mod 128).
  { by rewrite Z.land_comm, land_0x7f by lia. }
  unfold MidiMessage.deltaTimeBytes, MidiMessage.deltaTimeLength. rewrite Hint.
  destruct (0x7f7f7f <=? dt) eqn:E3; destruct (0x7f7f <=? dt) eqn:E2;
    destruct (0x7f <=? dt) eqn:E1;
    repeat match goal with
           | H : (_ <=? _) = true |- _ => apply Z.leb_le in H
           | H : (_ <=? _) = false |- _ => apply Z.leb_gt in H
           end; try lia; cbn [app].
  - rewrite (readDeltaTime_more _ _ _ _ _ (lookup_behind_0 pre _ _) H21).
    rewrite (readDeltaTime_more _ _ _ _ _ (lookup_behind_1 pre _ _ _) H14).
    rewrite (readDeltaTime_more _ _ _ _ _ (lookup_behind_2 pre _ _ _ _) H7).
    rewrite (readDeltaTime_last _ _ _ _ _ (lookup_behind_3 pre _ _ _ _ _) H0).
    f_equal. f_equal; [|lia].
    rewrite Hvalue21, Hvalue14, Hvalue7, Hvalue0.
    change (128 ^ Z.of_nat 4) with 268435456.
    change 2097152 with (128 * (128 * 128)). change 16384 with (128 * 128).
    rewrite <- !Z.div_div by lia. Z.div_mod_to_equations. lia.
  - rewrite (readDeltaTime_more _ _ _ _ _ (lookup_behind_0 pre _ _) H14).
    rewrite (readDeltaTime_more _ _ _ _ _ (lookup_behind_1 pre _ _ _) H7).
    rewrite (readDeltaTime_last _ _ _ _ _ (lookup_behind_2 pre _ _ _ _) H0).
    f_equal. f_equal; [|lia].
    rewrite Hvalue14, Hvalue7, Hvalue0.
    change (128 ^ Z.of_nat 3) with 2097152.
    change 16384 with (128 * 128).
    rewrite <- !Z.div_div by lia. Z.div_mod_to_equations. lia.
  - rewrite (readDeltaTime_more _ _ _ _ _ (lookup_behind_0 pre _ _) H7).
    rewrite (readDeltaTime_last _ _ _ _ _ (lookup_behind_1 pre _ _ _) H0).
    f_equal. f_equal; [|lia].
    rewrite Hvalue7, Hvalue0.
    change (128 ^ Z.of_nat 2) with 16384. Z.div_mod_to_equations. lia.
  - rewrite (readDeltaTime_last _ _ _ _ _ (lookup_behind_0 pre _ _) H0).
    f_equal. f_equal; [|lia].
    rewrite Hvalue0. change (128 ^ Z.of_nat 1) with 128. lia.
Qed.

Lemma deltaTime_decoded_witness :
  MidiMessage.readDeltaTime 4 ([0x08] ++ MidiMessage.deltaTimeBytes 16384 ++ [0x90])
    (length [0x08]) 0
  = Some (16384 mod 128 ^ Z.of_nat (MidiMessage.deltaTimeLength 16384),
          (length [0x08] + MidiMessage.deltaTimeLength 16384)%nat).
Proof. apply (deltaTime_decoded 16384 [0x08] [0x90]). lia. Defined.

(** ** The RTP header, written and read *)

Lemma parseRTP_plain fb sb s0 s1 t0 t1 t2 t3 x0 x1 x2 x3 payload :
  Z.land fb 0xF = 0 → MidiMessage.flag (Z.shiftr fb 4) 1 = false →
  MidiMessage.parseRTP ([fb; sb; s0; s1; t0; t1; t2; t3; x0; x1; x2; x3] ++ payload)
  = Some (MidiMessage.mkParsed
            (MidiMessage.mk (Z.shiftr fb 6) (MidiMessage.flag (Z.shiftr fb 5) 1) false []
               (Z.land sb 0x80 =? 0x80) (Z.land sb 0x7f) (s0 * 256 + s1)
               (((t0 * 256 + t1) * 256 + t2) * 256 + t3)
               (((x0 * 256 + x1) * 256 + x2) * 256 + x3)
               None None false false [] true)
            0 None payload false false None None None).
Proof.
  intros Hcount Hext. unfold MidiMessage.parseRTP.
  cbn [app Buffer.readUInt8 Buffer.readUInt16BE Buffer.readUInt32BE lookup list_lookup
       Nat.add mbind option_bind].
  rewrite Hcount, Hext. reflexivity.
Qed.

Lemma generateRTP_parseRTP m payload :
  plainRTP m →
  ∃ buffer,
    MidiMessage.generateRTP m payload = Some buffer
    ∧ length buffer = (12 + length payload)%nat
    ∧ MidiMessage.parseRTP buffer
      = Some (MidiMessage.mkParsed
                (MidiMessage.mk (MidiMessage.version m) (MidiMessage.padding m) false []
                   (MidiMessage.marker m) (MidiMessage.payloadType m)
                   (MidiMessage.sequenceNumber m) (MidiMessage.timestamp m)
                   (MidiMessage.ssrc m) None None false false [] true)
                0 None payload false false None None None).
Proof.
  intros (Hcs & Hext & Hv & Hpt & Hseq & Hts & Hssrc).
  destruct (first_byte (MidiMessage.version m) (MidiMessage.padding m) Hv)
    as (_ & Hversion & Hpadding & Hnoext & Hcount).
  destruct (second_byte (MidiMessage.payloadType m) (MidiMessage.marker m) Hpt)
    as (_ & Hmarker & Htype).
  eexists. split; [by apply generateRTP_plain|].
  split; [rewrite length_app; reflexivity|].
  rewrite parseRTP_plain by done. unfold fits32 in *.
  rewrite Hversion, Hpadding, Hmarker, Htype, u16_recompose.
  by rewrite !byte_recompose by lia.
Qed.

(** X19.  The header [RTPMessage.generateBuffer] writes in front of a
    payload is read back by [RTPMessage.parseBuffer]: version, padding
    and marker flags, payload type, sequence number, timestamp and SSRC
    come back as they were, and so does the payload. *)
Theorem RTP_header_round_trip m payload :
  plainRTP m →
  ∃ buffer r,
    MidiMessage.generateRTP m payload = Some buffer
    ∧ length buffer = (12 + length payload)%nat
    ∧ MidiMessage.parseRTP buffer = Some r
    ∧ MidiMessage.payload r = payload
    ∧ MidiMessage.version (MidiMessage.message r) = MidiMessage.version m
    ∧ MidiMessage.padding (MidiMessage.message r) = MidiMessage.padding m
    ∧ MidiMessage.marker (MidiMessage.message r) = MidiMessage.marker m
    ∧ MidiMessage.payloadType (MidiMessage.message r) = MidiMessage.payloadType m
    ∧ MidiMessage.sequenceNumber (MidiMessage.message r) = MidiMessage.sequenceNumber m
    ∧ MidiMessage.timestamp (MidiMessage.message r) = MidiMessage.timestamp m
    ∧ MidiMessage.ssrc (MidiMessage.message r) = MidiMessage.ssrc m
    ∧ MidiMessage.csrcs (MidiMessage.message r) = []
    ∧ MidiMessage.hasExtension (MidiMessage.message r) = false.
Proof.
  intros Hplain.
  destruct (generateRTP_parseRTP m payload Hplain) as (buffer & Hgen & Hlen & Hparse).
  eexists _, _. split; [exact Hgen|]. split; [exact Hlen|]. split; [exact Hparse|].
  repeat split; done.
Qed.

Lemma RTP_header_round_trip_witness :
  ∃ buffer r,
    MidiMessage.generateRTP (outgoing 8 50000 0x01020304 []) [0x03; 0x90; 60; 127]
    = Some buffer
    ∧ MidiMessage.parseRTP buffer = Some r
    ∧ MidiMessage.payload r = [0x03; 0x90; 60; 127]
    ∧ MidiMessage.sequenceNumber (MidiMessage.message r) = 8
    ∧ MidiMessage.timestamp (MidiMessage.message r) = 50000.
Proof.
  assert (Hplain : plainRTP (outgoing 8 50000 0x01020304 []))
    by (unfold plainRTP, fits32; simpl; repeat split; (done || lia)).
  destruct (RTP_header_round_trip (outgoing 8 50000 0x01020304 []) [0x03; 0x90; 60; 127]
              Hplain)
    as (buffer & r & Hgen & _ & Hparse & Hpayload & _ & _ & _ & _ & Hseq & Hts & _).
  exists buffer, r. repeat split; done.
Defined.

(** ** What the decoder makes of a packet *)

Lemma command_header n :
  1 ≤ n ≤ 15 →
  MidiMessage.flag n MidiMessage.FLAG_BIG_LENGTH = false
  ∧ MidiMessage.flag n MidiMessage.FLAG_HAS_JOURNAL = false
  ∧ MidiMessage.flag n MidiMessage.FLAG_FIRST_HAS_DELTA_TIME = false
  ∧ MidiMessage.flag n MidiMessage.FLAG_P = false
  ∧ Z.land n 0x0f = n.
Proof.
  intros Hn.
  pose proof (octet_cases
    (λ n, (15 <? n)
          || (negb (MidiMessage.flag n MidiMessage.FLAG_BIG_LENGTH)
              && negb (MidiMessage.flag n MidiMessage.FLAG_HAS_JOURNAL)
              && negb (MidiMessage.flag n MidiMessage.FLAG_FIRST_HAS_DELTA_TIME)
              && negb (MidiMessage.flag n MidiMessage.FLAG_P)
              && (Z.land n 0x0f =? n)))
    ltac:(vm_compute; reflexivity) n ltac:(lia)) as Hcheck.
  simpl in Hcheck. destruct (15 <? n) eqn:Hbig; [apply Z.ltb_lt in Hbig; lia|].
  simpl in Hcheck.
  repeat match goal with
         | H : _ && _ = true |- _ => apply andb_true_iff in H as [? ?]
         | H : (_ =? _) = true |- _ => apply Z.eqb_eq in H
         | H : negb _ = true |- _ => apply negb_true_iff in H
         end.
  done.
Qed.

Lemma status_octet status :
  128 ≤ status ≤ 255 → (Z.land status 0x80 =? 0x80) = true.
Proof.
  intros Hs.
  pose proof (octet_cases (λ b, (b <? 128) || (Z.land b 0x80 =? 0x80))
                ltac:(vm_compute; reflexivity) status ltac:(lia)) as Hcheck.
  simpl in Hcheck. destruct (status <? 128) eqn:Hsmall; [apply Z.ltb_lt in Hsmall; lia|].
  exact Hcheck.
Qed.

(** X20.  A packet with the layout of the standard is decoded: behind
    its RTP header, a payload made of a header octet with the length of
    the command section, a status octet and as many data octets as the
    length table gives for the status comes back as one command with
    delta-time 0, and the message is valid. *)
Theorem single_command_decoded getDataLength m status data :
  plainRTP m →
  128 ≤ status ≤ 255 → status ≠ 0xf0 →
  getDataLength status = length data → (1 ≤ length data ≤ 14)%nat →
  ∃ buffer r,
    MidiMessage.generateRTP m (Z.of_nat (S (length data)) :: status :: data) = Some buffer
    ∧ MidiMessage.parseBuffer getDataLength buffer = Some r
    ∧ MidiMessage.commands (MidiMessage.message r) = [MidiMessage.mkCommand 0 (status :: data)]
    ∧ MidiMessage.isValid (MidiMessage.message r) = true
    ∧ MidiMessage.sequenceNumber (MidiMessage.message r) = MidiMessage.sequenceNumber m
    ∧ MidiMessage.timestamp (MidiMessage.message r) = MidiMessage.timestamp m
    ∧ MidiMessage.ssrc (MidiMessage.message r) = MidiMessage.ssrc m.
Proof.
  intros Hplain Hstatus Hsysex Htable Hlen.
  destruct (generateRTP_parseRTP m (Z.of_nat (S (length data)) :: status :: data) Hplain)
    as (buffer & Hgen & _ & Hparse).
  destruct (command_header (Z.of_nat (S (length data))) ltac:(lia))
    as (Hbig & Hjournal & Hfirst & Hp & Hnibble).
  exists buffer. eexists. split; [exact Hgen|].
  unfold MidiMessage.parseBuffer. rewrite Hparse.
  cbn [mbind option_bind MidiMessage.payload MidiMessage.message].
  rewrite bool_decide_false by done.
  cbn [Buffer.readUInt8 lookup list_lookup mbind option_bind].
  rewrite Hbig, Hjournal, Hfirst, Hp, Hnibble. cbn [mbind option_bind andb].
  cbn [length Nat.add MidiMessage.parseCommands].
  rewrite bool_decide_true by lia.
  rewrite bool_decide_true by done. cbn [negb orb mbind option_bind].
  cbn [Buffer.readUInt8 lookup list_lookup mbind option_bind].
  rewrite (status_octet status Hstatus).
  assert ((status =? 0xf0) = false) as -> by (by apply Z.eqb_neq).
  cbn [mbind option_bind andb]. rewrite Htable.
  rewrite (bool_decide_false (S (S (length data)) < 2 + length data)%nat) by lia.
  change (drop 2 (Z.of_nat (S (length data)) :: status :: data)) with data.
  rewrite take_ge by lia.
  rewrite (bool_decide_false (Z.of_nat (2 + length data) < _)) by lia.
  split; [reflexivity|].
  cbn [MidiMessage.message MidiMessage.commands MidiMessage.isValid MidiMessage.scanned
       MidiMessage.scanValid MidiMessage.sequenceNumber MidiMessage.timestamp
       MidiMessage.ssrc app].
  repeat split; done.
Qed.

Lemma single_command_decoded_witness :
  ∃ buffer r,
    MidiMessage.generateRTP (outgoing 8 50000 0x01020304 []) [0x03; 0x90; 60; 127]
    = Some buffer
    ∧ MidiMessage.parseBuffer sample_getDataLength buffer = Some r
    ∧ MidiMessage.commands (MidiMessage.message r)
      = [MidiMessage.mkCommand 0 [0x90; 60; 127]]
    ∧ MidiMessage.isValid (MidiMessage.message r) = true.
Proof.
  assert (Hplain : plainRTP (outgoing 8 50000 0x01020304 []))
    by (unfold plainRTP, fits32; simpl; repeat split; (done || lia)).
  destruct (single_command_decoded sample_getDataLength (outgoing 8 50000 0x01020304 [])
              0x90 [60; 127] Hplain ltac:(lia) ltac:(lia) eq_refl ltac:(simpl; lia))
    as (buffer & r & Hgen & Hparse & Hcommands & Hvalid & _).
  exists buffer, r. repeat split; done.
Defined.

(** ** What the encoder makes of a command *)

Lemma storeBytes_inserts vs : ∀ payload o,
  MidiMessage.storeBytes payload o vs = (list_inserts (S o) vs payload, (o + length vs)%nat).
Proof.
  induction vs as [|v vs IH]; intros payload o.
  - simpl. f_equal. lia.
  - cbn [MidiMessage.storeBytes]. rewrite IH. cbn [list_inserts length]. f_equal; [|lia].
    symmetry. apply list_insert_inserts_lt. lia.
Qed.

Lemma inserts_overflow (k l : list Z) :
  (length l ≤ length k)%nat → list_inserts 0 k l = take (length l) k.
Proof.
  intros Hlen. apply list_eq. intros i.
  destruct (decide (i < length l)%nat) as [Hi|Hi].
  - rewrite list_lookup_inserts by lia. rewrite lookup_take_lt by done. f_equal. lia.
  - rewrite lookup_take_ge by lia. apply lookup_ge_None. rewrite length_inserts. lia.
Qed.

(** X21.  The encoder writes every octet of the command section one
    place too far: for a message of one command with delta-time 0 the
    payload is the header octet, a zero octet, and the command without
    its last octet. *)
Theorem single_command_encoded getDataLength m status data :
  MidiMessage.commands m = [MidiMessage.mkCommand 0 (status :: data)] →
  MidiMessage.hasJournal m = false → MidiMessage.p m = false →
  status ≠ 0xf0 → getDataLength status = length data → (1 ≤ length data ≤ 14)%nat →
  MidiMessage.generatePayload getDataLength m
  = Some (Z.of_nat (S (length data)) :: 0 :: status :: take (length data - 1) data).
Proof.
  intros Hcommands Hjournal Hp Hsysex Htable Hlen.
  destruct (command_header (Z.of_nat (S (length data))) ltac:(lia))
    as (_ & _ & _ & _ & Hnibble).
  assert (Hnibble' : Z.lor (Z.lor (Z.lor (Z.lor 0 0) 0) 0)
                       (Z.land 15 (Z.of_nat (S (length data))))
                     = Z.of_nat (S (length data)))
    by (rewrite Z.land_comm, Hnibble; reflexivity).
  unfold MidiMessage.generatePayload. rewrite Hcommands, Hjournal, Hp.
  cbn [MidiMessage.measure MidiMessage.deltaTime MidiMessage.data length lookup
       list_lookup].
  assert ((status =? 0xf0) = false) as -> by (by apply Z.eqb_neq).
  rewrite Htable.
  rewrite (bool_decide_true (0%nat = 0%nat)) by done.
  rewrite (bool_decide_true ((length data + 1)%nat = S (length data))) by lia.
  rewrite (bool_decide_false (Some status = None)) by done.
  cbn [negb andb Z.eqb].
  replace (1 + (0 + length data + 1) - 1)%nat with (S (length data)) by lia.
  rewrite (bool_decide_false (15 < S (length data))%nat) by lia.
  cbn [MidiMessage.emit MidiMessage._length MidiMessage._hasOwnStatusByte MidiMessage.cmd].
  rewrite (bool_decide_true (0 < 0 + length data + 1)%nat) by lia.
  rewrite (bool_decide_false (0 < 0)%nat) by lia.
  cbn [orb mbind option_bind drop MidiMessage.data].
  rewrite storeBytes_inserts.
  f_equal. unfold Buffer.alloc.
  replace (1 + (0 + length data + 1))%nat with (S (S (length data))) by lia.
  cbn [replicate]. cbn [insert list_insert].
  rewrite !list_inserts_cons.
  rewrite inserts_overflow by (rewrite length_replicate; simpl; lia).
  rewrite length_replicate.
  rewrite Hnibble'. 
  destruct (length data) as [|n] eqn:Hn; [lia|].
  cbn [take]. replace (S n - 1)%nat with n by lia. reflexivity.
Qed.

Lemma single_command_encoded_witness :
  MidiMessage.generatePayload sample_getDataLength
    (outgoing 8 50000 0x01020304 [MidiMessage.mkCommand 0 [0x90; 60; 127]])
  = Some [0x03; 0x00; 0x90; 60].
Proof.
  apply (single_command_encoded sample_getDataLength
           (outgoing 8 50000 0x01020304 [MidiMessage.mkCommand 0 [0x90; 60; 127]])
           0x90 [60; 127]); first [reflexivity | lia | simpl; lia].
Defined.

(** ** The send queue of the session *)








Lemma sendToStreams_notReady getDataLength now now_again randomToken randomSequenceNr
    s timestamp commands l :
  Forall notReady l →
  Session.sendToStreams getDataLength now now_again randomToken randomSequenceNr
    s l timestamp commands = Some (l, []).
Proof.
  induction 1 as [|st l Hst _ IH]; [done|].
  cbn [Session.sendToStreams]. rewrite IH. cbn [mbind option_bind].
  destruct (Stream.isConnected st) eqn:Hconnected; [|done].
  unfold Stream.sendMessage.
  destruct Hst as [Hc | [Hl | Htd]]; [congruence | rewrite Hl | rewrite Htd];
    rewrite ?bool_decide_true by done; rewrite ?orb_true_r; done.
Qed.

(** X23.  When no stream of the session is both connected and
    synchronized, [flushQueue] empties the queue without sending
    anything: what was queued is gone, and no stream has changed. *)
Theorem flushQueue_discards
    getDataLength now now_again randomToken randomSequenceNr q :
  Forall notReady (Session.streams (Session.sender q)) →
  Session.flushQueue getDataLength now now_again randomToken randomSequenceNr q
  = Some (Session.mkSending (Session.sender q) [] false (Session.bundle q)
            (Session.startTime q), []).
Proof.
  intros Hstreams. unfold Session.flushQueue. case_bool_decide; [done|].
  rewrite sendToStreams_notReady by done. cbn [mbind option_bind].
  by destruct (Session.sender q).
Qed.

Lemma flushQueue_discards_witness :
  Session.flushQueue sample_getDataLength 1010 1020 7 7 early_sender
  = Some (Session.mkSending (Session.sender early_sender) [] false true 0, []).
Proof.
  apply (flushQueue_discards sample_getDataLength 1010 1020 7 7 early_sender).
  repeat constructor.
Defined.

(** ** Ending streams and sessions *)

Lemma goodbye_packet h env tok name :
  fits32 (JS.to_number tok) → fits32 (session_ssrc env) →
  ∃ bytes answer,
    ControlMessage.generateBuffer h (Stream.invitationLike env end_ tok name) = Some bytes
    ∧ ControlMessage.parseBuffer [bytes] (mkBuf 0 0 (length bytes)) = Some answer
    ∧ ControlMessage.command answer = Some end_
    ∧ ControlMessage.token answer = JS.number (JS.to_number tok)
    ∧ ControlMessage.ssrc answer = JS.number (session_ssrc env)
    ∧ ControlMessage.name answer = String.append name (String Ascii.zero EmptyString).
Proof.
  intros Ht Hx. eexists _, _. split.
  { apply (generateBuffer_invitation h _ end_ 2 (JS.to_number tok) (session_ssrc env));
      first [ reflexivity | done | by do 3 right | unfold fits32; lia ]. }
  split.
  { rewrite length_app. apply (parseBuffer_invitation [] end_). by do 3 right. }
  simpl. unfold fits32 in *. rewrite !byte_recompose by lia.
  repeat split; try done. apply string_of_bytes_of_string.
Qed.

Lemma end_connected env h s :
  canEnd s → fits32 (session_ssrc env) →
  ∃ d r answer,
    Stream.end' env h s
    = Some (Stream.set_connectionInterval None (Stream.set_syncInterval None s),
            [Stream.Send d])
    ∧ Stream.rinfo1 s = Some r ∧ dg_port d = port r ∧ dg_address d = address r
    ∧ ControlMessage.parseBuffer [dg_buffer d] (mkBuf 0 0 (length (dg_buffer d)))
      = Some answer
    ∧ ControlMessage.command answer = Some end_
    ∧ ControlMessage.token answer = JS.number (JS.to_number (Stream.token s))
    ∧ ControlMessage.ssrc answer = JS.number (session_ssrc env)
    ∧ ControlMessage.name answer
      = String.append (Stream.name s) (String Ascii.zero EmptyString).
Proof.
  intros (Hconnected & Hr & Htoken) Hssrc.
  destruct (Stream.rinfo1 s) as [r|] eqn:Hrinfo; [|done].
  destruct (goodbye_packet h env (Stream.token s) (Stream.name s) Htoken Hssrc)
    as (bytes & answer & Hgen & Hparse & Hcmd & Htok & Hsrc & Hname).
  unfold Stream.end'.
  cbn [Stream.isConnected Stream.set_connectionInterval Stream.set_syncInterval].
  rewrite Hconnected. unfold Stream.sendEndstream, sendUdpMessage, ControlMessage_sendable.
  cbn [generateBuffer isValid Stream.rinfo1 Stream.token Stream.name
       Stream.set_connectionInterval Stream.set_syncInterval].
  rewrite Hrinfo, Hgen. cbn [mbind option_bind Stream.invitationLike ControlMessage.isValid].
  eexists _, r, answer. split; [reflexivity|].
  cbn [dg_port dg_address dg_buffer]. repeat split; done.
Qed.

(** X24.  [end] on a connected stream stops the retry and the
    clock-sync timers, leaves a pending receiver feedback armed, and
    sends to the control address an [end] packet with the token of the
    stream, the SSRC of the session and the name of the peer; the stream
    counts as connected until that packet has been sent. *)
Theorem end_sends_goodbye env h s :
  canEnd s → fits32 (session_ssrc env) →
  ∃ s' d r answer,
    Stream.end' env h s = Some (s', [Stream.Send d])
    ∧ Stream.syncInterval s' = None ∧ Stream.connectionInterval s' = None
    ∧ Stream.receiverFeedbackTimeout s' = Stream.receiverFeedbackTimeout s
    ∧ Stream.isConnected s' = true
    ∧ Stream.isConnected (Stream.endSent s').2 = false
    ∧ Stream.rinfo1 s = Some r ∧ dg_port d = port r ∧ dg_address d = address r
    ∧ ControlMessage.parseBuffer [dg_buffer d] (mkBuf 0 0 (length (dg_buffer d)))
      = Some answer
    ∧ ControlMessage.command answer = Some end_
    ∧ ControlMessage.token answer = JS.number (JS.to_number (Stream.token s))
    ∧ ControlMessage.ssrc answer = JS.number (session_ssrc env)
    ∧ ControlMessage.name answer
      = String.append (Stream.name s) (String Ascii.zero EmptyString).
Proof.
  intros Hs Hssrc.
  destruct (end_connected env h s Hs Hssrc) as (d & r & answer & Hend & Hrest).
  destruct Hs as (Hconnected & _).
  eexists _, d, r, answer. split; [exact Hend|].
  split; [done|]. split; [done|]. split; [done|]. split; [exact Hconnected|].
  split; [done|]. exact Hrest.
Qed.

Lemma end_sends_goodbye_witness :
  ∃ s' d r answer,
    Stream.end' sample_env [] connected_stream = Some (s', [Stream.Send d])
    ∧ Stream.rinfo1 connected_stream = Some r
    ∧ dg_port d = port r
    ∧ ControlMessage.parseBuffer [dg_buffer d] (mkBuf 0 0 (length (dg_buffer d)))
      = Some answer
    ∧ ControlMessage.command answer = Some end_
    ∧ ControlMessage.name answer = String "B" (String Ascii.zero EmptyString).
Proof.
  destruct (end_sends_goodbye sample_env [] connected_stream)
    as (s' & d & r & answer & Hend & _ & _ & _ & _ & _ & Hr & Hport & _ & Hparse & Hcmd
        & _ & _ & Hname).
  { unfold canEnd, fits32. simpl. repeat split; (done || lia). }
  { unfold fits32. simpl. lia. }
  exists s', d, r, answer. repeat split; done.
Defined.

Lemma next_step now now_again randomToken randomSequenceNr fuel done x rest
    ssrc name last out :
  canEnd x → fits32 ssrc →
  ∃ out',
    Session.next now now_again randomToken randomSequenceNr (S fuel) (length done)
      (Session.mk (done ++ x :: rest) ssrc name last) out
    = Session.next now now_again randomToken randomSequenceNr fuel (S (length done))
        (Session.mk (done ++ rest) ssrc name last) out'.
Proof.
  intros Hx Hssrc.
  destruct (end_connected
              (Session.envOf now now_again randomToken randomSequenceNr
                 (Session.mk (done ++ x :: rest) ssrc name last)) [] x Hx Hssrc)
    as (d & _ & _ & Hend & _).
  destruct Hx as (Hconnected & _).
  cbn [Session.next Session.streams]. rewrite list_lookup_middle by done.
  rewrite Hend. cbn [mbind option_bind].
  cbn [Stream.isConnected Stream.set_connectionInterval Stream.set_syncInterval].
  rewrite Hconnected. rewrite bool_decide_false by done.
  cbn [foldl Stream.endSent fst Session.perform Session.output Session.session
       Session.attached Session.outputs Session.removeStream Session.updateStream
       Session.streams Session.ssrc Session.bonjourName Session.lastMessageTime].
  eexists. f_equal. f_equal. rewrite delete_insert_same.
  rewrite delete_take_drop, take_app_length.
  f_equal. rewrite (cons_middle x done rest), app_assoc.
  apply drop_app_length'. rewrite length_app. simpl. lia.
Qed.

Lemma next_alternate now now_again randomToken randomSequenceNr ssrc name last :
  fits32 ssrc →
  ∀ n rest done fuel out,
    (length rest ≤ n)%nat → (length rest < fuel)%nat → Forall canEnd rest →
    ∃ out',
      Session.next now now_again randomToken randomSequenceNr fuel (length done)
        (Session.mk (done ++ rest) ssrc name last) out
      = Some (Session.mk (done ++ alternate rest) ssrc name last, out', true).
Proof.
  intros Hssrc n. induction n as [|n IH]; intros rest done fuel out Hn Hfuel Hrest.
  - destruct rest; [|simpl in Hn; lia]. destruct fuel as [|fuel]; [simpl in Hfuel; lia|].
    cbn [Session.next Session.streams alternate]. rewrite app_nil_r.
    rewrite (lookup_ge_None_2 done (length done)) by done. by eexists.
  - destruct rest as [|x rest].
    { destruct fuel as [|fuel]; [simpl in Hfuel; lia|].
      cbn [Session.next Session.streams alternate]. rewrite app_nil_r.
      rewrite (lookup_ge_None_2 done (length done)) by done. by eexists. }
    destruct fuel as [|fuel]; [simpl in Hfuel; lia|].
    apply Forall_cons_1 in Hrest as [Hx Hrest].
    destruct (next_step now now_again randomToken randomSequenceNr fuel done x rest
                ssrc name last out Hx Hssrc) as (out1 & ->).
    destruct rest as [|y rest].
    + destruct fuel as [|fuel]; [simpl in Hfuel; lia|].
      cbn [Session.next Session.streams alternate].
      rewrite (lookup_ge_None_2 (done ++ []) (S (length done)))
        by (rewrite app_nil_r; lia). by eexists.
    + apply Forall_cons_1 in Hrest as [_ Hrest].
      cbn [alternate].
      rewrite (cons_middle y done rest), app_assoc.
      rewrite (cons_middle y done (alternate rest)), app_assoc.
      replace (S (length done)) with (length (done ++ [y]))
        by (rewrite length_app; simpl; lia).
      apply IH; [simpl in Hn; lia | simpl in Hfuel; lia | done].
Qed.

(** X25.  [Session.end] ends only every second stream.  Its index
    goes up by one after each stream, while each stream that has said
    goodbye is taken out of the list it indexes: of the connected
    streams of a session, the second, the fourth and so on are left in
    the list, untouched and still connected, when the sockets are
    closed. *)
Theorem session_end_skips now now_again randomToken randomSequenceNr s :
  Forall canEnd (Session.streams s) → fits32 (Session.ssrc s) →
  ∃ out,
    Session.end' now now_again randomToken randomSequenceNr s
    = Some (Session.mk (alternate (Session.streams s)) (Session.ssrc s)
              (Session.bonjourName s) (Session.lastMessageTime s),
            out, true).
Proof.
  intros Hstreams Hssrc. unfold Session.end'. destruct s as [streams ssrc name last].
  cbn [Session.streams Session.ssrc Session.bonjourName Session.lastMessageTime] in *.
  exact (next_alternate now now_again randomToken randomSequenceNr ssrc name last Hssrc
           (length streams) streams [] (S (length streams)) []
           ltac:(lia) ltac:(lia) Hstreams).
Qed.

Lemma session_end_skips_witness :
  ∃ out,
    Session.end' 1010 1020 7 7 busy_session
    = Some (Session.mk [Stream.set_name "C" connected_stream] 0x01020304 "A" 0, out, true).
Proof.
  apply (session_end_skips 1010 1020 7 7 busy_session).
  - unfold canEnd, fits32. repeat constructor; simpl; (done || lia).
  - unfold fits32. simpl. lia.
Defined.

(** ** MIDI time code *)

Lemma land_octet X mask : 0 ≤ mask ≤ 255 → Z.land X mask = Z.land (X mod 256) mask.
Proof.
  intros Hmask. change 256 with (2 ^ 8).
  rewrite <- (Z.land_ones X 8) by lia. rewrite <- Z.land_assoc. f_equal.
  change (Z.ones 8) with 255.
  pose proof (octet_cases (λ b, Z.land 255 b =? b) ltac:(vm_compute; reflexivity)
                mask Hmask) as Hcheck.
  simpl in Hcheck. apply Z.eqb_eq in Hcheck. by rewrite Hcheck.
Qed.

Lemma nibble_cases (P : Z → bool) :
  forallb P (seqZ 0 16) = true → ∀ n, 0 ≤ n ≤ 15 → P n = true.
Proof.
  intros Hall n Hn. rewrite forallb_forall in Hall. apply Hall.
  apply list_elem_of_In, elem_of_seqZ. lia.
Qed.

(** Two nibbles written one after the other into a field make the
    octet, whatever the field held. *)
Lemma nibbles_assembled X n0 n1 :
  0 ≤ n0 ≤ 15 → 0 ≤ n1 ≤ 15 →
  Z.lor (Z.land (Z.lor (Z.land X 0xf0) n0) 0x0f) (Z.shiftl n1 4) = n0 + 16 * n1.
Proof.
  intros H0 H1. rewrite (land_octet X 0xf0) by lia.
  pose proof (Z.mod_pos_bound X 256 ltac:(lia)) as Hk.
  pose proof (octet_cases
    (λ k, forallb (λ n0, forallb (λ n1,
       Z.lor (Z.land (Z.lor (Z.land k 0xf0) n0) 0x0f) (Z.shiftl n1 4) =? n0 + 16 * n1)
       (seqZ 0 16)) (seqZ 0 16))
    ltac:(vm_compute; reflexivity) (X mod 256) ltac:(lia)) as Hcheck.
  cbv beta in Hcheck.
  pose proof (nibble_cases _ Hcheck n0 H0) as Hcheck0. cbv beta in Hcheck0.
  pose proof (nibble_cases _ Hcheck0 n1 H1) as Hcheck1. cbv beta in Hcheck1.
  by apply Z.eqb_eq in Hcheck1.
Qed.

(** The same for the hours, whose high piece holds one bit of the hour
    and the two bits of the rate. *)
Lemma hours_assembled X n0 n1 :
  0 ≤ n0 ≤ 15 → 0 ≤ n1 ≤ 15 →
  Z.lor (Z.land (Z.lor (Z.land X 0xf0) n0) 0x0f) (Z.land (Z.shiftl n1 4) 0x10)
  = n0 + 16 * (n1 mod 2)
  ∧ Z.land (Z.shiftr (Z.shiftl n1 4) 5) 0x3 = (n1 / 2) mod 4.
Proof.
  intros H0 H1. rewrite (land_octet X 0xf0) by lia.
  pose proof (Z.mod_pos_bound X 256 ltac:(lia)) as Hk.
  pose proof (octet_cases
    (λ k, forallb (λ n0, forallb (λ n1,
       (Z.lor (Z.land (Z.lor (Z.land k 0xf0) n0) 0x0f) (Z.land (Z.shiftl n1 4) 0x10)
        =? n0 + 16 * (n1 mod 2))
       && (Z.land (Z.shiftr (Z.shiftl n1 4) 5) 0x3 =? (n1 / 2) mod 4))
       (seqZ 0 16)) (seqZ 0 16))
    ltac:(vm_compute; reflexivity) (X mod 256) ltac:(lia)) as Hcheck.
  cbv beta in Hcheck.
  pose proof (nibble_cases _ Hcheck n0 H0) as Hcheck0. cbv beta in Hcheck0.
  pose proof (nibble_cases _ Hcheck0 n1 H1) as Hcheck1. cbv beta in Hcheck1.
  apply andb_true_iff in Hcheck1 as [Ha Hb].
  apply Z.eqb_eq in Ha, Hb. done.
Qed.

Lemma quarter_octet t n :
  0 ≤ t ≤ 7 → 0 ≤ n ≤ 15 →
  Z.land (Z.shiftr (16 * t + n) 4) 0x7 = t ∧ Z.land (16 * t + n) 0x0f = n.
Proof.
  intros Ht Hn.
  pose proof (octet_cases
    (λ q, (Z.land (Z.shiftr q 4) 0x7 =? (q / 16) mod 8) && (Z.land q 0x0f =? q mod 16))
    ltac:(vm_compute; reflexivity) (16 * t + n) ltac:(lia)) as Hcheck.
  cbv beta in Hcheck. apply andb_true_iff in Hcheck as [Ha Hb].
  apply Z.eqb_eq in Ha, Hb. rewrite Ha, Hb. split.
  - replace ((16 * t + n) / 16) with t by (Z.div_mod_to_equations; lia).
    apply Z.mod_small. lia.
  - Z.div_mod_to_equations. lia.
Qed.

(** One quarter-frame message: the piece number picks the field and
    the half of it that takes the nibble. *)
Lemma applyQuarterTime_piece m s t n :
  0 ≤ t ≤ 7 → 0 ≤ n ≤ 15 →
  MTC.applyQuarterTime m [s; 16 * t + n]
  = if t =? 0 then
      (MTC.mk (MTC.hours m) (MTC.minutes m) (MTC.seconds m)
         (Z.lor (Z.land (MTC.frames m) 0xf0) n) (MTC.type m) (MTC.songPosition m), false)
    else if t =? 1 then
      (MTC.mk (MTC.hours m) (MTC.minutes m) (MTC.seconds m)
         (Z.lor (Z.land (MTC.frames m) 0x0f) (Z.shiftl n 4)) (MTC.type m)
         (MTC.songPosition m), false)
    else if t =? 2 then
      (MTC.mk (MTC.hours m) (MTC.minutes m) (Z.lor (Z.land (MTC.seconds m) 0xf0) n)
         (MTC.frames m) (MTC.type m) (MTC.songPosition m), false)
    else if t =? 3 then
      (MTC.mk (MTC.hours m) (MTC.minutes m)
         (Z.lor (Z.land (MTC.seconds m) 0x0f) (Z.shiftl n 4))
         (MTC.frames m) (MTC.type m) (MTC.songPosition m), false)
    else if t =? 4 then
      (MTC.mk (MTC.hours m) (Z.lor (Z.land (MTC.minutes m) 0xf0) n) (MTC.seconds m)
         (MTC.frames m) (MTC.type m) (MTC.songPosition m), false)
    else if t =? 5 then
      (MTC.mk (MTC.hours m) (Z.lor (Z.land (MTC.minutes m) 0x0f) (Z.shiftl n 4))
         (MTC.seconds m) (MTC.frames m) (MTC.type m) (MTC.songPosition m), false)
    else if t =? 6 then
      (MTC.mk (Z.lor (Z.land (MTC.hours m) 0xf0) n) (MTC.minutes m) (MTC.seconds m)
         (MTC.frames m) (MTC.type m) (MTC.songPosition m), false)
    else
      (MTC.mk (Z.lor (Z.land (MTC.hours m) 0x0f) (Z.land (Z.shiftl n 4) 0x10))
         (MTC.minutes m) (MTC.seconds m) (MTC.frames m)
         (Z.land (Z.shiftr (Z.shiftl n 4) 5) 0x3) (MTC.songPosition m), true).
Proof.
  intros Ht Hn. destruct (quarter_octet t n Ht Hn) as [Htype Hnibble].
  unfold MTC.applyQuarterTime.
  change (MTC.byte [s; 16 * t + n] 1) with (16 * t + n). cbv zeta.
  rewrite Htype, Hnibble.
  assert (t = 0 ∨ t = 1 ∨ t = 2 ∨ t = 3 ∨ t = 4 ∨ t = 5 ∨ t = 6 ∨ t = 7)
    as [-> | [-> | [-> | [-> | [-> | [-> | [-> | ->]]]]]]] by lia;
    reflexivity.
Qed.

(** X26.  The eight quarter-frame messages of a time code, applied in
    their order, leave the time code they spell in the object, whatever
    it held before: frames, seconds and minutes from two nibbles each,
    the hours from a nibble and one bit, the rate from the two bits above
    it.  [change] is emitted once, by the last of them. *)
Theorem quarter_frames_assembled m f0 f1 s0 s1 m0 m1 h0 h1 :
  0 ≤ f0 ≤ 15 → 0 ≤ f1 ≤ 15 → 0 ≤ s0 ≤ 15 → 0 ≤ s1 ≤ 15 →
  0 ≤ m0 ≤ 15 → 0 ≤ m1 ≤ 15 → 0 ≤ h0 ≤ 15 → 0 ≤ h1 ≤ 15 →
  applyQuarterTimes m (quarterFrames f0 f1 s0 s1 m0 m1 h0 h1)
  = (MTC.mk (h0 + 16 * (h1 mod 2)) (m0 + 16 * m1) (s0 + 16 * s1) (f0 + 16 * f1)
       ((h1 / 2) mod 4) (MTC.songPosition m),
     1%nat).
Proof.
  intros Hf0 Hf1 Hs0 Hs1 Hm0 Hm1 Hh0 Hh1.
  unfold applyQuarterTimes, quarterFrames. cbn [foldl].
  change (0x00 + f0) with (16 * 0 + f0). change (0x10 + f1) with (16 * 1 + f1).
  change (0x20 + s0) with (16 * 2 + s0). change (0x30 + s1) with (16 * 3 + s1).
  change (0x40 + m0) with (16 * 4 + m0). change (0x50 + m1) with (16 * 5 + m1).
  change (0x60 + h0) with (16 * 6 + h0). change (0x70 + h1) with (16 * 7 + h1).
  rewrite (applyQuarterTime_piece _ _ 0 f0) by lia. cbn [Z.eqb].
  rewrite (applyQuarterTime_piece _ _ 1 f1) by lia.
  cbn [Z.eqb Pos.eqb MTC.hours MTC.minutes MTC.seconds MTC.frames MTC.type
       MTC.songPosition].
  rewrite (applyQuarterTime_piece _ _ 2 s0) by lia.
  cbn [Z.eqb Pos.eqb MTC.hours MTC.minutes MTC.seconds MTC.frames MTC.type
       MTC.songPosition].
  rewrite (applyQuarterTime_piece _ _ 3 s1) by lia.
  cbn [Z.eqb Pos.eqb MTC.hours MTC.minutes MTC.seconds MTC.frames MTC.type
       MTC.songPosition].
  rewrite (applyQuarterTime_piece _ _ 4 m0) by lia.
  cbn [Z.eqb Pos.eqb MTC.hours MTC.minutes MTC.seconds MTC.frames MTC.type
       MTC.songPosition].
  rewrite (applyQuarterTime_piece _ _ 5 m1) by lia.
  cbn [Z.eqb Pos.eqb MTC.hours MTC.minutes MTC.seconds MTC.frames MTC.type
       MTC.songPosition].
  rewrite (applyQuarterTime_piece _ _ 6 h0) by lia.
  cbn [Z.eqb Pos.eqb MTC.hours MTC.minutes MTC.seconds MTC.frames MTC.type
       MTC.songPosition].
  rewrite (applyQuarterTime_piece _ _ 7 h1) by lia.
  cbn [Z.eqb Pos.eqb MTC.hours MTC.minutes MTC.seconds MTC.frames MTC.type
       MTC.songPosition].
  rewrite !nibbles_assembled by done.
  destruct (hours_assembled (MTC.hours m) h0 h1 Hh0 Hh1) as [-> ->].
  reflexivity.
Qed.

Lemma quarter_frames_assembled_witness :
  applyQuarterTimes MTC.new (quarterFrames 9 1 11 3 12 2 7 3)
  = (MTC.mk (7 + 16 * (3 mod 2)) (12 + 16 * 2) (11 + 16 * 3) (9 + 16 * 1)
       ((3 / 2) mod 4) 0, 1%nat).
Proof. apply (quarter_frames_assembled MTC.new 9 1 11 3 12 2 7 3); lia. Defined.

(** X27.  A song position message sets the position to its two data
    octets read as a 14-bit number, the low septet first, and emits
    [change] when that differs from the position before. *)
Theorem song_position_applied m status lsb msb :
  0 ≤ lsb ≤ 127 → 0 ≤ msb ≤ 127 →
  MTC.applySongPosition m [status; lsb; msb]
  = (MTC.mk (MTC.hours m) (MTC.minutes m) (MTC.seconds m) (MTC.frames m) (MTC.type m)
       (msb * 128 + lsb),
     negb (msb * 128 + lsb =? MTC.songPosition m))
  ∧ 0 ≤ msb * 128 + lsb < 16384.
Proof.
  intros Hl Hm. split; [|lia].
  unfold MTC.applySongPosition.
  change (MTC.byte [status; lsb; msb] 2) with msb.
  change (MTC.byte [status; lsb; msb] 1) with lsb. cbv zeta.
  by rewrite lor_shiftl_small by lia.
Qed.

Lemma song_position_applied_witness :
  MTC.applySongPosition MTC.new [0xf2; 0x10; 0x02]
  = (MTC.mk 0 0 0 0 0 (0x02 * 128 + 0x10), negb (0x02 * 128 + 0x10 =? 0))
  ∧ 0 ≤ 0x02 * 128 + 0x10 < 16384.
Proof. apply (song_position_applied MTC.new 0xf2 0x10 0x02); lia. Defined.

(** X28.  An RTP datagram that ends with its header is marked as not
    valid by the decoder, and is handled all the same: the session emits
    [midi] for it, and the stream with its SSRC takes its sequence number
    as the last one received and arms the receiver feedback. *)
Theorem empty_payload_still_counted
    getDataLength now now_again randomToken randomSequenceNr s bytes rinfo r index :
  Buffer.readUInt16BE bytes 0 ≠ Some 0xFFFF →
  MidiMessage.parseRTP bytes = Some r → MidiMessage.payload r = [] →
  streamOfMidi (MidiMessage.ssrc (MidiMessage.message r)) (Session.streams s) = Some index →
  ∃ old m stream,
    Session.streams s !! index = Some old
    ∧ MidiMessage.parseBuffer getDataLength bytes = Some m
    ∧ MidiMessage.isValid (MidiMessage.message m) = false
    ∧ Session.handleDatagram getDataLength now now_again randomToken randomSequenceNr
        s bytes rinfo
      = Some (Session.updateStream index stream s,
              [Session.Emitted (Session.midi (MidiMessage.message m))])
    ∧ Stream.lastReceivedSequenceNumber stream
      = MidiMessage.sequenceNumber (MidiMessage.message r)
    ∧ Stream.receiverFeedbackTimeout stream = true.
Proof.
  intros Hmagic Hrtp Hpayload Hfind.
  unfold streamOfMidi in Hfind.
  destruct (find_Some _ _ _ _ Hfind) as (k & old & -> & Hold & _ & _).
  assert (Hstart : ∃ start, Buffer.readUInt16BE bytes 0 = Some start).
  { unfold MidiMessage.parseRTP, Buffer.readUInt8 in Hrtp. unfold Buffer.readUInt16BE.
    cbn [Nat.add].
    destruct (bytes !! 0%nat); [|done]. simpl in Hrtp.
    destruct (bytes !! 1%nat); [|done]. by eexists. }
  destruct Hstart as (start & Hstart).
  assert (Hparse : MidiMessage.parseBuffer getDataLength bytes
    = Some (MidiMessage.mkParsed
              (MidiMessage.mk
                 (MidiMessage.version (MidiMessage.message r))
                 (MidiMessage.padding (MidiMessage.message r))
                 (MidiMessage.hasExtension (MidiMessage.message r))
                 (MidiMessage.csrcs (MidiMessage.message r))
                 (MidiMessage.marker (MidiMessage.message r))
                 (MidiMessage.payloadType (MidiMessage.message r))
                 (MidiMessage.sequenceNumber (MidiMessage.message r))
                 (MidiMessage.timestamp (MidiMessage.message r))
                 (MidiMessage.ssrc (MidiMessage.message r))
                 (MidiMessage.extensionHeaderId (MidiMessage.message r))
                 (MidiMessage.extension (MidiMessage.message r))
                 false false [] false)
              (MidiMessage.csrcCount r) (MidiMessage.extensionHeaderLength r)
              (MidiMessage.payload r) false false None None None)).
  { unfold MidiMessage.parseBuffer. rewrite Hrtp. cbn [mbind option_bind].
    by rewrite bool_decide_true by done. }
  eexists old, _, _. split; [done|]. split; [exact Hparse|]. split; [reflexivity|].
  unfold Session.handleDatagram, Session.handleMessage, hreceive. cbn [length app].
  unfold ControlMessage.parseBuffer.
  pose proof (contents_received [] bytes) as Hcontents. simpl in Hcontents.
  rewrite Hcontents. cbn [mbind option_bind]. rewrite Hstart. cbn [mbind option_bind].
  destruct (start =? ControlMessage.flags_start) eqn:Hstart';
    [apply Z.eqb_eq in Hstart'; subst start; done|].
  cbn [negb ControlMessage.isValid]. rewrite Hparse.
  cbn [fmap option_fmap option_map mbind option_bind MidiMessage.message MidiMessage.ssrc].
  rewrite Hfind. simpl. rewrite Hold. simpl.
  split; [reflexivity|]. split; [|reflexivity].
  by case_match.
Qed.

Lemma empty_payload_still_counted_witness :
  ∃ old m stream,
    Session.streams sample_session !! 0%nat = Some old
    ∧ MidiMessage.parseBuffer sample_getDataLength
        [0x80; 0x61; 0; 9; 0; 0; 0; 0; 5; 6; 7; 8] = Some m
    ∧ MidiMessage.isValid (MidiMessage.message m) = false
    ∧ Session.handleDatagram sample_getDataLength 1010 1020 7 7 sample_session
        [0x80; 0x61; 0; 9; 0; 0; 0; 0; 5; 6; 7; 8] sample_peer
      = Some (Session.updateStream 0 stream sample_session,
              [Session.Emitted (Session.midi (MidiMessage.message m))])
    ∧ Stream.lastReceivedSequenceNumber stream = 9.
Proof.
  destruct (empty_payload_still_counted sample_getDataLength 1010 1020 7 7 sample_session
              [0x80; 0x61; 0; 9; 0; 0; 0; 0; 5; 6; 7; 8] sample_peer _ 0
              ltac:(discriminate) eq_refl eq_refl eq_refl)
    as (old & m & stream & Hold & Hparse & Hvalid & Hstep & Hlast & _).
  exists old, m, stream. repeat split; done.
Defined.

(** ** The recovery journal *)

Lemma parseChannelJournals_length n : ∀ payload offset,
  (length (MidiMessage.parseChannelJournals n payload offset) ≤ n)%nat.
Proof.
  induction n as [|n IH]; intros payload offset; [done|].
  cbn [MidiMessage.parseChannelJournals]. case_bool_decide; [|simpl; lia].
  cbn [length]. match goal with
  | |- context [MidiMessage.parseChannelJournals n payload ?o] =>
      pose proof (IH payload o)
  end. lia.
Qed.

Lemma channel_count jh : 0 ≤ jh ≤ 255 → 1 ≤ Z.land jh 0x0f + 1 ≤ 16.
Proof.
  intros Hjh.
  pose proof (octet_cases (λ b, (1 <=? Z.land b 0x0f + 1) && (Z.land b 0x0f + 1 <=? 16))
                ltac:(vm_compute; reflexivity) jh Hjh) as Hcheck.
  cbv beta in Hcheck. apply andb_true_iff in Hcheck as [Ha Hb].
  apply Z.leb_le in Ha, Hb. lia.
Qed.

Lemma parseJournal_header payload offset jh c0 c1 :
  payload !! offset = Some jh →
  payload !! (offset + 1 + 0)%nat = Some c0 →
  payload !! (offset + 1 + 1)%nat = Some c1 →
  0 ≤ jh ≤ 255 →
  ∃ j, MidiMessage.parseJournal payload offset = Some j
       ∧ MidiMessage.singlePacketLoss j = MidiMessage.flag jh 0x80
       ∧ MidiMessage.checkPointPacketSequenceNumber j = c0 * 256 + c1
       ∧ (length (MidiMessage.channelJournals j) ≤ 16)%nat.
Proof.
  intros Hjh Hc0 Hc1 Hrange. unfold MidiMessage.parseJournal, Buffer.readUInt16BE.
  rewrite Nat.add_0_r in Hc0. rewrite Hjh, Hc0, Hc1.
  cbn [mbind option_bind default from_option id].
  pose proof (channel_count jh Hrange).
  destruct (MidiMessage.flag jh 64); destruct (MidiMessage.flag jh 32);
    eexists; (split; [reflexivity|]);
    cbn [MidiMessage.singlePacketLoss MidiMessage.checkPointPacketSequenceNumber
         MidiMessage.channelJournals length];
    (split; [done|]); (split; [done|]); try lia;
    (etrans; [apply parseChannelJournals_length|]); lia.
Qed.

(** X29.  A packet without commands whose header octet announces a
    journal needs the three octets of the journal header behind it: with
    them, the decoder reads the loss flag and the checkpoint sequence
    number and at most sixteen channel journals, however long the lengths
    in the packet claim them to be; when the last of the three is
    missing it throws. *)
Theorem journal_header_parsed getDataLength m jh c0 c1 rest :
  plainRTP m → 0 ≤ jh ≤ 255 →
  (∃ buffer r j,
     MidiMessage.generateRTP m (0x40 :: jh :: c0 :: c1 :: rest) = Some buffer
     ∧ MidiMessage.parseBuffer getDataLength buffer = Some r
     ∧ MidiMessage.commands (MidiMessage.message r) = []
     ∧ MidiMessage.isValid (MidiMessage.message r) = true
     ∧ MidiMessage.journalOffset r = Some 1%nat
     ∧ MidiMessage.journal r = Some j
     ∧ MidiMessage.singlePacketLoss j = MidiMessage.flag jh 0x80
     ∧ MidiMessage.checkPointPacketSequenceNumber j = c0 * 256 + c1
     ∧ (length (MidiMessage.channelJournals j) ≤ 16)%nat)
  ∧ (∃ buffer,
       MidiMessage.generateRTP m [0x40; jh; c0] = Some buffer
       ∧ MidiMessage.parseBuffer getDataLength buffer = None).
Proof.
  intros Hplain Hjh. split.
  - destruct (generateRTP_parseRTP m (0x40 :: jh :: c0 :: c1 :: rest) Hplain)
      as (buffer & Hgen & _ & Hparse).
    exists buffer.
    unfold MidiMessage.parseBuffer. rewrite Hparse.
    cbn [mbind option_bind MidiMessage.payload MidiMessage.message].
    rewrite bool_decide_false by done.
    cbn [Buffer.readUInt8 lookup list_lookup mbind option_bind].
    change (MidiMessage.flag 64 MidiMessage.FLAG_BIG_LENGTH) with false.
    change (MidiMessage.flag 64 MidiMessage.FLAG_HAS_JOURNAL) with true.
    change (MidiMessage.flag 64 MidiMessage.FLAG_FIRST_HAS_DELTA_TIME) with false.
    change (MidiMessage.flag 64 MidiMessage.FLAG_P) with false.
    change (Z.land 64 15) with 0.
    cbn [mbind option_bind length Nat.add MidiMessage.parseCommands].
    rewrite bool_decide_false by lia.
    cbn [MidiMessage.scanComplete MidiMessage.scanOffset MidiMessage.scanned
         MidiMessage.scanValid andb].
    destruct (parseJournal_header (0x40 :: jh :: c0 :: c1 :: rest) 1 jh c0 c1)
      as (j & Hj & Hloss & Hcheck & Hlen); [done..|].
    cbn [mbind option_bind MidiMessage.scanComplete MidiMessage.scanOffset andb].
    rewrite Hj. cbn [mbind option_bind].
    eexists _, j. split; [exact Hgen|]. split; [reflexivity|].
    cbn [MidiMessage.message MidiMessage.commands MidiMessage.isValid
         MidiMessage.journalOffset MidiMessage.journal].
    repeat split; done.
  - destruct (generateRTP_parseRTP m [0x40; jh; c0] Hplain)
      as (buffer & Hgen & _ & Hparse).
    exists buffer. split; [exact Hgen|].
    unfold MidiMessage.parseBuffer. rewrite Hparse.
    cbn [mbind option_bind MidiMessage.payload MidiMessage.message].
    rewrite bool_decide_false by done.
    cbn [Buffer.readUInt8 lookup list_lookup mbind option_bind].
    change (MidiMessage.flag 64 MidiMessage.FLAG_BIG_LENGTH) with false.
    change (MidiMessage.flag 64 MidiMessage.FLAG_HAS_JOURNAL) with true.
    change (MidiMessage.flag 64 MidiMessage.FLAG_FIRST_HAS_DELTA_TIME) with false.
    change (MidiMessage.flag 64 MidiMessage.FLAG_P) with false.
    change (Z.land 64 15) with 0.
    cbn [mbind option_bind length Nat.add MidiMessage.parseCommands].
    rewrite bool_decide_false by lia.
    reflexivity.
Qed.

Lemma journal_header_parsed_witness :
  (∃ buffer r j,
     MidiMessage.generateRTP (outgoing 8 50000 0x01020304 []) [0x40; 0x80; 0; 7]
     = Some buffer
     ∧ MidiMessage.parseBuffer sample_getDataLength buffer = Some r
     ∧ MidiMessage.journal r = Some j
     ∧ MidiMessage.singlePacketLoss j = true
     ∧ MidiMessage.checkPointPacketSequenceNumber j = 7)
  ∧ (∃ buffer,
       MidiMessage.generateRTP (outgoing 8 50000 0x01020304 []) [0x40; 0x80; 0]
       = Some buffer
       ∧ MidiMessage.parseBuffer sample_getDataLength buffer = None).
Proof.
  assert (Hplain : plainRTP (outgoing 8 50000 0x01020304 []))
    by (unfold plainRTP, fits32; simpl; repeat split; (done || lia)).
  destruct (journal_header_parsed sample_getDataLength (outgoing 8 50000 0x01020304 [])
              0x80 0 7 [] Hplain ltac:(lia))
    as [(buffer & r & j & Hgen & Hparse & _ & _ & _ & Hj & Hloss & Hcheck & _) Hthrow].
  split; [|exact Hthrow]. exists buffer, r, j. repeat split; done.
Defined.
